(** * Lead pipeline: filter gates and payload mappers

    A shallow embedding of the decision logic of the lead pipeline
    (src/millemail_pipeline.py, src/agents/email_enricher.py,
    src/agents/campaign_manager.py, src/agents/linkedin_profile_scraper.py,
    src/utils/millemail_supabase.py)
    together with the properties its specification states about it.

    Conventions.
    - A Python [str] is a Rocq [string] holding its UTF-8 bytes.
    - A Python dict with string keys is a [gmap string _]; a Python set is a
      [gset _].
    - A Python call that may raise returns a [result]; [Raise e] is the
      exception leaving the function.
    - Replies of external collaborators (HTTP, text generator, clock) are
      explicit arguments of the functions that consume them. *)

From Stdlib Require Import ZArith List Ascii String Bool Lia.
From stdpp Require Import base option countable gmap strings pretty list fin_maps.

Local Open Scope string_scope.
Local Open Scope list_scope.
Local Open Scope Z_scope.

(** ** Python values *)

Module Py.

(** The scalars a lead record carries: [None], a string or an integer (a
    Python [bool] is the integer 1 or 0). *)
Inductive pyval : Type :=
  | PNone
  | PStr (s : string)
  | PInt (z : Z).

#[global] Instance pyval_eq_dec : EqDecision pyval.
Proof. solve_decision. Defined.

Definition pyval_enc (v : pyval) : unit + (string + Z) :=
  match v with
  | PNone => inl tt
  | PStr s => inr (inl s)
  | PInt z => inr (inr z)
  end.

Definition pyval_dec (x : unit + (string + Z)) : pyval :=
  match x with
  | inl _ => PNone
  | inr (inl s) => PStr s
  | inr (inr z) => PInt z
  end.

#[global] Instance pyval_countable : Countable pyval.
Proof.
  refine (inj_countable' pyval_enc pyval_dec _).
  intros []; reflexivity.
Defined.

(** [bool(v)]: [None], the empty string and [0] are falsy. *)
Definition truthy (v : pyval) : bool :=
  match v with
  | PNone => false
  | PStr s => negb (String.eqb s "")
  | PInt z => negb (Z.eqb z 0)
  end.

(** Exceptions that the modelled code can raise. *)
Inductive exn : Type :=
  | ValueError
  | TypeError
  | OverflowError
  | AttributeError
  | OtherError (msg : string).

Inductive result (A : Type) : Type :=
  | Ok (a : A)
  | Raise (e : exn).
Arguments Ok {A} a.
Arguments Raise {A} e.

#[global] Instance exn_eq_dec : EqDecision exn.
Proof. solve_decision. Defined.

#[global] Instance result_eq_dec {A} `{EqDecision A} : EqDecision (result A).
Proof. solve_decision. Defined.

Definition bind {A B} (r : result A) (k : A -> result B) : result B :=
  match r with
  | Ok a => k a
  | Raise e => Raise e
  end.

(** A record with string keys. *)
Abbreviation pydict := (gmap string pyval).

(** [d.get(k)]: the value, or [None] when the key is absent. *)
Definition get (d : pydict) (k : string) : pyval := default PNone (d !! k).

(** [d.get(k, dflt)]. *)
Definition get_or (d : pydict) (k : string) (dflt : pyval) : pyval :=
  default dflt (d !! k).

(** [str(v)], as an f-string formats a value. *)
Definition str (v : pyval) : string :=
  match v with
  | PNone => "None"
  | PStr s => s
  | PInt z => pretty z
  end.

(** [a or b]: the first operand when it is truthy, else the second. *)
Definition or_ (a b : pyval) : pyval := if truthy a then a else b.

(** [v == s] for a string literal [s]. *)
Definition eq_str (v : pyval) (s : string) : bool :=
  match v with
  | PStr s' => String.eqb s' s
  | _ => false
  end.

(** [v >= n] for an integer literal [n]: ordering [None] or a string against
    an integer is a [TypeError]. *)
Definition ge_int (v : pyval) (n : Z) : result bool :=
  match v with
  | PInt z => Ok (n <=? z)
  | _ => Raise TypeError
  end.

(** [l[:n]]: the first [n] items; a negative [n] counts from the end. *)
Definition slice_to {A} (l : list A) (n : Z) : list A :=
  if 0 <=? n then take (Z.to_nat n) l
  else take (Z.to_nat (Z.of_nat (length l) + n)) l.

End Py.
Import Py.

Notation "'let*' x ':=' r 'in' k" := (bind r (fun x => k))
  (at level 10, x name, r at level 100, k at level 200).
Notation "'let*' ' p ':=' r 'in' k" := (bind r (fun x => let 'p := x in k))
  (at level 10, p strict pattern, r at level 100, k at level 200).

(** ** Python string methods used by the pipeline *)

Module Str.

(** [s.replace(old, new)] for a one-character [old]: every occurrence is
    replaced, left to right. *)
Fixpoint replace1 (old : ascii) (new : string) (s : string) : string :=
  match s with
  | EmptyString => EmptyString
  | String c r =>
      if Ascii.eqb c old then new +:+ replace1 old new r
      else String c (replace1 old new r)
  end.

(** [c in s] for a character [c]. *)
Fixpoint mem_char (c : ascii) (s : string) : bool :=
  match s with
  | EmptyString => false
  | String c' r => Ascii.eqb c c' || mem_char c r
  end.

(** [sub in s]: [sub] occurs in [s] as a contiguous run. *)
Fixpoint contains (sub s : string) : bool :=
  String.prefix sub s
  || match s with
     | EmptyString => false
     | String _ r => contains sub r
     end.

Definition code (c : ascii) : Z := Z.of_N (N_of_ascii c).

Definition chr (z : Z) : ascii := ascii_of_N (Z.to_N z).

Definition is_digit (c : ascii) : bool := (48 <=? code c) && (code c <=? 57).

(** [s.upper()] on ASCII letters; no other character has [B], [2] or [C] in
    its upper-case form, so the test for the label in [is_b2c_company] sees
    the same answer. *)
Definition upper_ascii (c : ascii) : ascii :=
  if (97 <=? code c) && (code c <=? 122) then chr (code c - 32) else c.

Fixpoint upper (s : string) : string :=
  match s with
  | EmptyString => EmptyString
  | String c r => String (upper_ascii c) (upper r)
  end.

(** [s.strip()] for the ASCII white space characters. *)
Definition is_space (c : ascii) : bool :=
  ((9 <=? code c) && (code c <=? 13)) || ((28 <=? code c) && (code c <=? 32)).

Fixpoint lstrip (s : string) : string :=
  match s with
  | EmptyString => EmptyString
  | String c r => if is_space c then lstrip r else s
  end.

Fixpoint rstrip (s : string) : string :=
  match s with
  | EmptyString => EmptyString
  | String c r =>
      match rstrip r with
      | EmptyString => if is_space c then EmptyString else String c EmptyString
      | r' => String c r'
      end
  end.

Definition strip (s : string) : string := rstrip (lstrip s).

(** [s[:n]]: the first [n] characters; the bytes 0x80..0xBF continue the
    character before them. *)
Definition is_continuation (c : ascii) : bool :=
  (128 <=? code c) && (code c <=? 191).

Fixpoint take_chars (n : nat) (s : string) : string :=
  match s with
  | EmptyString => EmptyString
  | String c r =>
      if is_continuation c then String c (take_chars n r)
      else
        match n with
        | O => EmptyString
        | S n' => String c (take_chars n' r)
        end
  end.

(** [s[n:]] on bytes. *)
Fixpoint drop (n : nat) (s : string) : string :=
  match n, s with
  | O, _ => s
  | S n', String _ r => drop n' r
  | S _, EmptyString => EmptyString
  end.

(** [sep.join(parts)]. *)
Fixpoint join (sep : string) (parts : list string) : string :=
  match parts with
  | [] => EmptyString
  | [x] => x
  | x :: rest => x +:+ sep +:+ join sep rest
  end.

(** *** [s.lower()]

    A Python string is a sequence of code points; here it is held in UTF-8, so
    [lower] reads the characters of the string, maps the code point of each
    and writes the result as UTF-8 again. The tables are those of Unicode
    14.0, the version of CPython 3.11. *)

(** The characters of a string: a byte that is not a continuation byte starts
    a character, and the continuation bytes after it belong to it. *)
Definition starts_continuation (s : string) : bool :=
  match s with
  | EmptyString => false
  | String c _ => is_continuation c
  end.

Fixpoint chars (s : string) : list string :=
  match s with
  | EmptyString => []
  | String c r =>
      match chars r with
      | x :: l =>
          if starts_continuation x then String c x :: l
          else String c EmptyString :: x :: l
      | [] => [String c EmptyString]
      end
  end.

(** The code point of a character; [None] for bytes that are no well-formed
    character of one to four bytes. *)
Definition decode (x : string) : option Z :=
  match x with
  | String a EmptyString => if code a <? 0x80 then Some (code a) else None
  | String a (String b EmptyString) =>
      if (0xC2 <=? code a) && (code a <? 0xE0) && is_continuation b
      then Some ((code a - 0xC0) * 64 + (code b - 0x80))
      else None
  | String a (String b (String c EmptyString)) =>
      let z := (code a - 0xE0) * 4096 + (code b - 0x80) * 64 + (code c - 0x80) in
      if (0xE0 <=? code a) && (code a <? 0xF0) && is_continuation b
         && is_continuation c && (0x800 <=? z)
      then Some z else None
  | String a (String b (String c (String d EmptyString))) =>
      let z := (code a - 0xF0) * 262144 + (code b - 0x80) * 4096
               + (code c - 0x80) * 64 + (code d - 0x80) in
      if (0xF0 <=? code a) && (code a <? 0xF8) && is_continuation b
         && is_continuation c && is_continuation d
         && (0x10000 <=? z) && (z <? 0x110000)
      then Some z else None
  | _ => None
  end.

Definition encode (z : Z) : string :=
  if z <? 0x80 then String (chr z) EmptyString
  else if z <? 0x800 then
    String (chr (0xC0 + z / 64)) (String (chr (0x80 + z mod 64)) EmptyString)
  else if z <? 0x10000 then
    String (chr (0xE0 + z / 4096))
      (String (chr (0x80 + (z / 64) mod 64))
         (String (chr (0x80 + z mod 64)) EmptyString))
  else
    String (chr (0xF0 + z / 262144))
      (String (chr (0x80 + (z / 4096) mod 64))
         (String (chr (0x80 + (z / 64) mod 64))
            (String (chr (0x80 + z mod 64)) EmptyString))).

(** The simple lower-case mappings: [(first, last, step, delta)] maps
    [first], [first + step], ... up to [last] to the code point [delta]
    further. *)
Definition LOWERCASE : list (Z * Z * Z * Z) :=
  [
    (0x41, 0x5A, 1, 32); (0xC0, 0xD6, 1, 32); (0xD8, 0xDE, 1, 32);
    (0x100, 0x12E, 2, 1); (0x132, 0x136, 2, 1); (0x139, 0x147, 2, 1);
    (0x14A, 0x176, 2, 1); (0x178, 0x178, 1, (-121)); (0x179, 0x17D, 2, 1);
    (0x181, 0x181, 1, 210); (0x182, 0x184, 2, 1); (0x186, 0x186, 1, 206);
    (0x187, 0x187, 1, 1); (0x189, 0x18A, 1, 205); (0x18B, 0x18B, 1, 1);
    (0x18E, 0x18E, 1, 79); (0x18F, 0x18F, 1, 202); (0x190, 0x190, 1, 203);
    (0x191, 0x191, 1, 1); (0x193, 0x193, 1, 205); (0x194, 0x194, 1, 207);
    (0x196, 0x196, 1, 211); (0x197, 0x197, 1, 209); (0x198, 0x198, 1, 1);
    (0x19C, 0x19C, 1, 211); (0x19D, 0x19D, 1, 213); (0x19F, 0x19F, 1, 214);
    (0x1A0, 0x1A4, 2, 1); (0x1A6, 0x1A6, 1, 218); (0x1A7, 0x1A7, 1, 1);
    (0x1A9, 0x1A9, 1, 218); (0x1AC, 0x1AC, 1, 1); (0x1AE, 0x1AE, 1, 218);
    (0x1AF, 0x1AF, 1, 1); (0x1B1, 0x1B2, 1, 217); (0x1B3, 0x1B5, 2, 1);
    (0x1B7, 0x1B7, 1, 219); (0x1B8, 0x1B8, 1, 1); (0x1BC, 0x1BC, 1, 1);
    (0x1C4, 0x1C4, 1, 2); (0x1C5, 0x1C5, 1, 1); (0x1C7, 0x1C7, 1, 2);
    (0x1C8, 0x1C8, 1, 1); (0x1CA, 0x1CA, 1, 2); (0x1CB, 0x1DB, 2, 1);
    (0x1DE, 0x1EE, 2, 1); (0x1F1, 0x1F1, 1, 2); (0x1F2, 0x1F4, 2, 1);
    (0x1F6, 0x1F6, 1, (-97)); (0x1F7, 0x1F7, 1, (-56)); (0x1F8, 0x21E, 2, 1);
    (0x220, 0x220, 1, (-130)); (0x222, 0x232, 2, 1); (0x23A, 0x23A, 1, 10795);
    (0x23B, 0x23B, 1, 1); (0x23D, 0x23D, 1, (-163)); (0x23E, 0x23E, 1, 10792);
    (0x241, 0x241, 1, 1); (0x243, 0x243, 1, (-195)); (0x244, 0x244, 1, 69);
    (0x245, 0x245, 1, 71); (0x246, 0x24E, 2, 1); (0x370, 0x372, 2, 1);
    (0x376, 0x376, 1, 1); (0x37F, 0x37F, 1, 116); (0x386, 0x386, 1, 38);
    (0x388, 0x38A, 1, 37); (0x38C, 0x38C, 1, 64); (0x38E, 0x38F, 1, 63);
    (0x391, 0x3A1, 1, 32); (0x3A3, 0x3AB, 1, 32); (0x3CF, 0x3CF, 1, 8);
    (0x3D8, 0x3EE, 2, 1); (0x3F4, 0x3F4, 1, (-60)); (0x3F7, 0x3F7, 1, 1);
    (0x3F9, 0x3F9, 1, (-7)); (0x3FA, 0x3FA, 1, 1); (0x3FD, 0x3FF, 1, (-130));
    (0x400, 0x40F, 1, 80); (0x410, 0x42F, 1, 32); (0x460, 0x480, 2, 1);
    (0x48A, 0x4BE, 2, 1); (0x4C0, 0x4C0, 1, 15); (0x4C1, 0x4CD, 2, 1);
    (0x4D0, 0x52E, 2, 1); (0x531, 0x556, 1, 48); (0x10A0, 0x10C5, 1, 7264);
    (0x10C7, 0x10C7, 1, 7264); (0x10CD, 0x10CD, 1, 7264); (0x13A0, 0x13EF, 1, 38864);
    (0x13F0, 0x13F5, 1, 8); (0x1C90, 0x1CBA, 1, (-3008)); (0x1CBD, 0x1CBF, 1, (-3008));
    (0x1E00, 0x1E94, 2, 1); (0x1E9E, 0x1E9E, 1, (-7615)); (0x1EA0, 0x1EFE, 2, 1);
    (0x1F08, 0x1F0F, 1, (-8)); (0x1F18, 0x1F1D, 1, (-8)); (0x1F28, 0x1F2F, 1, (-8));
    (0x1F38, 0x1F3F, 1, (-8)); (0x1F48, 0x1F4D, 1, (-8)); (0x1F59, 0x1F5F, 2, (-8));
    (0x1F68, 0x1F6F, 1, (-8)); (0x1F88, 0x1F8F, 1, (-8)); (0x1F98, 0x1F9F, 1, (-8));
    (0x1FA8, 0x1FAF, 1, (-8)); (0x1FB8, 0x1FB9, 1, (-8)); (0x1FBA, 0x1FBB, 1, (-74));
    (0x1FBC, 0x1FBC, 1, (-9)); (0x1FC8, 0x1FCB, 1, (-86)); (0x1FCC, 0x1FCC, 1, (-9));
    (0x1FD8, 0x1FD9, 1, (-8)); (0x1FDA, 0x1FDB, 1, (-100)); (0x1FE8, 0x1FE9, 1, (-8));
    (0x1FEA, 0x1FEB, 1, (-112)); (0x1FEC, 0x1FEC, 1, (-7)); (0x1FF8, 0x1FF9, 1, (-128));
    (0x1FFA, 0x1FFB, 1, (-126)); (0x1FFC, 0x1FFC, 1, (-9)); (0x2126, 0x2126, 1, (-7517));
    (0x212A, 0x212A, 1, (-8383)); (0x212B, 0x212B, 1, (-8262)); (0x2132, 0x2132, 1, 28);
    (0x2160, 0x216F, 1, 16); (0x2183, 0x2183, 1, 1); (0x24B6, 0x24CF, 1, 26);
    (0x2C00, 0x2C2F, 1, 48); (0x2C60, 0x2C60, 1, 1); (0x2C62, 0x2C62, 1, (-10743));
    (0x2C63, 0x2C63, 1, (-3814)); (0x2C64, 0x2C64, 1, (-10727)); (0x2C67, 0x2C6B, 2, 1);
    (0x2C6D, 0x2C6D, 1, (-10780)); (0x2C6E, 0x2C6E, 1, (-10749)); (0x2C6F, 0x2C6F, 1, (-10783));
    (0x2C70, 0x2C70, 1, (-10782)); (0x2C72, 0x2C72, 1, 1); (0x2C75, 0x2C75, 1, 1);
    (0x2C7E, 0x2C7F, 1, (-10815)); (0x2C80, 0x2CE2, 2, 1); (0x2CEB, 0x2CED, 2, 1);
    (0x2CF2, 0x2CF2, 1, 1); (0xA640, 0xA66C, 2, 1); (0xA680, 0xA69A, 2, 1);
    (0xA722, 0xA72E, 2, 1); (0xA732, 0xA76E, 2, 1); (0xA779, 0xA77B, 2, 1);
    (0xA77D, 0xA77D, 1, (-35332)); (0xA77E, 0xA786, 2, 1); (0xA78B, 0xA78B, 1, 1);
    (0xA78D, 0xA78D, 1, (-42280)); (0xA790, 0xA792, 2, 1); (0xA796, 0xA7A8, 2, 1);
    (0xA7AA, 0xA7AA, 1, (-42308)); (0xA7AB, 0xA7AB, 1, (-42319)); (0xA7AC, 0xA7AC, 1, (-42315));
    (0xA7AD, 0xA7AD, 1, (-42305)); (0xA7AE, 0xA7AE, 1, (-42308)); (0xA7B0, 0xA7B0, 1, (-42258));
    (0xA7B1, 0xA7B1, 1, (-42282)); (0xA7B2, 0xA7B2, 1, (-42261)); (0xA7B3, 0xA7B3, 1, 928);
    (0xA7B4, 0xA7C2, 2, 1); (0xA7C4, 0xA7C4, 1, (-48)); (0xA7C5, 0xA7C5, 1, (-42307));
    (0xA7C6, 0xA7C6, 1, (-35384)); (0xA7C7, 0xA7C9, 2, 1); (0xA7D0, 0xA7D0, 1, 1);
    (0xA7D6, 0xA7D8, 2, 1); (0xA7F5, 0xA7F5, 1, 1); (0xFF21, 0xFF3A, 1, 32);
    (0x10400, 0x10427, 1, 40); (0x104B0, 0x104D3, 1, 40); (0x10570, 0x1057A, 1, 39);
    (0x1057C, 0x1058A, 1, 39); (0x1058C, 0x10592, 1, 39); (0x10594, 0x10595, 1, 39);
    (0x10C80, 0x10CB2, 1, 64); (0x118A0, 0x118BF, 1, 32); (0x16E40, 0x16E5F, 1, 32);
    (0x1E900, 0x1E921, 1, 34) ].

(** The code points with the property Cased, as ranges [(first, last)]. *)
Definition CASED : list (Z * Z) :=
  [
    (0x41, 0x5A); (0x61, 0x7A); (0xAA, 0xAA); (0xB5, 0xB5);
    (0xBA, 0xBA); (0xC0, 0xD6); (0xD8, 0xF6); (0xF8, 0x1BA);
    (0x1BC, 0x1BF); (0x1C4, 0x293); (0x295, 0x2B8); (0x2C0, 0x2C1);
    (0x2E0, 0x2E4); (0x345, 0x345); (0x370, 0x373); (0x376, 0x377);
    (0x37A, 0x37D); (0x37F, 0x37F); (0x386, 0x386); (0x388, 0x38A);
    (0x38C, 0x38C); (0x38E, 0x3A1); (0x3A3, 0x3F5); (0x3F7, 0x481);
    (0x48A, 0x52F); (0x531, 0x556); (0x560, 0x588); (0x10A0, 0x10C5);
    (0x10C7, 0x10C7); (0x10CD, 0x10CD); (0x10D0, 0x10FA); (0x10FD, 0x10FF);
    (0x13A0, 0x13F5); (0x13F8, 0x13FD); (0x1C80, 0x1C88); (0x1C90, 0x1CBA);
    (0x1CBD, 0x1CBF); (0x1D00, 0x1DBF); (0x1E00, 0x1F15); (0x1F18, 0x1F1D);
    (0x1F20, 0x1F45); (0x1F48, 0x1F4D); (0x1F50, 0x1F57); (0x1F59, 0x1F59);
    (0x1F5B, 0x1F5B); (0x1F5D, 0x1F5D); (0x1F5F, 0x1F7D); (0x1F80, 0x1FB4);
    (0x1FB6, 0x1FBC); (0x1FBE, 0x1FBE); (0x1FC2, 0x1FC4); (0x1FC6, 0x1FCC);
    (0x1FD0, 0x1FD3); (0x1FD6, 0x1FDB); (0x1FE0, 0x1FEC); (0x1FF2, 0x1FF4);
    (0x1FF6, 0x1FFC); (0x2071, 0x2071); (0x207F, 0x207F); (0x2090, 0x209C);
    (0x2102, 0x2102); (0x2107, 0x2107); (0x210A, 0x2113); (0x2115, 0x2115);
    (0x2119, 0x211D); (0x2124, 0x2124); (0x2126, 0x2126); (0x2128, 0x2128);
    (0x212A, 0x212D); (0x212F, 0x2134); (0x2139, 0x2139); (0x213C, 0x213F);
    (0x2145, 0x2149); (0x214E, 0x214E); (0x2160, 0x217F); (0x2183, 0x2184);
    (0x24B6, 0x24E9); (0x2C00, 0x2CE4); (0x2CEB, 0x2CEE); (0x2CF2, 0x2CF3);
    (0x2D00, 0x2D25); (0x2D27, 0x2D27); (0x2D2D, 0x2D2D); (0xA640, 0xA66D);
    (0xA680, 0xA69D); (0xA722, 0xA787); (0xA78B, 0xA78E); (0xA790, 0xA7CA);
    (0xA7D0, 0xA7D1); (0xA7D3, 0xA7D3); (0xA7D5, 0xA7D9); (0xA7F5, 0xA7F6);
    (0xA7F8, 0xA7FA); (0xAB30, 0xAB5A); (0xAB5C, 0xAB68); (0xAB70, 0xABBF);
    (0xFB00, 0xFB06); (0xFB13, 0xFB17); (0xFF21, 0xFF3A); (0xFF41, 0xFF5A);
    (0x10400, 0x1044F); (0x104B0, 0x104D3); (0x104D8, 0x104FB); (0x10570, 0x1057A);
    (0x1057C, 0x1058A); (0x1058C, 0x10592); (0x10594, 0x10595); (0x10597, 0x105A1);
    (0x105A3, 0x105B1); (0x105B3, 0x105B9); (0x105BB, 0x105BC); (0x10780, 0x10780);
    (0x10783, 0x10785); (0x10787, 0x107B0); (0x107B2, 0x107BA); (0x10C80, 0x10CB2);
    (0x10CC0, 0x10CF2); (0x118A0, 0x118DF); (0x16E40, 0x16E7F); (0x1D400, 0x1D454);
    (0x1D456, 0x1D49C); (0x1D49E, 0x1D49F); (0x1D4A2, 0x1D4A2); (0x1D4A5, 0x1D4A6);
    (0x1D4A9, 0x1D4AC); (0x1D4AE, 0x1D4B9); (0x1D4BB, 0x1D4BB); (0x1D4BD, 0x1D4C3);
    (0x1D4C5, 0x1D505); (0x1D507, 0x1D50A); (0x1D50D, 0x1D514); (0x1D516, 0x1D51C);
    (0x1D51E, 0x1D539); (0x1D53B, 0x1D53E); (0x1D540, 0x1D544); (0x1D546, 0x1D546);
    (0x1D54A, 0x1D550); (0x1D552, 0x1D6A5); (0x1D6A8, 0x1D6C0); (0x1D6C2, 0x1D6DA);
    (0x1D6DC, 0x1D6FA); (0x1D6FC, 0x1D714); (0x1D716, 0x1D734); (0x1D736, 0x1D74E);
    (0x1D750, 0x1D76E); (0x1D770, 0x1D788); (0x1D78A, 0x1D7A8); (0x1D7AA, 0x1D7C2);
    (0x1D7C4, 0x1D7CB); (0x1DF00, 0x1DF09); (0x1DF0B, 0x1DF1E); (0x1E900, 0x1E943);
    (0x1F130, 0x1F149); (0x1F150, 0x1F169); (0x1F170, 0x1F189) ].

(** The code points with the property Case_Ignorable. *)
Definition CASE_IGNORABLE : list (Z * Z) :=
  [
    (0x27, 0x27); (0x2E, 0x2E); (0x3A, 0x3A); (0x5E, 0x5E);
    (0x60, 0x60); (0xA8, 0xA8); (0xAD, 0xAD); (0xAF, 0xAF);
    (0xB4, 0xB4); (0xB7, 0xB8); (0x2B0, 0x36F); (0x374, 0x375);
    (0x37A, 0x37A); (0x384, 0x385); (0x387, 0x387); (0x483, 0x489);
    (0x559, 0x559); (0x55F, 0x55F); (0x591, 0x5BD); (0x5BF, 0x5BF);
    (0x5C1, 0x5C2); (0x5C4, 0x5C5); (0x5C7, 0x5C7); (0x5F4, 0x5F4);
    (0x600, 0x605); (0x610, 0x61A); (0x61C, 0x61C); (0x640, 0x640);
    (0x64B, 0x65F); (0x670, 0x670); (0x6D6, 0x6DD); (0x6DF, 0x6E8);
    (0x6EA, 0x6ED); (0x70F, 0x70F); (0x711, 0x711); (0x730, 0x74A);
    (0x7A6, 0x7B0); (0x7EB, 0x7F5); (0x7FA, 0x7FA); (0x7FD, 0x7FD);
    (0x816, 0x82D); (0x859, 0x85B); (0x888, 0x888); (0x890, 0x891);
    (0x898, 0x89F); (0x8C9, 0x902); (0x93A, 0x93A); (0x93C, 0x93C);
    (0x941, 0x948); (0x94D, 0x94D); (0x951, 0x957); (0x962, 0x963);
    (0x971, 0x971); (0x981, 0x981); (0x9BC, 0x9BC); (0x9C1, 0x9C4);
    (0x9CD, 0x9CD); (0x9E2, 0x9E3); (0x9FE, 0x9FE); (0xA01, 0xA02);
    (0xA3C, 0xA3C); (0xA41, 0xA42); (0xA47, 0xA48); (0xA4B, 0xA4D);
    (0xA51, 0xA51); (0xA70, 0xA71); (0xA75, 0xA75); (0xA81, 0xA82);
    (0xABC, 0xABC); (0xAC1, 0xAC5); (0xAC7, 0xAC8); (0xACD, 0xACD);
    (0xAE2, 0xAE3); (0xAFA, 0xAFF); (0xB01, 0xB01); (0xB3C, 0xB3C);
    (0xB3F, 0xB3F); (0xB41, 0xB44); (0xB4D, 0xB4D); (0xB55, 0xB56);
    (0xB62, 0xB63); (0xB82, 0xB82); (0xBC0, 0xBC0); (0xBCD, 0xBCD);
    (0xC00, 0xC00); (0xC04, 0xC04); (0xC3C, 0xC3C); (0xC3E, 0xC40);
    (0xC46, 0xC48); (0xC4A, 0xC4D); (0xC55, 0xC56); (0xC62, 0xC63);
    (0xC81, 0xC81); (0xCBC, 0xCBC); (0xCBF, 0xCBF); (0xCC6, 0xCC6);
    (0xCCC, 0xCCD); (0xCE2, 0xCE3); (0xD00, 0xD01); (0xD3B, 0xD3C);
    (0xD41, 0xD44); (0xD4D, 0xD4D); (0xD62, 0xD63); (0xD81, 0xD81);
    (0xDCA, 0xDCA); (0xDD2, 0xDD4); (0xDD6, 0xDD6); (0xE31, 0xE31);
    (0xE34, 0xE3A); (0xE46, 0xE4E); (0xEB1, 0xEB1); (0xEB4, 0xEBC);
    (0xEC6, 0xEC6); (0xEC8, 0xECD); (0xF18, 0xF19); (0xF35, 0xF35);
    (0xF37, 0xF37); (0xF39, 0xF39); (0xF71, 0xF7E); (0xF80, 0xF84);
    (0xF86, 0xF87); (0xF8D, 0xF97); (0xF99, 0xFBC); (0xFC6, 0xFC6);
    (0x102D, 0x1030); (0x1032, 0x1037); (0x1039, 0x103A); (0x103D, 0x103E);
    (0x1058, 0x1059); (0x105E, 0x1060); (0x1071, 0x1074); (0x1082, 0x1082);
    (0x1085, 0x1086); (0x108D, 0x108D); (0x109D, 0x109D); (0x10FC, 0x10FC);
    (0x135D, 0x135F); (0x1712, 0x1714); (0x1732, 0x1733); (0x1752, 0x1753);
    (0x1772, 0x1773); (0x17B4, 0x17B5); (0x17B7, 0x17BD); (0x17C6, 0x17C6);
    (0x17C9, 0x17D3); (0x17D7, 0x17D7); (0x17DD, 0x17DD); (0x180B, 0x180F);
    (0x1843, 0x1843); (0x1885, 0x1886); (0x18A9, 0x18A9); (0x1920, 0x1922);
    (0x1927, 0x1928); (0x1932, 0x1932); (0x1939, 0x193B); (0x1A17, 0x1A18);
    (0x1A1B, 0x1A1B); (0x1A56, 0x1A56); (0x1A58, 0x1A5E); (0x1A60, 0x1A60);
    (0x1A62, 0x1A62); (0x1A65, 0x1A6C); (0x1A73, 0x1A7C); (0x1A7F, 0x1A7F);
    (0x1AA7, 0x1AA7); (0x1AB0, 0x1ACE); (0x1B00, 0x1B03); (0x1B34, 0x1B34);
    (0x1B36, 0x1B3A); (0x1B3C, 0x1B3C); (0x1B42, 0x1B42); (0x1B6B, 0x1B73);
    (0x1B80, 0x1B81); (0x1BA2, 0x1BA5); (0x1BA8, 0x1BA9); (0x1BAB, 0x1BAD);
    (0x1BE6, 0x1BE6); (0x1BE8, 0x1BE9); (0x1BED, 0x1BED); (0x1BEF, 0x1BF1);
    (0x1C2C, 0x1C33); (0x1C36, 0x1C37); (0x1C78, 0x1C7D); (0x1CD0, 0x1CD2);
    (0x1CD4, 0x1CE0); (0x1CE2, 0x1CE8); (0x1CED, 0x1CED); (0x1CF4, 0x1CF4);
    (0x1CF8, 0x1CF9); (0x1D2C, 0x1D6A); (0x1D78, 0x1D78); (0x1D9B, 0x1DFF);
    (0x1FBD, 0x1FBD); (0x1FBF, 0x1FC1); (0x1FCD, 0x1FCF); (0x1FDD, 0x1FDF);
    (0x1FED, 0x1FEF); (0x1FFD, 0x1FFE); (0x200B, 0x200F); (0x2018, 0x2019);
    (0x2024, 0x2024); (0x2027, 0x2027); (0x202A, 0x202E); (0x2060, 0x2064);
    (0x2066, 0x206F); (0x2071, 0x2071); (0x207F, 0x207F); (0x2090, 0x209C);
    (0x20D0, 0x20F0); (0x2C7C, 0x2C7D); (0x2CEF, 0x2CF1); (0x2D6F, 0x2D6F);
    (0x2D7F, 0x2D7F); (0x2DE0, 0x2DFF); (0x2E2F, 0x2E2F); (0x3005, 0x3005);
    (0x302A, 0x302D); (0x3031, 0x3035); (0x303B, 0x303B); (0x3099, 0x309E);
    (0x30FC, 0x30FE); (0xA015, 0xA015); (0xA4F8, 0xA4FD); (0xA60C, 0xA60C);
    (0xA66F, 0xA672); (0xA674, 0xA67D); (0xA67F, 0xA67F); (0xA69C, 0xA69F);
    (0xA6F0, 0xA6F1); (0xA700, 0xA721); (0xA770, 0xA770); (0xA788, 0xA78A);
    (0xA7F2, 0xA7F4); (0xA7F8, 0xA7F9); (0xA802, 0xA802); (0xA806, 0xA806);
    (0xA80B, 0xA80B); (0xA825, 0xA826); (0xA82C, 0xA82C); (0xA8C4, 0xA8C5);
    (0xA8E0, 0xA8F1); (0xA8FF, 0xA8FF); (0xA926, 0xA92D); (0xA947, 0xA951);
    (0xA980, 0xA982); (0xA9B3, 0xA9B3); (0xA9B6, 0xA9B9); (0xA9BC, 0xA9BD);
    (0xA9CF, 0xA9CF); (0xA9E5, 0xA9E6); (0xAA29, 0xAA2E); (0xAA31, 0xAA32);
    (0xAA35, 0xAA36); (0xAA43, 0xAA43); (0xAA4C, 0xAA4C); (0xAA70, 0xAA70);
    (0xAA7C, 0xAA7C); (0xAAB0, 0xAAB0); (0xAAB2, 0xAAB4); (0xAAB7, 0xAAB8);
    (0xAABE, 0xAABF); (0xAAC1, 0xAAC1); (0xAADD, 0xAADD); (0xAAEC, 0xAAED);
    (0xAAF3, 0xAAF4); (0xAAF6, 0xAAF6); (0xAB5B, 0xAB5F); (0xAB69, 0xAB6B);
    (0xABE5, 0xABE5); (0xABE8, 0xABE8); (0xABED, 0xABED); (0xFB1E, 0xFB1E);
    (0xFBB2, 0xFBC2); (0xFE00, 0xFE0F); (0xFE13, 0xFE13); (0xFE20, 0xFE2F);
    (0xFE52, 0xFE52); (0xFE55, 0xFE55); (0xFEFF, 0xFEFF); (0xFF07, 0xFF07);
    (0xFF0E, 0xFF0E); (0xFF1A, 0xFF1A); (0xFF3E, 0xFF3E); (0xFF40, 0xFF40);
    (0xFF70, 0xFF70); (0xFF9E, 0xFF9F); (0xFFE3, 0xFFE3); (0xFFF9, 0xFFFB);
    (0x101FD, 0x101FD); (0x102E0, 0x102E0); (0x10376, 0x1037A); (0x10780, 0x10785);
    (0x10787, 0x107B0); (0x107B2, 0x107BA); (0x10A01, 0x10A03); (0x10A05, 0x10A06);
    (0x10A0C, 0x10A0F); (0x10A38, 0x10A3A); (0x10A3F, 0x10A3F); (0x10AE5, 0x10AE6);
    (0x10D24, 0x10D27); (0x10EAB, 0x10EAC); (0x10F46, 0x10F50); (0x10F82, 0x10F85);
    (0x11001, 0x11001); (0x11038, 0x11046); (0x11070, 0x11070); (0x11073, 0x11074);
    (0x1107F, 0x11081); (0x110B3, 0x110B6); (0x110B9, 0x110BA); (0x110BD, 0x110BD);
    (0x110C2, 0x110C2); (0x110CD, 0x110CD); (0x11100, 0x11102); (0x11127, 0x1112B);
    (0x1112D, 0x11134); (0x11173, 0x11173); (0x11180, 0x11181); (0x111B6, 0x111BE);
    (0x111C9, 0x111CC); (0x111CF, 0x111CF); (0x1122F, 0x11231); (0x11234, 0x11234);
    (0x11236, 0x11237); (0x1123E, 0x1123E); (0x112DF, 0x112DF); (0x112E3, 0x112EA);
    (0x11300, 0x11301); (0x1133B, 0x1133C); (0x11340, 0x11340); (0x11366, 0x1136C);
    (0x11370, 0x11374); (0x11438, 0x1143F); (0x11442, 0x11444); (0x11446, 0x11446);
    (0x1145E, 0x1145E); (0x114B3, 0x114B8); (0x114BA, 0x114BA); (0x114BF, 0x114C0);
    (0x114C2, 0x114C3); (0x115B2, 0x115B5); (0x115BC, 0x115BD); (0x115BF, 0x115C0);
    (0x115DC, 0x115DD); (0x11633, 0x1163A); (0x1163D, 0x1163D); (0x1163F, 0x11640);
    (0x116AB, 0x116AB); (0x116AD, 0x116AD); (0x116B0, 0x116B5); (0x116B7, 0x116B7);
    (0x1171D, 0x1171F); (0x11722, 0x11725); (0x11727, 0x1172B); (0x1182F, 0x11837);
    (0x11839, 0x1183A); (0x1193B, 0x1193C); (0x1193E, 0x1193E); (0x11943, 0x11943);
    (0x119D4, 0x119D7); (0x119DA, 0x119DB); (0x119E0, 0x119E0); (0x11A01, 0x11A0A);
    (0x11A33, 0x11A38); (0x11A3B, 0x11A3E); (0x11A47, 0x11A47); (0x11A51, 0x11A56);
    (0x11A59, 0x11A5B); (0x11A8A, 0x11A96); (0x11A98, 0x11A99); (0x11C30, 0x11C36);
    (0x11C38, 0x11C3D); (0x11C3F, 0x11C3F); (0x11C92, 0x11CA7); (0x11CAA, 0x11CB0);
    (0x11CB2, 0x11CB3); (0x11CB5, 0x11CB6); (0x11D31, 0x11D36); (0x11D3A, 0x11D3A);
    (0x11D3C, 0x11D3D); (0x11D3F, 0x11D45); (0x11D47, 0x11D47); (0x11D90, 0x11D91);
    (0x11D95, 0x11D95); (0x11D97, 0x11D97); (0x11EF3, 0x11EF4); (0x13430, 0x13438);
    (0x16AF0, 0x16AF4); (0x16B30, 0x16B36); (0x16B40, 0x16B43); (0x16F4F, 0x16F4F);
    (0x16F8F, 0x16F9F); (0x16FE0, 0x16FE1); (0x16FE3, 0x16FE4); (0x1AFF0, 0x1AFF3);
    (0x1AFF5, 0x1AFFB); (0x1AFFD, 0x1AFFE); (0x1BC9D, 0x1BC9E); (0x1BCA0, 0x1BCA3);
    (0x1CF00, 0x1CF2D); (0x1CF30, 0x1CF46); (0x1D167, 0x1D169); (0x1D173, 0x1D182);
    (0x1D185, 0x1D18B); (0x1D1AA, 0x1D1AD); (0x1D242, 0x1D244); (0x1DA00, 0x1DA36);
    (0x1DA3B, 0x1DA6C); (0x1DA75, 0x1DA75); (0x1DA84, 0x1DA84); (0x1DA9B, 0x1DA9F);
    (0x1DAA1, 0x1DAAF); (0x1E000, 0x1E006); (0x1E008, 0x1E018); (0x1E01B, 0x1E021);
    (0x1E023, 0x1E024); (0x1E026, 0x1E02A); (0x1E130, 0x1E13D); (0x1E2AE, 0x1E2AE);
    (0x1E2EC, 0x1E2EF); (0x1E8D0, 0x1E8D6); (0x1E944, 0x1E94B); (0x1F3FB, 0x1F3FF);
    (0xE0001, 0xE0001); (0xE0020, 0xE007F); (0xE0100, 0xE01EF) ].

Definition in_ranges (c : Z) (ranges : list (Z * Z)) : bool :=
  existsb (fun r => (fst r <=? c) && (c <=? snd r)) ranges.

Definition cased (c : Z) : bool := in_ranges c CASED.

Definition case_ignorable (c : Z) : bool := in_ranges c CASE_IGNORABLE.

Definition lower_delta (c : Z) : Z :=
  match find (fun r => let '(first, last, step, _) := r in
                       (first <=? c) && (c <=? last)
                       && ((c - first) mod step =? 0)) LOWERCASE with
  | Some (_, _, _, delta) => delta
  | None => 0
  end.

(** Is the closest character that is not case-ignorable a cased one?  The
    list is read from its head; when no such character is left the answer is
    [false]. *)
Fixpoint first_cased (l : list string) : bool :=
  match l with
  | [] => false
  | x :: r =>
      match decode x with
      | Some c => if case_ignorable c then first_cased r else cased c
      | None => false
      end
  end.

(** A capital sigma is a final one when a cased character comes before it
    and none comes after it, case-ignorable characters apart. [before] holds
    the characters before it, the closest first. *)
Definition final_sigma (before after : list string) : bool :=
  first_cased before && negb (first_cased after).

(** The lower-case form of one character: U+03A3 gives a final or a plain
    small sigma, U+0130 gives [i] and a combining dot above, any other
    character its simple mapping; bytes that are no character are kept. *)
Definition lower_char (before : list string) (x : string)
    (after : list string) : list string :=
  match decode x with
  | None => [x]
  | Some c =>
      if c =? 0x3A3 then
        [encode (if final_sigma before after then 0x3C2 else 0x3C3)]
      else if c =? 0x130 then [encode 0x69; encode 0x307]
      else if lower_delta c =? 0 then [x]
      else [encode (c + lower_delta c)]
  end.

Fixpoint lower_chars (before l : list string) : list string :=
  match l with
  | [] => []
  | x :: after => lower_char before x after ++ lower_chars (x :: before) after
  end.

Definition lower (s : string) : string :=
  String.concat EmptyString (lower_chars [] (chars s)).

End Str.

(** ** The standard library's [datetime], as far as [filter_cooldown] uses it

    [fromisoformat] accepts the input format documented for Python 3.7 to
    3.10, [YYYY-MM-DD[*HH[:MM[:SS[.fff[fff]]]][+HH:MM[:SS[.ffffff]]]]] with [*]
    any single character (the output format of [isoformat()]); a string outside
    that format is a [ValueError]. Python 3.11 and later read further ISO 8601
    spellings as well; a text that does not begin with the four digits of a
    year is a [ValueError] in every version. *)

Module Datetime.

Record datetime : Type := mk_datetime {
  year : Z; month : Z; day : Z;
  hour : Z; minute : Z; second : Z; microsecond : Z;
  (** [None] for a naive datetime, else the UTC offset in microseconds. *)
  tzinfo : option Z
}.

Definition is_leap (y : Z) : bool :=
  (y mod 4 =? 0) && (negb (y mod 100 =? 0) || (y mod 400 =? 0)).

Definition days_before_year (y : Z) : Z :=
  let y1 := y - 1 in y1 * 365 + y1 / 4 - y1 / 100 + y1 / 400.

Definition days_in_month (y m : Z) : Z :=
  if (m =? 2) && is_leap y then 29
  else nth (Z.to_nat m) [-1; 31; 28; 31; 30; 31; 30; 31; 31; 30; 31; 30; 31] (-1).

Definition days_before_month (y m : Z) : Z :=
  nth (Z.to_nat m) [-1; 0; 31; 59; 90; 120; 151; 181; 212; 243; 273; 304; 334] (-1)
  + (if (2 <? m) && is_leap y then 1 else 0).

Definition ymd2ord (y m d : Z) : Z :=
  days_before_year y + days_before_month y m + d.

Definition MINYEAR : Z := 1.
Definition MAXYEAR : Z := 9999.
Definition MAXORDINAL : Z := 3652059.

Definition us_per_second : Z := 1000000.
Definition us_per_day : Z := 86400 * us_per_second.

(** The range checks of the [datetime] constructor. *)
Definition check_date_fields (y m d : Z) : bool :=
  (MINYEAR <=? y) && (y <=? MAXYEAR) && (1 <=? m) && (m <=? 12)
  && (1 <=? d) && (d <=? days_in_month y m).

Definition check_time_fields (h mi s us : Z) : bool :=
  (0 <=? h) && (h <=? 23) && (0 <=? mi) && (mi <=? 59)
  && (0 <=? s) && (s <=? 59) && (0 <=? us) && (us <=? 999999).

(** The range check of [timezone(offset)]: strictly between -24h and 24h. *)
Definition check_utcoffset (off : Z) : bool :=
  (- us_per_day <? off) && (off <? us_per_day).

(** Microseconds from ordinal day 0 to the wall-clock reading of [dt]. *)
Definition local_us (dt : datetime) : Z :=
  (((ymd2ord (year dt) (month dt) (day dt) * 24 + hour dt) * 60 + minute dt) * 60
   + second dt) * us_per_second + microsecond dt.

(** The instant of an aware datetime on the UTC time line. *)
Definition utc_us (dt : datetime) (off : Z) : Z := local_us dt - off.

(** Exactly [n] decimal digits. *)
Fixpoint parse_digits (n : nat) (s : string) (acc : Z) : option (Z * string) :=
  match n with
  | O => Some (acc, s)
  | S n' =>
      match s with
      | EmptyString => None
      | String c r =>
          if Str.is_digit c then parse_digits n' r (acc * 10 + (Str.code c - 48))
          else None
      end
  end.

Definition expect (c : ascii) (s : string) : option string :=
  match s with
  | EmptyString => None
  | String c' r => if Ascii.eqb c c' then Some r else None
  end.

(** [YYYY-MM-DD], returning what follows it. *)
Definition parse_isoformat_date (s : string) : option (Z * Z * Z * string) :=
  '(y, r) ← parse_digits 4 s 0;
  r ← expect "-" r;
  '(m, r) ← parse_digits 2 r 0;
  r ← expect "-" r;
  '(d, r) ← parse_digits 2 r 0;
  Some (y, m, d, r).

(** [.fff] or [.ffffff], to the end of the string. *)
Definition parse_fraction (s : string) : option Z :=
  match String.length s with
  | 3%nat => '(f, _) ← parse_digits 3 s 0; Some (f * 1000)
  | 6%nat => '(f, _) ← parse_digits 6 s 0; Some f
  | _ => None
  end.

(** [HH[:MM[:SS[.fff[fff]]]]], to the end of the string. *)
Definition parse_hh_mm_ss_ff (s : string) : option (Z * Z * Z * Z) :=
  '(h, r) ← parse_digits 2 s 0;
  match r with
  | EmptyString => Some (h, 0, 0, 0)
  | String c r =>
      if negb (Ascii.eqb c ":") then None else
      '(mi, r) ← parse_digits 2 r 0;
      match r with
      | EmptyString => Some (h, mi, 0, 0)
      | String c r =>
          if negb (Ascii.eqb c ":") then None else
          '(sec, r) ← parse_digits 2 r 0;
          match r with
          | EmptyString => Some (h, mi, sec, 0)
          | String c r =>
              if negb (Ascii.eqb c ".") then None else
              us ← parse_fraction r; Some (h, mi, sec, us)
          end
      end
  end.

Definition is_sign (c : ascii) : bool := Ascii.eqb c "+" || Ascii.eqb c "-".

(** Cuts a time string at its first [+] or [-]: the clock part, and the sign
    with the offset text when there is one. *)
Fixpoint split_tz (s : string) : string * option (ascii * string) :=
  match s with
  | EmptyString => (EmptyString, None)
  | String c r =>
      if is_sign c then (EmptyString, Some (c, r))
      else let '(t, z) := split_tz r in (String c t, z)
  end.

(** The offset text [HH:MM], [HH:MM:SS] or [HH:MM:SS.ffffff], in
    microseconds; an offset of zero whole seconds is UTC, whatever its
    fraction; an offset outside (-24h, 24h) is refused by [timezone]. *)
Definition parse_tz (sign : ascii) (tzstr : string) : option Z :=
  let n := String.length tzstr in
  if negb (Nat.eqb n 5 || Nat.eqb n 8 || Nat.eqb n 15) then None else
  '(h, mi, sec, us) ← parse_hh_mm_ss_ff tzstr;
  let tzoffset := (h * 60 + mi) * 60 + sec in
  let td := if tzoffset =? 0 then 0 else tzoffset * us_per_second + us in
  let off := if Ascii.eqb sign "-" then - td else td in
  if check_utcoffset off then Some off else None.

Definition parse_isoformat_time (tstr : string)
    : option (Z * Z * Z * Z * option Z) :=
  let '(timestr, tz) := split_tz tstr in
  '(h, mi, sec, us) ← parse_hh_mm_ss_ff timestr;
  match tz with
  | None => Some (h, mi, sec, us, None)
  | Some (sign, tzstr) => off ← parse_tz sign tzstr; Some (h, mi, sec, us, Some off)
  end.

(** Drops the one character that separates date and time; the character may
    take several bytes. *)
Definition skip_char (s : string) : string :=
  match s with
  | EmptyString => EmptyString
  | String c r =>
      let b := Str.code c in
      if b <? 128 then r
      else if b <? 224 then Str.drop 1 r
      else if b <? 240 then Str.drop 2 r
      else Str.drop 3 r
  end.

Definition fromisoformat (date_string : string) : result datetime :=
  match parse_isoformat_date date_string with
  | None => Raise ValueError
  | Some (y, m, d, rest) =>
      let fields :=
        match rest with
        | EmptyString => Some (0, 0, 0, 0, None)
        | _ => parse_isoformat_time (skip_char rest)
        end in
      match fields with
      | None => Raise ValueError
      | Some (h, mi, sec, us, tz) =>
          if check_date_fields y m d && check_time_fields h mi sec us
          then Ok (mk_datetime y m d h mi sec us tz)
          else Raise ValueError
      end
  end.

(** [timedelta(days=n)]: at most 999999999 days either way. *)
Definition timedelta_days (n : Z) : result Z :=
  if (-999999999 <=? n) && (n <=? 999999999) then Ok (n * us_per_day)
  else Raise OverflowError.

(** [now - delta] for an aware UTC [now] given as microseconds from ordinal
    day 0: an [OverflowError] when the day leaves [1 .. MAXORDINAL]. *)
Definition sub_timedelta (now delta : Z) : result Z :=
  let t := now - delta in
  if (0 <? t / us_per_day) && (t / us_per_day <=? MAXORDINAL) then Ok t
  else Raise OverflowError.

(** [now - timedelta(days=n)]. *)
Definition sub_days (now : Z) (n : Z) : result Z :=
  let* delta := timedelta_days n in
  sub_timedelta now delta.

(** [dt > threshold] against an aware threshold: comparing a naive datetime
    with an aware one is a [TypeError]. *)
Definition gt_aware (dt : datetime) (threshold : Z) : result bool :=
  match tzinfo dt with
  | None => Raise TypeError
  | Some off => Ok (threshold <? utc_us dt off)
  end.

End Datetime.

(** ** millemail_pipeline.py: the two batch filters *)

Module Pipeline.

(** The loop of [filter_duplicates], with the list [filtered] built so far. *)
Fixpoint filter_duplicates_loop (profiles : list pydict)
    (existing_contacts : gset (pyval * pyval)) (filtered : list pydict)
    : list pydict :=
  match profiles with
  | [] => filtered
  | profile :: rest =>
      let company_domain := get profile "company_domain" in
      let email := get profile "email" in
      if truthy company_domain && truthy email
         && bool_decide ((company_domain, email) ∈ existing_contacts)
      then filter_duplicates_loop rest existing_contacts filtered
      else filter_duplicates_loop rest existing_contacts (filtered ++ [profile])
  end.

Definition filter_duplicates (profiles : list pydict)
    (existing_contacts : gset (pyval * pyval)) : list pydict :=
  filter_duplicates_loop profiles existing_contacts [].

(** [last_contact_dates.get(company_domain)]: the map has string keys. *)
Definition lookup_contact (last_contact_dates : gmap string pyval)
    (company_domain : pyval) : pyval :=
  match company_domain with
  | PStr d => default PNone (last_contact_dates !! d)
  | _ => PNone
  end.

(** The block "Check if company was contacted recently": [true] when the
    profile is still in its cooldown period. *)
Definition contacted_recently (last_contact : pyval) (cooldown_threshold : Z)
    : result bool :=
  if truthy last_contact then
    match last_contact with
    | PStr s =>
        let* last_contact_dt :=
          Datetime.fromisoformat (Str.replace1 "Z" "+00:00" s) in
        Datetime.gt_aware last_contact_dt cooldown_threshold
    | _ => Raise AttributeError
    end
  else Ok false.

Fixpoint filter_cooldown_loop (profiles : list pydict)
    (last_contact_dates : gmap string pyval) (cooldown_threshold : Z)
    (filtered : list pydict) : result (list pydict) :=
  match profiles with
  | [] => Ok filtered
  | profile :: rest =>
      let company_domain := get profile "company_domain" in
      if negb (truthy company_domain) then
        filter_cooldown_loop rest last_contact_dates cooldown_threshold
          (filtered ++ [profile])
      else
        let last_contact := lookup_contact last_contact_dates company_domain in
        let* recent := contacted_recently last_contact cooldown_threshold in
        if recent then
          filter_cooldown_loop rest last_contact_dates cooldown_threshold filtered
        else
          filter_cooldown_loop rest last_contact_dates cooldown_threshold
            (filtered ++ [profile])
  end.

(** [now] is the reading of [datetime.now(timezone.utc)], in microseconds from
    ordinal day 0. *)
Definition filter_cooldown (now : Z) (profiles : list pydict)
    (last_contact_dates : gmap string pyval) (cooldown_days : Z)
    : result (list pydict) :=
  let* cooldown_threshold := Datetime.sub_days now cooldown_days in
  filter_cooldown_loop profiles last_contact_dates cooldown_threshold [].

End Pipeline.

(** ** agents/email_enricher.py *)

Module Enricher.

(** What [requests.get] gives back. [HttpFailure]: the call raised, or
    [response.json()] did. [HttpResponse code data]: a JSON object came back
    with that status; [data] is its member of that name: [None] when the
    member is absent, [Some None] when it is [null] (or no object), else the
    object. JSON numbers are integers; [true] and [false] are the integers 1
    and 0, as in Python. *)
Inductive http_reply (A : Type) : Type :=
  | HttpFailure (msg : string)
  | HttpResponse (status_code : Z) (data : option (option A)).
Arguments HttpFailure {A} msg.
Arguments HttpResponse {A} status_code data.

(** The company object of the companies/find endpoint: its scalar members,
    and the member [metrics] (absent, [null] or an object of scalars). *)
Record company_data : Type := {
  cd_fields : pydict;
  cd_metrics : option (option pydict)
}.

(** The object of the domain-search endpoint: scalar members and the list
    [emails] when present. *)
Record domain_data : Type := {
  dd_fields : pydict;
  dd_emails : option (list pydict)
}.

(** The text generator either fails with a message or replies with a text. *)
Inductive claude_reply : Type :=
  | ClaudeFailure (msg : string)
  | ClaudeText (text : string).

(** An exception raised inside a [try] block is caught: [handler] runs. *)
Definition try_except {A} (body : result A) (handler : A) : A :=
  match body with
  | Ok a => a
  | Raise _ => handler
  end.

(** [data.get("data", {})] followed by a [.get] on it: [None] has no [get]. *)
Definition data_or_empty {A} (empty : A) (data : option (option A)) : result A :=
  match data with
  | None => Ok empty
  | Some None => Raise AttributeError
  | Some (Some d) => Ok d
  end.

Definition find_company_domain (company_name : pyval)
    (reply : http_reply domain_data) : pyval :=
  if negb (truthy company_name) then PNone else
  match reply with
  | HttpFailure _ => PNone
  | HttpResponse status_code data =>
      if negb (status_code =? 200) then PNone else
      match data with
      | Some (Some d) =>
          let domain := get (dd_fields d) "domain" in
          if truthy domain then domain else PNone
      | _ => PNone
      end
  end.

Definition LARGE_COMPANY_RANGES : gset pyval :=
  {[ PStr "501-1K"; PStr "1K-5K"; PStr "5K-10K"; PStr "10K-50K";
     PStr "50K-100K"; PStr "100K+";
     PStr "501-1000"; PStr "1001-5000"; PStr "5001-10000"; PStr "10001+" ]}.

(** The dict [get_company_size] returns; a key that some of its branches
    leave out is an [option]. *)
Record size_info : Type := {
  employee_range : pyval;
  is_large_company : bool;
  size_is_b2c : option bool;
  industry : pyval;
  description : option pyval
}.

(** [employee_range in LARGE_COMPANY_RANGES]. *)
Definition classify_employee_range (employee_range : pyval) : bool :=
  bool_decide (employee_range ∈ LARGE_COMPANY_RANGES).

Definition get_company_size (domain : pyval) (reply : http_reply company_data)
    : size_info :=
  let no_filter :=
    {| employee_range := PNone; is_large_company := false;
       size_is_b2c := Some false; industry := PNone; description := None |} in
  if negb (truthy domain) then no_filter else
  try_except
    match reply with
    | HttpFailure _ => Raise (OtherError "request failed")
    | HttpResponse status_code data =>
        if negb (status_code =? 200) then Ok no_filter else
        let* company_data :=
          data_or_empty {| cd_fields := ∅; cd_metrics := None |} data in
        let* metrics := data_or_empty ∅ (cd_metrics company_data) in
        let employee_range := get metrics "employees" in
        let is_large := classify_employee_range employee_range in
        let industry := get_or (cd_fields company_data) "industry" (PStr "") in
        let sector := get_or (cd_fields company_data) "sector" (PStr "") in
        let description :=
          get_or (cd_fields company_data) "description" (PStr "") in
        Ok {| employee_range := employee_range; is_large_company := is_large;
              size_is_b2c := None;
              industry := or_ (or_ industry sector) PNone;
              description := Some description |}
    end
    {| employee_range := PNone; is_large_company := false;
       size_is_b2c := None; industry := PNone; description := Some PNone |}.

Record b2c_check : Type := { is_b2c : bool; reason : string }.

(** [description[:500]]: an integer cannot be sliced. *)
Definition slice500 (description : pyval) : result string :=
  match description with
  | PStr s => Ok (Str.take_chars 500 s)
  | _ => Raise TypeError
  end.

Definition b2c_prompt (context : string) : string :=
  "Analyze this company and determine if it's B2B or B2C.

" +:+ context +:+ "

B2B = sells products/services to OTHER BUSINESSES (software, consulting, enterprise tools, professional services, etc.)
B2C = sells products/services directly to CONSUMERS (retail, restaurants, consumer apps, e-commerce to individuals, etc.)

Important: Some companies do BOTH (like Amazon, Apple). If the company primarily serves businesses OR has significant B2B operations, classify as B2B.

Respond with ONLY one word: B2B or B2C".

(** [generate] is the text generator; the result carries, next to the dict,
    the prompts that were sent to it. *)
Definition is_b2c_company (generate : string -> claude_reply)
    (company_name industry description : pyval)
    : result (b2c_check * list string) :=
  let context_parts := ["Company: " +:+ str company_name] in
  let context_parts :=
    if truthy industry
    then context_parts ++ ["Industry: " +:+ str industry]
    else context_parts in
  let* context_parts :=
    if truthy description then
      let* d := slice500 description in
      Ok (context_parts ++ ["Description: " +:+ d])
    else Ok context_parts in
  let context := Str.join (String (Str.chr 10) EmptyString) context_parts in
  if negb (truthy industry) && negb (truthy description) then
    Ok ({| is_b2c := false; reason := "No data available" |}, [])
  else
    let prompt := b2c_prompt context in
    match generate prompt with
    | ClaudeText text =>
        let response := Str.upper (Str.strip text) in
        Ok ({| is_b2c := Str.contains "B2C" response;
               reason := "AI classification" |}, [prompt])
    | ClaudeFailure msg =>
        Ok ({| is_b2c := false; reason := "Error: " +:+ msg |}, [prompt])
    end.

(** The dict [find_decision_maker] returns. *)
Record contact : Type := {
  c_first_name : pyval; c_last_name : pyval; c_email : pyval;
  c_title : pyval; c_confidence : pyval
}.

Definition find_decision_maker (company_domain : pyval)
    (reply : http_reply domain_data) : option contact :=
  if negb (truthy company_domain) then None else
  match reply with
  | HttpFailure _ => None
  | HttpResponse status_code data =>
      if negb (status_code =? 200) then None else
      match data with
      | Some (Some d) =>
          match dd_emails d with
          | Some (c :: _) =>
              Some {| c_first_name := get_or c "first_name" (PStr "");
                      c_last_name := get_or c "last_name" (PStr "");
                      c_email := get c "value";
                      c_title := get_or c "position" (PStr "Decision Maker");
                      c_confidence := get_or c "confidence" (PInt 0) |}
          | _ => None
          end
      | _ => None
      end
  end.

(** The dict [verify_email] returns; the early returns have no [result]. *)
Record verification : Type := {
  status : pyval;
  score : pyval;
  verified : bool;
  result_ : option pyval
}.

Definition verify_email (email : pyval) (reply : http_reply pydict)
    : verification :=
  if negb (truthy email) then
    {| status := PStr "invalid"; score := PInt 0; verified := false;
       result_ := None |}
  else
    let unknown :=
      {| status := PStr "unknown"; score := PInt 0; verified := false;
         result_ := None |} in
    try_except
      match reply with
      | HttpFailure _ => Raise (OtherError "request failed")
      | HttpResponse status_code data =>
          if negb (status_code =? 200) then Ok unknown else
          let* result := data_or_empty ∅ data in
          let status := get_or result "status" (PStr "unknown") in
          let score := get_or result "score" (PInt 0) in
          let* verified :=
            if eq_str status "valid" then Ok true
            else if eq_str status "accept_all" then ge_int score 80
            else Ok false in
          Ok {| status := status; score := score; verified := verified;
                result_ := Some (get_or result "result" (PStr "unknown")) |}
      end
      unknown.

End Enricher.

(** ** agents/job_scraper.py *)

Module JobScraper.

(** An item of the scraper's dataset: a list of jobs, one job, or something
    else. *)
Inductive item : Type :=
  | ItemList (jobs : list pydict)
  | ItemDict (job : pydict)
  | ItemOther.

(** [_scrape_single_keyword]: [run] is what the call of the actor and the
    reading of its dataset give; any exception there gives no jobs. *)
Definition _scrape_single_keyword (run : result (list item)) : list pydict :=
  match run with
  | Raise _ => []
  | Ok items =>
      fold_left
        (fun jobs it =>
           match it with
           | ItemList l => jobs ++ l
           | ItemDict d => jobs ++ [d]
           | ItemOther => jobs
           end) items []
  end.

Definition default_keywords : list string :=
  [ "Sales"; "Commercial"; "Business Developer"; "Growth"; "Marketing";
    "RevOps"; "Revenue Operations"; "Demand Generation" ].

Definition search_url (keyword location geo_id : string) : string :=
  "https://www.linkedin.com/jobs/search/"
  +:+ "?keywords=" +:+ Str.replace1 " " "+" keyword
  +:+ "&location=" +:+ Str.replace1 " " "+" location
  +:+ "&geoId=" +:+ geo_id
  +:+ "&f_TPR=r604800"
  +:+ "&start=0".

(** [job["source_keyword"] = keyword] for each job of one search. *)
Definition tag_jobs (keyword : string) (jobs : list pydict) : list pydict :=
  map (fun job => <["source_keyword" := PStr keyword]> job) jobs.

(** The loop over the keywords; [scrape url] is the outcome of the search at
    that address. *)
Fixpoint search_loop (scrape : string -> result (list item))
    (url_of : string -> string) (keywords : list string)
    (all_jobs : list pydict) : list pydict :=
  match keywords with
  | [] => all_jobs
  | keyword :: rest =>
      let jobs := _scrape_single_keyword (scrape (url_of keyword)) in
      let jobs := tag_jobs keyword jobs in
      search_loop scrape url_of rest
        (match jobs with [] => all_jobs | _ => all_jobs ++ jobs end)
  end.

(** The block "DEDUPLICATE by company name": the first job of each company is
    kept; a job without a company name is left out. *)
Fixpoint dedupe_loop (all_jobs : list pydict) (seen_companies : gset pyval)
    (unique_jobs : list pydict) : list pydict :=
  match all_jobs with
  | [] => unique_jobs
  | job :: rest =>
      let company_name := get_or job "company_name" (PStr "") in
      if truthy company_name
         && negb (bool_decide (company_name ∈ seen_companies))
      then dedupe_loop rest ({[company_name]} ∪ seen_companies)
             (unique_jobs ++ [job])
      else dedupe_loop rest seen_companies unique_jobs
  end.

Definition scrape_jobs (scrape : string -> result (list item)) (limit : Z)
    (keywords : option (list string)) (location geo_id : string)
    : list pydict :=
  let search_keywords := default default_keywords keywords in
  let all_jobs :=
    search_loop scrape (fun keyword => search_url keyword location geo_id)
      search_keywords [] in
  let unique_jobs := dedupe_loop all_jobs ∅ [] in
  slice_to unique_jobs limit.

End JobScraper.

(** ** utils/millemail_supabase.py *)

Module Supabase.

(** [get_existing_contacts], from the rows the data store returns; a failed
    query gives the empty set. *)
Definition get_existing_contacts (rows : result (list pydict))
    : gset (pyval * pyval) :=
  match rows with
  | Raise _ => ∅
  | Ok data =>
      list_to_set
        (omap (fun row =>
                 if truthy (get row "company_domain") && truthy (get row "email")
                 then Some (get row "company_domain", get row "email")
                 else None) data)
  end.

(** The loop of [get_last_contact_dates] over the rows, most recent first:
    the first row of a domain sets its date. [row["created_at"]] on a row
    without that key is a [KeyError]. *)
Fixpoint last_contacts_loop (rows : list pydict)
    (last_contacts : gmap pyval pyval) : result (gmap pyval pyval) :=
  match rows with
  | [] => Ok last_contacts
  | row :: rest =>
      let domain := get row "company_domain" in
      if truthy domain && negb (bool_decide (domain ∈ dom last_contacts))
      then
        match row !! "created_at" with
        | None => Raise (OtherError "KeyError")
        | Some created_at =>
            last_contacts_loop rest (<[domain := created_at]> last_contacts)
        end
      else last_contacts_loop rest last_contacts
  end.

(** [get_last_contact_dates], from the rows the data store returns for the
    contacted statuses; any exception gives the empty dict. *)
Definition get_last_contact_dates (rows : result (list pydict))
    : gmap pyval pyval :=
  Enricher.try_except
    (let* data := rows in last_contacts_loop data ∅)
    ∅.

(** The stamping of one prospect in [insert_prospects]: [created_at] and
    [status] are set only when the key is not there. *)
Definition stamp (now_iso : string) (prospect : pydict) : pydict :=
  let prospect :=
    if bool_decide ("created_at" ∈ dom prospect) then prospect
    else <["created_at" := PStr now_iso]> prospect in
  if bool_decide ("status" ∈ dom prospect) then prospect
  else <["status" := PStr "ready"]> prospect.

(** [insert_prospects]: [clock i] is what [datetime.now().isoformat()] reads
    when prospect [i] is stamped, [insert] the data store's answer to the
    insertion (the rows it stored). Returns the number inserted and the
    prospects as the call leaves them. *)
Definition insert_prospects (clock : nat -> string)
    (insert : list pydict -> result (list pydict)) (prospects : list pydict)
    : Z * list pydict :=
  match prospects with
  | [] => (0, prospects)
  | _ =>
      let stamped := imap (fun i prospect => stamp (clock i) prospect) prospects in
      match insert stamped with
      | Ok data => (Z.of_nat (length data), stamped)
      | Raise _ => (0, stamped)
      end
  end.

End Supabase.

(** ** agents/campaign_manager.py *)

Module Campaign.

(** A value of the campaign record: a scalar, or the nested dict of custom
    fields. *)
Inductive field : Type :=
  | Scalar (v : pyval)
  | Fields (d : pydict).

Definition custom_field_mappings : list (string * string) :=
  [ ("subject_line", "subject_line"); ("email_1", "email_1");
    ("email_1_ps", "email_1_ps"); ("email_2", "email_2");
    ("email_3", "email_3") ].

(** [smartlead_lead["custom_fields"][k] = v]. *)
Definition set_custom_field (k : string) (v : pyval)
    (smartlead_lead : gmap string field) : gmap string field :=
  alter (fun f => match f with
                  | Fields d => Fields (<[k := v]> d)
                  | Scalar x => Scalar x
                  end) "custom_fields" smartlead_lead.

Definition _transform_lead (lead : pydict) : gmap string field :=
  let smartlead_lead : gmap string field :=
    <["email" := Scalar (get_or lead "email" (PStr ""))]>
    (<["first_name" := Scalar (get_or lead "first_name" (PStr ""))]>
    (<["last_name" := Scalar (get_or lead "last_name" (PStr ""))]>
    (<["company_name" := Scalar (get_or lead "company_name" (PStr ""))]>
    (<["custom_fields" := Fields ∅]> ∅)))) in
  fold_left
    (fun smartlead_lead '(lead_field, smartlead_field) =>
       let value := get lead lead_field in
       if truthy value then set_custom_field smartlead_field value smartlead_lead
       else smartlead_lead)
    custom_field_mappings smartlead_lead.

(** The statistics [add_leads_to_campaign] returns. *)
Record stats : Type := {
  total : Z;
  added : Z;
  duplicates : Z;
  invalid : Z
}.

(** The JSON body of one request. *)
Record request : Type := {
  lead_list : list (gmap string field);
  ignore_global_block_list : bool;
  ignore_unsubscribe_list : bool;
  ignore_duplicate_leads_in_other_campaign : bool
}.

(** What one [requests.post] leads to. [BatchFailure]: the call raised,
    [raise_for_status] raised, or the body was no JSON. [BatchResult]: the
    JSON object of the response. *)
Inductive batch_reply : Type :=
  | BatchFailure (msg : string)
  | BatchResult (result : pydict).

(** [n += v]: adding [None] or a string to an integer is a [TypeError]. *)
Definition add_int (n : Z) (v : pyval) : result Z :=
  match v with
  | PInt z => Ok (n + z)
  | _ => Raise TypeError
  end.

Definition batch_size : nat := 100.

(** [range(0, n, batch_size)]. *)
Definition batch_starts (n : nat) : list nat :=
  (fun k => (k * batch_size)%nat)
    <$> seq 0 ((n + (batch_size - 1)) / batch_size)%nat.

(** [smartlead_leads[i : i + batch_size]] for every start [i]. *)
Definition batches {A} (smartlead_leads : list A) : list (list A) :=
  (fun i => take batch_size (drop i smartlead_leads))
    <$> batch_starts (length smartlead_leads).

(** The body of the loop over the batches: the statistics after one
    request. An exception inside the [try] leaves the statistics as they are
    at that point. *)
Definition record_batch (post : request -> batch_reply)
    (ignore_duplicates : bool) (total_stats : stats)
    (batch : list (gmap string field)) : stats :=
  let payload :=
    {| lead_list := batch;
       ignore_global_block_list := false;
       ignore_unsubscribe_list := false;
       ignore_duplicate_leads_in_other_campaign := ignore_duplicates |} in
  match post payload with
  | BatchFailure _ => total_stats
  | BatchResult result =>
      let st1 :=
        {| total := total total_stats + Z.of_nat (length batch);
           added := added total_stats;
           duplicates := duplicates total_stats;
           invalid := invalid total_stats |} in
      match add_int (added st1) (get_or result "total_leads" (PInt 0)) with
      | Raise _ => st1
      | Ok a =>
          let st2 :=
            {| total := total st1; added := a;
               duplicates := duplicates st1; invalid := invalid st1 |} in
          match add_int (duplicates st2)
                  (get_or result "already_added_to_campaign" (PInt 0)) with
          | Raise _ => st2
          | Ok d =>
              let st3 :=
                {| total := total st2; added := added st2;
                   duplicates := d; invalid := invalid st2 |} in
              match add_int (invalid st3)
                      (get_or result "invalid_email_count" (PInt 0)) with
              | Raise _ => st3
              | Ok i =>
                  {| total := total st3; added := added st3;
                     duplicates := duplicates st3; invalid := i |}
              end
          end
      end
  end.

Definition add_leads_to_campaign (post : request -> batch_reply)
    (leads : list pydict) (ignore_duplicates : bool) : stats :=
  let zero := {| total := 0; added := 0; duplicates := 0; invalid := 0 |} in
  match leads with
  | [] => zero
  | _ =>
      let smartlead_leads := map _transform_lead leads in
      fold_left (record_batch post ignore_duplicates)
        (batches smartlead_leads) zero
  end.

(** [record["custom_fields"]], the empty dict when it is no dict. *)
Definition custom_fields (record : gmap string field) : pydict :=
  match record !! "custom_fields" with
  | Some (Fields d) => d
  | _ => ∅
  end.

End Campaign.

(** ** agents/linkedin_profile_scraper.py *)

Module Scraper.

(** The set literal, entry by entry as written (three entries occur twice);
    [is_big_corporate] only asks whether some entry matches. *)
Definition BIG_CORPORATES_FALLBACK : list string :=
  [ "volkswagen"; "coca-cola"; "renault"; "carrefour"; "amazon"; "apple";
    "google"; "microsoft"; "facebook"; "meta"; "ibm"; "oracle"; "sap";
    "salesforce"; "auchan"; "leclerc"; "intermarché"; "système u"; "casino";
    "monoprix"; "peugeot"; "citroën"; "nissan"; "toyota"; "bmw"; "mercedes";
    "audi"; "total"; "engie"; "edf"; "orange"; "bouygues"; "vinci"; "veolia";
    "lvmh"; "l'oréal"; "danone"; "lactalis"; "pernod ricard";
    "schneider electric"; "airbus"; "thales"; "safran"; "michelin";
    "saint-gobain"; "legrand"; "bnp paribas"; "société générale";
    "crédit agricole"; "axa"; "allianz"; "adidas"; "nike"; "puma";
    "decathlon"; "fnac"; "darty";
    "capgemini"; "hewlett packard"; "hpe"; "air france"; "worldline"; "slack";
    "jll"; "diageo"; "thales"; "ibm"; "sap"; "stripe"; "servicenow";
    "snowflake"; "uipath"; "cloudera" ].

(** [company_name.lower()]: an integer has no such method. *)
Definition lower_of (company_name : pyval) : result string :=
  match company_name with
  | PStr s => Ok (Str.lower s)
  | _ => Raise AttributeError
  end.

Definition is_big_corporate (company_name : pyval) : result bool :=
  if negb (truthy company_name) then Ok false else
  let* company_lower := lower_of company_name in
  Ok (existsb (fun corp => Str.contains corp company_lower)
        BIG_CORPORATES_FALLBACK).

(** A scraped profile: its scalar members, and the member
    [currentCompany] (absent, [null] or an object of scalars). *)
Record profile : Type := {
  pf_fields : pydict;
  pf_currentCompany : option (option pydict)
}.

(** [profile.get("companyName") or
     profile.get("currentCompany", {}).get("name", "")]: the second operand is
    read only when the first is falsy, and a [null] company has no [get]. *)
Definition profile_company (p : profile) : result pyval :=
  let name := get (pf_fields p) "companyName" in
  if truthy name then Ok name
  else
    let* current := Enricher.data_or_empty ∅ (pf_currentCompany p) in
    Ok (get_or current "name" (PStr "")).

(** The two calls [filter_profiles] makes on the enricher, by argument. *)
Record enricher : Type := {
  en_company_search : pyval -> Enricher.http_reply Enricher.domain_data;
  en_company_find : pyval -> Enricher.http_reply Enricher.company_data
}.

(** The counters [filter_profiles] prints. *)
Record filter_stats : Type := {
  big_corporate_list : Z;
  big_corporate_api : Z;
  no_company : Z;
  passed : Z
}.

(** One turn of the loop of [filter_profiles]. *)
Definition filter_profile (email_enricher : option enricher) (p : profile)
    (state : list profile * filter_stats)
    : result (list profile * filter_stats) :=
  let '(filtered, stats) := state in
  let* company_name := profile_company p in
  if negb (truthy company_name) then
    Ok (filtered,
        {| big_corporate_list := big_corporate_list stats;
           big_corporate_api := big_corporate_api stats;
           no_company := no_company stats + 1;
           passed := passed stats |})
  else
  let* big := is_big_corporate company_name in
  if big then
    Ok (filtered,
        {| big_corporate_list := big_corporate_list stats + 1;
           big_corporate_api := big_corporate_api stats;
           no_company := no_company stats;
           passed := passed stats |})
  else
  let large :=
    match email_enricher with
    | None => false
    | Some en =>
        let domain :=
          Enricher.find_company_domain company_name
            (en_company_search en company_name) in
        if truthy domain then
          Enricher.is_large_company
            (Enricher.get_company_size domain (en_company_find en domain))
        else false
    end in
  if large then
    Ok (filtered,
        {| big_corporate_list := big_corporate_list stats;
           big_corporate_api := big_corporate_api stats + 1;
           no_company := no_company stats;
           passed := passed stats |})
  else
    Ok (filtered ++ [p],
        {| big_corporate_list := big_corporate_list stats;
           big_corporate_api := big_corporate_api stats;
           no_company := no_company stats;
           passed := passed stats + 1 |}).

Fixpoint filter_profiles_loop (email_enricher : option enricher)
    (profiles : list profile) (state : list profile * filter_stats)
    : result (list profile * filter_stats) :=
  match profiles with
  | [] => Ok state
  | p :: rest =>
      let* state := filter_profile email_enricher p state in
      filter_profiles_loop email_enricher rest state
  end.

(** [filter_profiles]: the kept profiles and the counters it prints. *)
Definition filter_profiles (email_enricher : option enricher)
    (profiles : list profile) : result (list profile * filter_stats) :=
  filter_profiles_loop email_enricher profiles
    ([], {| big_corporate_list := 0; big_corporate_api := 0;
            no_company := 0; passed := 0 |}).

(** The lead [transform_for_pipeline] makes of one profile. *)
Definition profile_to_lead (p : profile) : result pydict :=
  let* company_name := profile_company p in
  let f := pf_fields p in
  Ok (<["company_name" := company_name]>
     (<["company_domain" := PNone]>
     (<["job_title" := or_ (get f "headline") (get_or f "jobTitle" (PStr ""))]>
     (<["job_url" :=
          or_ (get f "profileUrl") (get_or f "publicIdentifier" (PStr ""))]>
     (<["first_name" := get_or f "firstName" (PStr "")]>
     (<["last_name" := get_or f "lastName" (PStr "")]>
     (<["linkedin_url" := get_or f "profileUrl" (PStr "")]>
     (<["location" :=
          or_ (get f "geoLocationName") (get_or f "geoCountryName" (PStr ""))]>
     (<["source" := PStr "linkedin_profile_scraper"]>
     (<["source_keyword" := PStr "VP Sales"]> ∅)))))))))).

Fixpoint transform_for_pipeline (profiles : list profile)
    : result (list pydict) :=
  match profiles with
  | [] => Ok []
  | p :: rest =>
      let* lead := profile_to_lead p in
      let* leads := transform_for_pipeline rest in
      Ok (lead :: leads)
  end.

End Scraper.

(** ** agents/personalizer.py *)

Module Personalizer.

(** The keys of [SEQUENCES]; [random.choice] picks one of them. *)
Inductive version_key : Type :=
  | version_a
  | version_b
  | version_c
  | version_d.

(** One entry of [SEQUENCES]; [email_1] is an f-string that starts with the
    greeting. *)
Record sequence : Type := {
  name : string;
  subject_line : string;
  email_1 : string;
  email_2 : string;
  email_3 : string
}.

Definition SEQUENCES (greeting : string) (version : version_key) : sequence :=
  match version with
  | version_a =>
      {| name := "Problem-First";
         subject_line := "infra + deals perdus?";
         email_1 := greeting +:+ "95% des boîtes qui scaleup leur outbound utilisent des infras partagées (Lemlist, Instantly). Résultat : scores spam partagés, taux d'inbox qui chutent.

On construit des infras dédiées que vous possédez. Scraping de leads + 1000 emails/jour en inbox. Autopilot, RGPD compliant.

Je peux vous envoyer l'audit gratuit qu'on utilise pour identifier où vous perdez des deals ?";
         email_2 := "Lemlist/Instantly = infrastructure partagée = vous héritez des scores spam de 500+ autres boîtes.

On construit la vôtre. Vous possédez tout. Setup 24h.

L'audit ?";
         email_3 := "Dernier message.

Si vos taux de réponse outbound sont en dessous de 10%, c'est probablement l'infra.

Audit gratuit disponible si ça vous intéresse." |}
  | version_b =>
      {| name := "Direct ROI";
         subject_line := "infra + leads auto?";
         email_1 := greeting +:+ "Vous recrutiez donc vous scalez.

Si je pouvais mettre 10 RDV qualifiés en plus sur votre agenda le mois prochain en autopilot, comme pour une boîte comme la vôtre, ça vaudrait 5 min de discussion ?

Infra email dédiée (vous êtes propriétaire) + scraping de leads + séquences automatisées. Setup en 24h, 1000 emails/jour en inbox, RGPD compliant.

Intéressé ?";
         email_2 := "Une boîte comme la vôtre génère 12-15 RDV/mois avec notre infra depuis 3 mois.

Même setup, même process, même résultats.

5 min ?";
         email_3 := "Pas de souci si le timing n'est pas bon.

Quand vous voudrez scaler l'outbound sans brûler votre réputation, on sera là." |}
  | version_c =>
      {| name := "Authority";
         subject_line := "95% inbox rate?";
         email_1 := greeting +:+ "La plupart des agences cold email utilisent des infras partagées. On fait l'inverse : infra dédiée que VOUS possédez.

Résultats clients :
- 95% taux d'inbox (vs 40-60% en shared)
- 1000 emails/jour en autopilot
- Leads scrapés et qualifiés automatiquement
- Setup 24h, RGPD native

On peut parler 5 min de comment ça marche pour votre cas ?";
         email_2 := "La différence entre 40% et 95% de taux d'inbox sur 1000 emails/jour = 550 prospects de plus qui voient votre message.

Par jour.

Ça change quoi pour vous ?";
         email_3 := "Dernière tentative.

Setup en 24h, vous possédez l'infra, leads en autopilot, RGPD compliant.

Ou vous continuez avec votre setup actuel. Les deux fonctionnent." |}
  | version_d =>
      {| name := "Pattern Interrupt";
         subject_line := "lemlist ou instantly?";
         email_1 := greeting +:+ "Question rapide : vous utilisez Lemlist, Instantly ou autre chose pour votre outbound ?

Si oui, vous partagez votre réputation d'envoi avec des centaines d'autres boîtes. Leurs problèmes de spam = vos problèmes de spam.

On monte des infras que vous possédez à 100%. Leads en autopilot, 1000 emails/jour qui atterrissent en inbox, RGPD compliant, setup 24h.

Curieux de voir la différence ?";
         email_2 := "Infra partagée = vous payez pour brûler votre réputation d'envoi.

Infra dédiée = vous payez pour la construire.

Quelle approche fait plus de sens pour scaler ?";
         email_3 := "Je ferme la boucle ici.

Si vous voulez voir comment fonctionne une vraie infra dédiée vs. du shared, faites-moi signe.

Sinon bonne continuation." |}
  end.

(** [generate_millemail_sequence]; [choice] is what [random.choice] returns. *)
Definition generate_millemail_sequence (choice : version_key) (lead : pydict)
    : pydict :=
  let first_name := get_or lead "first_name" (PStr "") in
  let greeting :=
    if truthy first_name
    then str first_name +:+ "," +:+ String (Str.chr 10) (String (Str.chr 10) "")
    else "" in
  let selected := SEQUENCES greeting choice in
  <["subject_line" := PStr (subject_line selected)]>
  (<["email_1" := PStr (email_1 selected)]>
  (<["email_1_ps" := PStr ""]>
  (<["email_2" := PStr (email_2 selected)]>
  (<["email_3" := PStr (email_3 selected)]> ∅)))).

End Personalizer.

(** ** millemail_pipeline.py: the enrichment stage of [main] *)

Module Main.
Import Enricher.

(** The collaborators' replies, by the argument of the call. *)
Record world : Type := {
  company_search : pyval -> http_reply domain_data;
  company_find : pyval -> http_reply company_data;
  text_generator : string -> claude_reply;
  domain_search : pyval -> http_reply domain_data;
  email_verifier : pyval -> http_reply pydict
}.

Record enrich_state : Type := {
  enriched_leads : list pydict;
  b2c_skipped : Z;
  no_email_found : Z
}.

(** One turn of the loop "Enriching emails with Hunter". *)
Definition enrich_lead (w : world) (lead : pydict) (st : enrich_state)
    : result enrich_state :=
  let skip_no_email :=
    {| enriched_leads := enriched_leads st; b2c_skipped := b2c_skipped st;
       no_email_found := no_email_found st + 1 |} in
  let company_name := get lead "company_name" in
  let domain := find_company_domain company_name (company_search w company_name) in
  if negb (truthy domain) then Ok skip_no_email else
  let lead := <["company_domain" := domain]> lead in
  let size_info := get_company_size domain (company_find w domain) in
  let industry := industry size_info in
  let description := default PNone (description size_info) in
  let* '(b2c_check, _) :=
    is_b2c_company (text_generator w) company_name industry description in
  if is_b2c b2c_check then
    Ok {| enriched_leads := enriched_leads st;
          b2c_skipped := b2c_skipped st + 1;
          no_email_found := no_email_found st |}
  else
  let lead := <["company_type" := PStr "b2b"]> lead in
  match find_decision_maker domain (domain_search w domain) with
  | None => Ok skip_no_email
  | Some contact =>
      let lead := <["email" := c_email contact]> lead in
      let lead := <["first_name" := c_first_name contact]> lead in
      let lead := <["last_name" := c_last_name contact]> lead in
      let lead := <["title" := c_title contact]> lead in
      let verification :=
        verify_email (c_email contact) (email_verifier w (c_email contact)) in
      if negb (verified verification) then Ok st else
      let lead := <["verification_status" := status verification]> lead in
      let lead := <["verification_score" := score verification]> lead in
      Ok {| enriched_leads := enriched_leads st ++ [lead];
            b2c_skipped := b2c_skipped st;
            no_email_found := no_email_found st |}
  end.

Fixpoint enrich_loop (w : world) (leads : list pydict) (st : enrich_state)
    : result enrich_state :=
  match leads with
  | [] => Ok st
  | lead :: rest =>
      let* st := enrich_lead w lead st in
      enrich_loop w rest st
  end.

Definition enrich (w : world) (leads : list pydict) : result enrich_state :=
  enrich_loop w leads
    {| enriched_leads := []; b2c_skipped := 0; no_email_found := 0 |}.

(** Step 10 of [main]: the fields of the generated sequence are written
    into the lead. *)
Definition attach_sequence (sequence : pydict) (lead : pydict) : pydict :=
  <["email_3" := get sequence "email_3"]>
  (<["email_2" := get sequence "email_2"]>
  (<["email_1_ps" := get sequence "email_1_ps"]>
  (<["email_1" := get sequence "email_1"]>
  (<["subject_line" := get sequence "subject_line"]> lead)))).

(** Step 10 for a batch; [choice i] is the version drawn for lead [i]. *)
Definition attach_sequences (choice : nat -> Personalizer.version_key)
    (ready_leads : list pydict) : list pydict :=
  imap (fun i lead =>
          attach_sequence
            (Personalizer.generate_millemail_sequence (choice i) lead) lead)
    ready_leads.

(** The address [main] searches for a keyword. *)
Definition main_search_url (keyword : string) : string :=
  "https://www.linkedin.com/jobs/search/"
  +:+ "?keywords=" +:+ Str.replace1 " " "+" keyword
  +:+ "&location=France"
  +:+ "&geoId=105015875"
  +:+ "&start=0".

(** The lead made of a job listing in step 5 of [main]. *)
Definition job_to_lead (job : pydict) : pydict :=
  <["company_name" := get job "company_name"]>
  (<["job_title" := get job "job_title"]>
  (<["job_url" := get job "job_url"]>
  (<["location" := get job "location"]>
  (<["source_keyword" := get job "source_keyword"]>
  (<["posted_date" := get job "posted_date"]> ∅))))).

(** Steps 3 to 5 of [main]: search every keyword, keep one job per company,
    and turn the first [count * len(keywords)] jobs into leads. [None] is the
    exit "No job listings found". *)
Definition extract_leads (scrape : string -> result (list JobScraper.item))
    (count : Z) (keywords : list string) : option (list pydict) :=
  let all_jobs := JobScraper.search_loop scrape main_search_url keywords [] in
  let unique_jobs := JobScraper.dedupe_loop all_jobs ∅ [] in
  match unique_jobs with
  | [] => None
  | _ =>
      Some (map job_to_lead
              (slice_to unique_jobs (count * Z.of_nat (length keywords))))
  end.

End Main.

(** * Vocabulary of the properties *)

Import Pipeline.

(** A lead carries an identity pair when both halves are present. *)
Definition has_identity (lead : pydict) : Prop :=
  truthy (get lead "company_domain") = true ∧ truthy (get lead "email") = true.

(** The lead is already known: it has an identity pair, and the pair is in
    the set of existing contacts. *)
Definition known_contact (S : gset (pyval * pyval)) (lead : pydict) : Prop :=
  has_identity lead ∧ (get lead "company_domain", get lead "email") ∈ S.

#[local] Instance has_identity_dec lead : Decision (has_identity lead).
Proof. unfold has_identity. apply _. Defined.

#[local] Instance known_contact_dec S lead : Decision (known_contact S lead).
Proof. unfold known_contact. apply _. Defined.

(** What one turn of the loop of [filter_cooldown] decides for a profile:
    [Ok true] to keep it, [Ok false] to drop it. *)
Definition cooldown_keeps (last_contact_dates : gmap string pyval)
    (cooldown_threshold : Z) (profile : pydict) : result bool :=
  let company_domain := get profile "company_domain" in
  if negb (truthy company_domain) then Ok true
  else
    let* recent :=
      contacted_recently (lookup_contact last_contact_dates company_domain)
        cooldown_threshold in
    Ok (negb recent).

(** The same reading of the clock, with another time zone attached. *)
Definition with_tzinfo (dt : Datetime.datetime) (tz : option Z)
    : Datetime.datetime :=
  Datetime.mk_datetime (Datetime.year dt) (Datetime.month dt) (Datetime.day dt)
    (Datetime.hour dt) (Datetime.minute dt) (Datetime.second dt)
    (Datetime.microsecond dt) tz.

(** Midnight UTC of a day, as a reading of the clock. *)
Definition utc_midnight (y m d : Z) : Z :=
  Datetime.local_us (Datetime.mk_datetime y m d 0 0 0 0 (Some 0)).

(** One turn of the loop of [_transform_lead] over [custom_field_mappings]. *)
Definition add_custom (lead : pydict) (rec : gmap string Campaign.field)
    (mapping : string * string) : gmap string Campaign.field :=
  let '(lead_field, smartlead_field) := mapping in
  if truthy (get lead lead_field)
  then Campaign.set_custom_field smartlead_field (get lead lead_field) rec
  else rec.

(** The five fields of an e-mail sequence. *)
Definition sequence_fields : list string :=
  [ "subject_line"; "email_1"; "email_1_ps"; "email_2"; "email_3" ].

(** A value an annotation [str] admits, or [None]: no integer. *)
Definition is_text (v : pyval) : Prop :=
  match v with
  | PInt _ => False
  | _ => True
  end.


(** [job.get("company_name", "")], the key of the company deduplication. *)
Definition company_of (job : pydict) : pyval :=
  get_or job "company_name" (PStr "").

(** The number of leads of a batch that a request counts: all of them when
    the platform answers with a result, none when the request fails. *)
Definition counted (post : Campaign.request → Campaign.batch_reply)
    (ignore_duplicates : bool) (batch : list (gmap string Campaign.field))
    : Z :=
  match post {| Campaign.lead_list := batch;
                Campaign.ignore_global_block_list := false;
                Campaign.ignore_unsubscribe_list := false;
                Campaign.ignore_duplicate_leads_in_other_campaign :=
                  ignore_duplicates |} with
  | Campaign.BatchFailure _ => 0
  | Campaign.BatchResult _ => Z.of_nat (length batch)
  end.

(** The fields the enrichment stage of [main] writes. *)
Definition enrichment_fields : list string :=
  [ "company_domain"; "company_type"; "email"; "first_name"; "last_name";
    "title"; "verification_status"; "verification_score" ].

(** [lead'] is an enriched form of [lead]: it has a domain and an e-mail
    address, is marked B2B, records a positive verification, and agrees with
    [lead] on every field that enrichment does not write. *)
Definition enriched_from (lead lead' : pydict) : Prop :=
  truthy (get lead' "company_domain") = true
  ∧ truthy (get lead' "email") = true
  ∧ get lead' "company_type" = PStr "b2b"
  ∧ (get lead' "verification_status" = PStr "valid"
     ∨ (get lead' "verification_status" = PStr "accept_all"
        ∧ ∃ z, get lead' "verification_score" = PInt z ∧ 80 ≤ z))
  ∧ ∀ k, k ∉ enrichment_fields → lead' !! k = lead !! k.

(** A profile that passes the list check: it has a company name, and the
    name holds no entry of the list of known large brands. *)
Definition passes_list (p : Scraper.profile) : Prop :=
  ∃ name, Scraper.profile_company p = Ok name
          ∧ truthy name = true
          ∧ Scraper.is_big_corporate name = Ok false.



(** The text begins with four decimal digits, as the year of an ISO date. *)
Definition begins_with_year (s : string) : bool :=
  match s with
  | String a (String b (String c (String d _))) =>
      Str.is_digit a && Str.is_digit b && Str.is_digit c && Str.is_digit d
  | _ => false
  end.

(** * Properties *)

(** ** Deduplication filter *)

Lemma filter_duplicates_loop_filter profiles S filtered :
  filter_duplicates_loop profiles S filtered
  = filtered ++ filter (λ lead, ¬ known_contact S lead) profiles.
Proof.
  revert filtered. induction profiles as [|p rest IH]; intros filtered; simpl.
  - by rewrite app_nil_r.
  - destruct (truthy (get p "company_domain")) eqn:Hd;
    destruct (truthy (get p "email")) eqn:He; simpl;
    try (rewrite IH, filter_cons_True, <- app_assoc;
         [done | unfold known_contact, has_identity; intros [[? ?] _]; congruence]).
    case_bool_decide as Hin.
    + rewrite IH, filter_cons_False; [done|].
      intros Hn. apply Hn. by repeat split.
    + rewrite IH, filter_cons_True, <- app_assoc; [done|].
      by intros [_ ?].
Qed.

Lemma filter_duplicates_filter profiles S :
  filter_duplicates profiles S
  = filter (λ lead, ¬ known_contact S lead) profiles.
Proof. unfold filter_duplicates. by rewrite filter_duplicates_loop_filter. Qed.

(** C2. [filter_duplicates] returns the input with exactly the known contacts
    left out, in the input's order and each survivor as it was; a lead is a
    known contact only when both its domain and its e-mail are present and the
    pair, compared as it is stored, is in the set. A lead that misses either
    half is never removed. *)
Theorem filter_duplicates_exact (profiles : list pydict)
    (S : gset (pyval * pyval)) :
  filter_duplicates profiles S = filter (λ lead, ¬ known_contact S lead) profiles
  ∧ ∀ lead, lead ∈ profiles →
      truthy (get lead "company_domain") = false
      ∨ truthy (get lead "email") = false →
      lead ∈ filter_duplicates profiles S.
Proof.
  split; [apply filter_duplicates_filter|].
  intros lead Hin Hmiss. rewrite filter_duplicates_filter.
  apply list_elem_of_filter. split; [|done].
  intros [[Hd He] _]. destruct Hmiss; congruence.
Qed.

Lemma filter_duplicates_exact_witness :
  let lead : pydict := {[ "email" := PStr "x@a.com" ]} in
  let S : gset (pyval * pyval) := {[ (PNone, PStr "x@a.com") ]} in
  lead ∈ filter_duplicates [lead] S.
Proof.
  intros lead S. apply (proj2 (filter_duplicates_exact [lead] S) lead).
  - apply list_elem_of_here.
  - left. reflexivity.
Defined.

Lemma filter_agree {A} (P Q : A → Prop) `{∀ x, Decision (P x)}
    `{∀ x, Decision (Q x)} (l : list A) :
  (∀ x, x ∈ l → P x ↔ Q x) → filter P l = filter Q l.
Proof.
  induction l as [|a l IH]; intros Hpq; [done|].
  assert (Ha : P a ↔ Q a) by (apply Hpq; left).
  assert (Hl : filter P l = filter Q l).
  { apply IH. intros x Hx. apply Hpq. by right. }
  destruct (decide (P a)) as [Hp|Hp].
  - rewrite !filter_cons_True by tauto. by f_equal.
  - rewrite !filter_cons_False by tauto. done.
Qed.

Lemma filter_none {A} (P : A → Prop) `{∀ x, Decision (P x)} (l : list A) :
  (∀ x, x ∈ l → ¬ P x) → filter P l = [].
Proof.
  induction l as [|a l IH]; intros Hn; [done|].
  rewrite filter_cons_False by (apply Hn; left).
  apply IH. intros x Hx. apply Hn. by right.
Qed.

Lemma get_existing_contacts_elem (rows : list pydict) (d e : pyval) :
  (d, e) ∈ Supabase.get_existing_contacts (Ok rows)
  ↔ ∃ row, row ∈ rows ∧ has_identity row
           ∧ d = get row "company_domain" ∧ e = get row "email".
Proof.
  unfold Supabase.get_existing_contacts.
  rewrite elem_of_list_to_set, list_elem_of_omap. unfold has_identity.
  split; intros (row & Hin & Hrow); exists row; (split; [done|]).
  - destruct (truthy (get row "company_domain")), (truthy (get row "email"));
      simpl in Hrow; try discriminate. by injection Hrow as <- <-.
  - destruct Hrow as ((-> & ->) & -> & ->). done.
Qed.

(** C3, as stated, fails: a lead without a domain survives both calls. *)
Lemma filter_duplicates_twice_not_empty :
  let lead : pydict := {[ "email" := PStr "x@a.com" ]} in
  let out := filter_duplicates [lead] ∅ in
  filter_duplicates out (∅ ∪ Supabase.get_existing_contacts (Ok out)) ≠ [].
Proof. vm_compute. discriminate. Qed.

(** C3, amended. Running [filter_duplicates] again on the first output, with
    the set extended by the identity pairs of that output, leaves exactly the
    leads that carry no identity pair; when every lead of the input has both a
    domain and an e-mail, the second output is empty. *)
Theorem filter_duplicates_twice (profiles : list pydict)
    (S : gset (pyval * pyval)) :
  let out := filter_duplicates profiles S in
  let S' := S ∪ Supabase.get_existing_contacts (Ok out) in
  filter_duplicates out S' = filter (λ lead, ¬ has_identity lead) out
  ∧ (Forall has_identity profiles → filter_duplicates out S' = []).
Proof.
  intros out S'.
  assert (Heq : filter_duplicates out S'
                = filter (λ lead, ¬ has_identity lead) out).
  { rewrite filter_duplicates_filter.
    apply filter_agree. intros lead Hin. unfold known_contact, S'.
    split; intros Hn H; apply Hn; [|tauto].
    split; [done|]. apply elem_of_union_r, get_existing_contacts_elem.
    by exists lead. }
  split; [exact Heq|].
  intros Hall. rewrite Heq. apply filter_none. intros x Hx Hn. apply Hn.
  rewrite Forall_forall in Hall. apply Hall.
  unfold out in Hx. rewrite filter_duplicates_filter in Hx.
  by apply list_elem_of_filter in Hx as [_ ?].
Qed.

Lemma filter_duplicates_twice_witness :
  let lead : pydict :=
    {[ "company_domain" := PStr "a.com"; "email" := PStr "x@a.com" ]} in
  let out := filter_duplicates [lead] ∅ in
  filter_duplicates out (∅ ∪ Supabase.get_existing_contacts (Ok out)) = [].
Proof.
  intros lead out. apply (proj2 (filter_duplicates_twice [lead] ∅)).
  repeat constructor.
Defined.

(** ** Cooldown filter *)

Section Cooldown.
Import Datetime.
Variable last_contact_dates : gmap string pyval.
Variable cooldown_threshold : Z.

(** The loop keeps what it has and adds the profiles it decides to keep. *)
Lemma filter_cooldown_loop_elem profiles filtered out :
  filter_cooldown_loop profiles last_contact_dates cooldown_threshold filtered
    = Ok out →
  ∀ lead, lead ∈ out ↔
    lead ∈ filtered
    ∨ (lead ∈ profiles
       ∧ cooldown_keeps last_contact_dates cooldown_threshold lead = Ok true).
Proof.
  revert filtered. induction profiles as [|p rest IH]; intros filtered; simpl.
  - intros [= <-] lead. split; [by left|]. intros [?|[Hin _]]; [done|].
    by apply elem_of_nil in Hin.
  - intros Hloop lead.
    assert (Hstep : ∀ b, cooldown_keeps last_contact_dates cooldown_threshold p
                         = Ok b →
              filter_cooldown_loop rest last_contact_dates cooldown_threshold
                (if b then filtered ++ [p] else filtered) = Ok out →
              lead ∈ out ↔
                lead ∈ filtered
                ∨ (lead ∈ p :: rest
                   ∧ cooldown_keeps last_contact_dates cooldown_threshold lead
                     = Ok true)).
    { intros b Hb Hrest. rewrite (IH _ Hrest lead), elem_of_cons.
      destruct b.
      - rewrite elem_of_app, list_elem_of_singleton.
        split; [intros [[? | ->] | [? ?]]; eauto | intros [? | [[-> | ?] ?]]; eauto].
      - split; [intros [? | [? ?]]; eauto | intros [? | [[-> | ?] ?]]; eauto].
        congruence. }
    unfold cooldown_keeps in Hstep.
    destruct (negb (truthy (get p "company_domain"))).
    + by apply (Hstep true).
    + destruct (contacted_recently _ _) as [[]|e]; simpl in *.
      * by apply (Hstep false).
      * by apply (Hstep true).
      * discriminate.
Qed.

(** When no decision raises, the loop returns, and returns the kept
    profiles in their order. *)
Lemma filter_cooldown_loop_total profiles filtered :
  Forall (λ p, ∃ b, cooldown_keeps last_contact_dates cooldown_threshold p
                    = Ok b) profiles →
  ∃ out,
    filter_cooldown_loop profiles last_contact_dates cooldown_threshold filtered
    = Ok out.
Proof.
  intros Hall. revert filtered.
  induction Hall as [|p rest [b Hb] _ IH]; intros filtered; simpl; [eauto|].
  unfold cooldown_keeps in Hb.
  destruct (negb (truthy (get p "company_domain"))); [apply IH|].
  destruct (contacted_recently _ _) as [[]|e]; simpl in *;
    [apply IH | apply IH | discriminate].
Qed.

End Cooldown.

Lemma sub_days_ok now days thr :
  Datetime.sub_days now days = Ok thr → thr = now - days * Datetime.us_per_day.
Proof.
  unfold Datetime.sub_days, Datetime.timedelta_days, Datetime.sub_timedelta.
  case_match; simpl; [|discriminate].
  case_match; [by intros [= <-] | discriminate].
Qed.

(** The decision for a profile whose domain has an aware last-contact
    timestamp: kept exactly when the threshold is not before the instant of the
    last contact. *)
Lemma cooldown_keeps_aware m thr lead d s dt off :
  get lead "company_domain" = PStr d → d ≠ "" →
  m !! d = Some (PStr s) →
  Datetime.fromisoformat (Str.replace1 "Z" "+00:00" s) = Ok dt →
  Datetime.tzinfo dt = Some off →
  cooldown_keeps m thr lead = Ok (bool_decide (Datetime.utc_us dt off ≤ thr)).
Proof.
  intros Hd Hne Hm Hparse Htz. unfold cooldown_keeps. rewrite Hd. simpl.
  apply String.eqb_neq in Hne. rewrite Hne, Hm. simpl.
  unfold contacted_recently. destruct s as [|c s]; [discriminate Hparse|].
  simpl truthy. cbv iota. rewrite Hparse. simpl.
  unfold Datetime.gt_aware. rewrite Htz. simpl. f_equal.
  case_bool_decide; [apply negb_true_iff, Z.ltb_ge | apply negb_false_iff, Z.ltb_lt]; lia.
Qed.

(** C1, as stated, fails at the boundary: a contact made exactly 90 days
    before [now] is kept, not dropped. *)
Lemma filter_cooldown_boundary_kept :
  let lead : pydict := {[ "company_domain" := PStr "a.com" ]} in
  let m : gmap string pyval := {[ "a.com" := PStr "2024-01-02T00:00:00+00:00" ]} in
  let now := utc_midnight 2024 4 1 in
  now - utc_midnight 2024 1 2 = 90 * Datetime.us_per_day
  ∧ Datetime.fromisoformat (Str.replace1 "Z" "+00:00" "2024-01-02T00:00:00+00:00")
    = Ok (Datetime.mk_datetime 2024 1 2 0 0 0 0 (Some 0))
  ∧ filter_cooldown now [lead] m 90 = Ok [lead].
Proof. vm_compute. done. Qed.

(** C1, amended. For a lead whose domain is present and has a last-contact
    entry that parses to an aware timestamp, [filter_cooldown] keeps the lead
    exactly when the elapsed time, [now] minus that timestamp, is at least
    [cooldown_days], and drops it when the elapsed time is shorter; a contact
    made exactly [cooldown_days] ago is kept. *)
Theorem filter_cooldown_decision (now days : Z) (m : gmap string pyval)
    (lead : pydict) (d s : string) (dt : Datetime.datetime) (off thr : Z) :
  Datetime.sub_days now days = Ok thr →
  get lead "company_domain" = PStr d → d ≠ "" →
  m !! d = Some (PStr s) →
  Datetime.fromisoformat (Str.replace1 "Z" "+00:00" s) = Ok dt →
  Datetime.tzinfo dt = Some off →
  let elapsed := now - Datetime.utc_us dt off in
  let cooldown := days * Datetime.us_per_day in
  filter_cooldown now [lead] m days
    = Ok (if bool_decide (cooldown ≤ elapsed) then [lead] else [])
  ∧ ∀ profiles out,
      filter_cooldown now profiles m days = Ok out →
      lead ∈ profiles → (lead ∈ out ↔ cooldown ≤ elapsed).
Proof.
  intros Hthr Hd Hne Hm Hparse Htz elapsed cooldown.
  pose proof (cooldown_keeps_aware m thr lead d s dt off Hd Hne Hm Hparse Htz)
    as Hkeep.
  pose proof (sub_days_ok _ _ _ Hthr) as ->.
  assert (Hiff : Datetime.utc_us dt off ≤ now - days * Datetime.us_per_day
                 ↔ cooldown ≤ elapsed) by (unfold cooldown, elapsed; lia).
  split.
  - unfold filter_cooldown. rewrite Hthr. simpl.
    unfold cooldown_keeps in Hkeep.
    destruct (negb (truthy (get lead "company_domain"))).
    + injection Hkeep as Hk. symmetry in Hk. apply bool_decide_eq_true in Hk.
      rewrite bool_decide_eq_true_2 by tauto. done.
    + destruct (contacted_recently _ _) as [[]|e]; simpl in *; [| |discriminate];
        injection Hkeep as Hk; symmetry in Hk.
      * apply bool_decide_eq_false in Hk.
        rewrite bool_decide_eq_false_2 by tauto. done.
      * apply bool_decide_eq_true in Hk.
        rewrite bool_decide_eq_true_2 by tauto. done.
  - intros profiles out Hrun Hin. unfold filter_cooldown in Hrun.
    rewrite Hthr in Hrun. simpl in Hrun.
    rewrite (filter_cooldown_loop_elem _ _ _ _ _ Hrun lead), Hkeep, <- Hiff.
    split.
    + intros [Hnil|[_ [= Hk]]]; [by apply elem_of_nil in Hnil|].
      by apply bool_decide_eq_true in Hk.
    + intros Hle. right. split; [done|]. f_equal. by apply bool_decide_eq_true.
Qed.

Lemma filter_cooldown_decision_witness :
  let lead : pydict := {[ "company_domain" := PStr "a.com" ]} in
  let m : gmap string pyval := {[ "a.com" := PStr "2024-01-01T23:00:00Z" ]} in
  let now := utc_midnight 2024 4 1 in
  let dt := Datetime.mk_datetime 2024 1 1 23 0 0 0 (Some 0) in
  filter_cooldown now [lead] m 90
  = Ok (if bool_decide (90 * Datetime.us_per_day ≤ now - Datetime.utc_us dt 0)
        then [lead] else []).
Proof.
  intros lead m now dt.
  refine (proj1 (filter_cooldown_decision now 90 m lead "a.com"
                   "2024-01-01T23:00:00Z" dt 0
                   (now - 90 * Datetime.us_per_day) _ _ _ _ _ _)).
  - vm_compute. reflexivity.
  - vm_compute. reflexivity.
  - discriminate.
  - vm_compute. reflexivity.
  - vm_compute. reflexivity.
  - reflexivity.
Defined.

(** C9: a last-contact timestamp without a time zone designator makes
    [filter_cooldown] raise a [TypeError] instead of returning a list. *)
Theorem filter_cooldown_naive_raises :
  let lead : pydict := {[ "company_domain" := PStr "a.com" ]} in
  let m : gmap string pyval := {[ "a.com" := PStr "2024-03-01T12:00:00" ]} in
  Datetime.fromisoformat (Str.replace1 "Z" "+00:00" "2024-03-01T12:00:00")
    = Ok (Datetime.mk_datetime 2024 3 1 12 0 0 0 None)
  ∧ filter_cooldown (utc_midnight 2024 4 1) [lead] m 90 = Raise TypeError.
Proof. vm_compute. done. Qed.

(** With a threshold in range and every recorded timestamp aware,
    [filter_cooldown] returns a list. *)
Lemma filter_cooldown_aware_returns now days thr profiles
    (m : gmap string pyval) :
  Datetime.sub_days now days = Ok thr →
  (∀ d v, m !! d = Some v →
     truthy v = false
     ∨ ∃ s dt off, v = PStr s
         ∧ Datetime.fromisoformat (Str.replace1 "Z" "+00:00" s) = Ok dt
         ∧ Datetime.tzinfo dt = Some off) →
  ∃ out, filter_cooldown now profiles m days = Ok out.
Proof.
  intros Hthr Hm. unfold filter_cooldown. rewrite Hthr. simpl.
  apply filter_cooldown_loop_total. apply Forall_forall. intros p _.
  unfold cooldown_keeps.
  destruct (negb (truthy (get p "company_domain"))); [by eexists|].
  unfold lookup_contact.
  destruct (get p "company_domain") as [|d|z]; [by eexists| |by eexists].
  destruct (m !! d) as [v|] eqn:Hv; simpl; [|by eexists].
  destruct (Hm d v Hv) as [Hf|(s & dt & off & -> & Hp & Ht)].
  - unfold contacted_recently. rewrite Hf. by eexists.
  - unfold contacted_recently. destruct s as [|c s]; [discriminate Hp|].
    simpl truthy. cbv iota. rewrite Hp. simpl.
    unfold Datetime.gt_aware. rewrite Ht. by eexists.
Qed.

(** ** Text *)

Lemma append_cons c (s t : string) : String c s +:+ t = String c (s +:+ t).
Proof. reflexivity. Qed.

Lemma append_empty_l (t : string) : "" +:+ t = t.
Proof. reflexivity. Qed.

Ltac simpl_app := rewrite ?append_cons, ?append_empty_l.

Lemma append_assoc (a b c : string) : (a +:+ b) +:+ c = a +:+ (b +:+ c).
Proof. induction a as [|x a IH]; simpl_app; [done|]. by rewrite IH. Qed.

Lemma append_not_empty (a b : string) : b ≠ "" → a +:+ b ≠ "".
Proof. destruct a; simpl_app; [done | discriminate]. Qed.

(** ** Timestamp notation *)

Section Isoformat.
Import Datetime.

(** [replace] works character by character, so it goes through [+]. *)
Lemma replace1_app old new (a b : string) :
  Str.replace1 old new (a +:+ b)
  = Str.replace1 old new a +:+ Str.replace1 old new b.
Proof.
  induction a as [|c a IH]; simpl_app; [done|]. simpl.
  rewrite IH. destruct (Ascii.eqb c old); [by rewrite append_assoc | done].
Qed.

Lemma replace1_absent old new (s : string) :
  Str.mem_char old s = false → Str.replace1 old new s = s.
Proof.
  induction s as [|c s IH]; simpl; [done|].
  rewrite (Ascii.eqb_sym old c). destruct (Ascii.eqb c old); simpl; [done|].
  intros H. by rewrite IH.
Qed.

(** A trailing [Z] and a trailing [+00:00] are the same text once the
    replacement has run. *)
Lemma replace_z_suffix (base : string) :
  Str.replace1 "Z" "+00:00" (base +:+ "Z")
  = Str.replace1 "Z" "+00:00" (base +:+ "+00:00").
Proof. by rewrite !replace1_app. Qed.

Lemma parse_digits_app n s acc v r t :
  parse_digits n s acc = Some (v, r) →
  parse_digits n (s +:+ t) acc = Some (v, r +:+ t).
Proof.
  revert s acc. induction n as [|n IH]; intros s acc; simpl.
  - by intros [= <- <-].
  - destruct s as [|c s]; [done|]. simpl_app.
    destruct (Str.is_digit c); [apply IH | done].
Qed.

Lemma parse_digits_length n s acc v r :
  parse_digits n s acc = Some (v, r) →
  String.length s = (n + String.length r)%nat.
Proof.
  revert s acc. induction n as [|n IH]; intros s acc; simpl.
  - by intros [= _ <-].
  - destruct s as [|c s]; [done|]. simpl.
    destruct (Str.is_digit c); [|done]. intros H. by rewrite (IH _ _ H).
Qed.

Lemma expect_app c s r t :
  expect c s = Some r → expect c (s +:+ t) = Some (r +:+ t).
Proof.
  destruct s as [|c' s]; simpl_app; simpl; [done|].
  destruct (Ascii.eqb c c'); [by intros [= <-] | done].
Qed.

Lemma expect_length c s r :
  expect c s = Some r → String.length s = S (String.length r).
Proof.
  destruct s as [|c' s]; simpl; [done|].
  destruct (Ascii.eqb c c'); [by intros [= <-] | done].
Qed.

#[local] Arguments parse_digits : simpl never.
#[local] Arguments expect : simpl never.

Lemma parse_isoformat_date_app s y m d r t :
  parse_isoformat_date s = Some (y, m, d, r) →
  parse_isoformat_date (s +:+ t) = Some (y, m, d, r +:+ t)
  ∧ String.length s = (10 + String.length r)%nat.
Proof.
  unfold parse_isoformat_date. intros H.
  destruct (parse_digits 4 s 0) as [[y' r1]|] eqn:H1; simpl in H; [|done].
  destruct (expect "-" r1) as [r2|] eqn:H2; simpl in H; [|done].
  destruct (parse_digits 2 r2 0) as [[m' r3]|] eqn:H3; simpl in H; [|done].
  destruct (expect "-" r3) as [r4|] eqn:H4; simpl in H; [|done].
  destruct (parse_digits 2 r4 0) as [[d' r5]|] eqn:H5; simpl in H; [|done].
  injection H as <- <- <- <-.
  rewrite (parse_digits_app _ _ _ _ _ t H1). simpl.
  rewrite (expect_app _ _ _ t H2). simpl.
  rewrite (parse_digits_app _ _ _ _ _ t H3). simpl.
  rewrite (expect_app _ _ _ t H4). simpl.
  rewrite (parse_digits_app _ _ _ _ _ t H5). simpl.
  split; [done|].
  apply parse_digits_length in H1, H3, H5. apply expect_length in H2, H4. lia.
Qed.

Lemma drop_app n (r t : string) :
  Str.drop n r ≠ "" → Str.drop n (r +:+ t) = Str.drop n r +:+ t.
Proof.
  revert r. induction n as [|n IH]; intros r; simpl; [done|].
  destruct r as [|c r]; [done|]. simpl_app. apply IH.
Qed.

Lemma skip_char_app (r t : string) :
  skip_char r ≠ "" → skip_char (r +:+ t) = skip_char r +:+ t.
Proof.
  destruct r as [|c r]; [done|]. simpl_app. unfold skip_char.
  destruct (Str.code c <? 128); [done|].
  destruct (Str.code c <? 224); [apply drop_app|].
  destruct (Str.code c <? 240); apply drop_app.
Qed.

(** A clock text without a sign stays whole, and a sign appended to it is
    where the offset starts. *)
Lemma split_tz_unsigned s t :
  split_tz s = (t, None) →
  t = s ∧ ∀ c r, is_sign c = true →
        split_tz (s +:+ String c r) = (s, Some (c, r)).
Proof.
  revert t. induction s as [|x s IH]; intros t; simpl.
  - intros [= <-]. split; [done|]. intros c r Hc. simpl_app. simpl.
    by rewrite Hc.
  - destruct (is_sign x) eqn:Hx; [done|].
    destruct (split_tz s) as [t' z] eqn:Hs. intros [= <- ->].
    destruct (IH t' eq_refl) as [-> Happ]. split; [done|].
    intros c r Hc. simpl_app. simpl. by rewrite ?Hx, (Happ c r Hc).
Qed.

(** A naive timestamp with a clock part, followed by [+00:00], reads as the
    same clock reading in UTC. *)
Lemma fromisoformat_utc_suffix (base : string) (dt : datetime) :
  (10 < String.length base)%nat →
  fromisoformat base = Ok dt → tzinfo dt = None →
  fromisoformat (base +:+ "+00:00") = Ok (with_tzinfo dt (Some 0)).
Proof.
  intros Hlen Hparse Htz. unfold fromisoformat in *.
  destruct (parse_isoformat_date base) as [[[[y m] d] rest]|] eqn:Hdate;
    [|done].
  destruct (parse_isoformat_date_app _ _ _ _ _ "+00:00" Hdate) as [-> Hl].
  destruct rest as [|c rest]; [simpl in Hl; lia|].
  set (tstr := skip_char (String c rest)) in *.
  rewrite append_cons, <- append_cons.
  destruct (parse_isoformat_time tstr) as [[[[[h mi] sec] us] tz]|] eqn:Htime;
    [|done].
  assert (Hne : tstr ≠ "") by (intros E; rewrite E in Htime; discriminate).
  rewrite (skip_char_app _ _ Hne). fold tstr.
  destruct (check_date_fields y m d && check_time_fields h mi sec us) eqn:Hchk;
    [|done].
  injection Hparse as <-. simpl in Htz. subst tz.
  unfold parse_isoformat_time in *.
  destruct (split_tz tstr) as [timestr z] eqn:Hsplit.
  destruct (parse_hh_mm_ss_ff timestr) as [[[[h' mi'] sec'] us']|] eqn:Hclock;
    simpl in Htime; [|done].
  destruct z as [[sign tzstr]|].
  { destruct (parse_tz sign tzstr); simpl in Htime; [|done].
    by injection Htime. }
  injection Htime as -> -> -> ->.
  destruct (split_tz_unsigned _ _ Hsplit) as [-> Happ].
  change "+00:00" with (String "+" "00:00").
  rewrite (Happ "+"%char "00:00" eq_refl), Hclock. simpl.
  by rewrite Hchk.
Qed.

End Isoformat.

Section ZSuffix.
Import Datetime.

Lemma truthy_append (a b : string) : b ≠ "" → truthy (PStr (a +:+ b)) = true.
Proof.
  intros Hb. simpl. apply negb_true_iff, String.eqb_neq.
  by apply append_not_empty.
Qed.

Lemma contacted_recently_z_suffix thr base :
  contacted_recently (PStr (base +:+ "Z")) thr
  = contacted_recently (PStr (base +:+ "+00:00")) thr.
Proof.
  unfold contacted_recently.
  rewrite !truthy_append by discriminate. by rewrite replace_z_suffix.
Qed.

(** Two texts that read as the same instant get the same verdict. *)
Lemma contacted_recently_same_instant thr s1 s2 dt1 dt2 off1 off2 :
  fromisoformat (Str.replace1 "Z" "+00:00" s1) = Ok dt1 →
  tzinfo dt1 = Some off1 →
  fromisoformat (Str.replace1 "Z" "+00:00" s2) = Ok dt2 →
  tzinfo dt2 = Some off2 →
  utc_us dt1 off1 = utc_us dt2 off2 →
  contacted_recently (PStr s1) thr = contacted_recently (PStr s2) thr.
Proof.
  intros H1 T1 H2 T2 Heq. unfold contacted_recently.
  destruct s1 as [|c1 s1]; [discriminate H1|].
  destruct s2 as [|c2 s2]; [discriminate H2|].
  simpl truthy. cbv iota. rewrite H1, H2. simpl.
  unfold gt_aware. by rewrite T1, T2, Heq.
Qed.

Lemma filter_cooldown_loop_ext (m1 m2 : gmap string pyval) thr :
  (∀ k, contacted_recently (lookup_contact m1 k) thr
        = contacted_recently (lookup_contact m2 k) thr) →
  ∀ profiles filtered,
    filter_cooldown_loop profiles m1 thr filtered
    = filter_cooldown_loop profiles m2 thr filtered.
Proof.
  intros Hext. induction profiles as [|p rest IH]; intros filtered; simpl;
    [done|].
  rewrite Hext, !IH. done.
Qed.

Lemma filter_cooldown_entry_ext now days profiles (m : gmap string pyval) d v1 v2 :
  (∀ thr, contacted_recently v1 thr = contacted_recently v2 thr) →
  filter_cooldown now profiles (<[d := v1]> m) days
  = filter_cooldown now profiles (<[d := v2]> m) days.
Proof.
  intros Hv. unfold filter_cooldown.
  destruct (sub_days now days) as [thr|e]; simpl; [|done].
  apply filter_cooldown_loop_ext. intros [|k|z]; simpl; [done| |done].
  destruct (decide (d = k)) as [->|Hne].
  - rewrite !lookup_insert_eq. simpl. apply Hv.
  - by rewrite !lookup_insert_ne.
Qed.

(** C4. A last-contact timestamp ending in [Z] and the same timestamp ending
    in [+00:00] give the same result of [filter_cooldown], for every batch,
    map and threshold; so do any two timestamps that read as the same instant.
    A well-formed timestamp with a trailing [Z] parses without an error, to an
    aware datetime in UTC. *)
Theorem filter_cooldown_z_suffix (now days : Z) (profiles : list pydict)
    (m : gmap string pyval) (d base : string) :
  filter_cooldown now profiles (<[d := PStr (base +:+ "Z")]> m) days
  = filter_cooldown now profiles (<[d := PStr (base +:+ "+00:00")]> m) days
  ∧ (∀ s1 s2 dt1 dt2 off1 off2,
       fromisoformat (Str.replace1 "Z" "+00:00" s1) = Ok dt1 →
       tzinfo dt1 = Some off1 →
       fromisoformat (Str.replace1 "Z" "+00:00" s2) = Ok dt2 →
       tzinfo dt2 = Some off2 →
       utc_us dt1 off1 = utc_us dt2 off2 →
       filter_cooldown now profiles (<[d := PStr s1]> m) days
       = filter_cooldown now profiles (<[d := PStr s2]> m) days)
  ∧ (∀ dt,
       (10 < String.length base)%nat →
       Str.mem_char "Z" base = false →
       fromisoformat base = Ok dt → tzinfo dt = None →
       fromisoformat (Str.replace1 "Z" "+00:00" (base +:+ "Z"))
       = Ok (with_tzinfo dt (Some 0))).
Proof.
  split; [|split].
  - apply filter_cooldown_entry_ext. intros thr.
    apply contacted_recently_z_suffix.
  - intros s1 s2 dt1 dt2 off1 off2 H1 T1 H2 T2 Heq.
    apply filter_cooldown_entry_ext. intros thr.
    by apply (contacted_recently_same_instant thr s1 s2 dt1 dt2 off1 off2).
  - intros dt Hlen Hz Hparse Htz.
    rewrite replace1_app, (replace1_absent _ _ _ Hz).
    change (Str.replace1 "Z" "+00:00" "Z") with "+00:00".
    by apply fromisoformat_utc_suffix.
Qed.

Lemma filter_cooldown_z_suffix_witness :
  fromisoformat (Str.replace1 "Z" "+00:00" ("2024-01-01T10:00:00" +:+ "Z"))
  = Ok (with_tzinfo (mk_datetime 2024 1 1 10 0 0 0 None) (Some 0))
  ∧ filter_cooldown (utc_midnight 2024 4 1)
      [ {[ "company_domain" := PStr "a.com" ]} ]
      (<["a.com" := PStr "2024-01-02T00:00:00+00:00"]> ∅) 90
    = filter_cooldown (utc_midnight 2024 4 1)
      [ {[ "company_domain" := PStr "a.com" ]} ]
      (<["a.com" := PStr "2024-01-01T19:00:00-05:00"]> ∅) 90.
Proof.
  pose proof (filter_cooldown_z_suffix (utc_midnight 2024 4 1) 90
                [ {[ "company_domain" := PStr "a.com" ]} ] ∅ "a.com"
                "2024-01-01T10:00:00") as (_ & Hsame & Hparse).
  split.
  - apply Hparse.
    + vm_compute. lia.
    + reflexivity.
    + vm_compute. reflexivity.
    + reflexivity.
  - apply (Hsame _ _ (mk_datetime 2024 1 2 0 0 0 0 (Some 0))
             (mk_datetime 2024 1 1 19 0 0 0 (Some (-18000000000)))
             0 (-18000000000)).
    + vm_compute. reflexivity.
    + reflexivity.
    + vm_compute. reflexivity.
    + reflexivity.
    + vm_compute. reflexivity.
Defined.

End ZSuffix.

(** ** Substrings *)

Lemma prefix_app (sub s : string) :
  String.prefix sub s = true ↔ ∃ post, s = sub +:+ post.
Proof.
  revert s. induction sub as [|a sub IH]; intros [|b s]; simpl.
  - split; [intros _; by exists "" | done].
  - split; [intros _; by exists (String b s) | done].
  - split; [done | intros [post Hp]; discriminate Hp].
  - destruct (ascii_dec a b) as [->|Hne].
    + rewrite IH. split; intros [post Hp]; exists post.
      * simpl_app. by rewrite Hp.
      * by injection Hp.
    + split; [done|]. intros [post Hp]. injection Hp as Hab _. congruence.
Qed.

(** [Str.contains] is the test for a contiguous occurrence. *)
Lemma contains_spec (sub s : string) :
  Str.contains sub s = true ↔ ∃ pre post, s = pre +:+ sub +:+ post.
Proof.
  induction s as [|c s IH].
  - change (Str.contains sub "") with (String.prefix sub "" || false).
    rewrite orb_false_r, prefix_app. split.
    + intros [post Hp]. exists "", post. exact Hp.
    + intros (pre & post & Hp). destruct pre as [|x pre]; [|discriminate Hp].
      exists post. exact Hp.
  - change (Str.contains sub (String c s))
      with (String.prefix sub (String c s) || Str.contains sub s).
    rewrite orb_true_iff, prefix_app, IH. split.
    + intros [[post Hp]|(pre & post & Hp)].
      * exists "", post. exact Hp.
      * exists (String c pre), post. by rewrite Hp.
    + intros (pre & post & Hp). destruct pre as [|x pre].
      * left. exists post. exact Hp.
      * right. exists pre, post. by injection Hp.
Qed.

(** ** Corporate-size classifier *)

Section Classifier.
Import Scraper Enricher.

Lemma any_corporate (company_lower : string) :
  existsb (λ corp, Str.contains corp company_lower) BIG_CORPORATES_FALLBACK
    = true
  ↔ ∃ corp pre post,
      In corp BIG_CORPORATES_FALLBACK
      ∧ company_lower = pre +:+ corp +:+ post.
Proof.
  rewrite existsb_exists. split.
  - intros (corp & Hin & Hc). apply contains_spec in Hc as (pre & post & Hc).
    by exists corp, pre, post.
  - intros (corp & pre & post & Hin & Hc). exists corp. split; [done|].
    apply contains_spec. by exists pre, post.
Qed.

(** C8. [is_big_corporate] lower-cases the name and answers [True] exactly
    when an entry of the fixed list occurs in the lower-cased name; an empty
    or absent name gives [False]; "Groupe Carrefour France" gives [True]. So
    do a name with a dotted capital I (U+0130) and one with the Kelvin sign
    (U+212A) for the letter K, whose lower-case forms hold "audi" and
    "nike". *)
Theorem is_big_corporate_substring :
  (∀ name : string, ∃ b,
      is_big_corporate (PStr name) = Ok b
      ∧ (b = true ↔
         ∃ corp pre post,
           In corp BIG_CORPORATES_FALLBACK
           ∧ Str.lower name = pre +:+ corp +:+ post))
  ∧ is_big_corporate (PStr "") = Ok false
  ∧ is_big_corporate PNone = Ok false
  ∧ Str.lower "Groupe Carrefour France" = "groupe carrefour france"
  ∧ is_big_corporate (PStr "Groupe Carrefour France") = Ok true
  ∧ is_big_corporate (PStr "AUDİ") = Ok true
  ∧ is_big_corporate (PStr "NIKE") = Ok true.
Proof.
  split; [|by vm_compute].
  intros name. destruct name as [|c name].
  - exists false. split; [done|]. rewrite <- any_corporate. by vm_compute.
  - eexists. split; [reflexivity|]. by rewrite <- any_corporate.
Qed.


End Classifier.

(** ** Campaign payload *)

Section Payload.
Import Campaign.

Lemma set_custom_field_lookup k v (rec : gmap string field) d :
  rec !! "custom_fields" = Some (Fields d) →
  set_custom_field k v rec !! "custom_fields" = Some (Fields (<[k := v]> d)).
Proof.
  intros H. unfold set_custom_field. by rewrite lookup_alter_eq, H.
Qed.

Lemma set_custom_field_dom k v (rec : gmap string field) :
  dom (set_custom_field k v rec) = dom rec.
Proof. unfold set_custom_field. apply dom_alter_L. Qed.

Lemma add_custom_step lead (rec : gmap string field) d f :
  rec !! "custom_fields" = Some (Fields d) →
  dom (add_custom lead rec (f, f)) = dom rec
  ∧ ∃ d', add_custom lead rec (f, f) !! "custom_fields" = Some (Fields d')
      ∧ ∀ k, d' !! k = if bool_decide (k = f) && truthy (get lead k)
                       then Some (get lead k) else d !! k.
Proof.
  intros H. unfold add_custom. destruct (truthy (get lead f)) eqn:Ht.
  - rewrite set_custom_field_dom. split; [done|].
    exists (<[f := get lead f]> d). split; [by apply set_custom_field_lookup|].
    intros k. case_bool_decide as Hk; simpl.
    + subst k. by rewrite Ht, lookup_insert_eq.
    + by rewrite lookup_insert_ne.
  - split; [done|]. exists d. split; [done|]. intros k.
    case_bool_decide as Hk; simpl; [|done]. subst k. by rewrite Ht.
Qed.

(** The whole loop, over any list of fields mapped to themselves. *)
Lemma add_custom_fold lead (fields : list string) :
  ∀ (rec : gmap string field) d,
    rec !! "custom_fields" = Some (Fields d) →
    let rec' := fold_left (add_custom lead) (map (λ f, (f, f)) fields) rec in
    dom rec' = dom rec
    ∧ ∃ d', rec' !! "custom_fields" = Some (Fields d')
        ∧ ∀ k, d' !! k = if bool_decide (k ∈ fields) && truthy (get lead k)
                         then Some (get lead k) else d !! k.
Proof.
  induction fields as [|f fields IH]; intros rec d Hrec; cbn [fold_left map].
  - split; [done|]. exists d. split; [done|]. intros k. done.
  - destruct (add_custom_step lead rec d f Hrec) as (D1 & d1 & H1 & L1).
    destruct (IH _ d1 H1) as (D2 & d2 & H2 & L2).
    split; [by rewrite D2, D1|]. exists d2. split; [exact H2|].
    intros k. rewrite L2, L1.
    destruct (truthy (get lead k)); rewrite ?andb_false_r; [|done].
    rewrite !andb_true_r.
    destruct (decide (k ∈ fields)) as [Hin|Hin].
    + rewrite !bool_decide_eq_true_2; [done | by right | done].
    + rewrite (bool_decide_eq_false_2 (k ∈ fields)) by done.
      destruct (decide (k = f)) as [->|Hne].
      * rewrite !bool_decide_eq_true_2; [done | by left | done].
      * rewrite !bool_decide_eq_false_2; [done | | done].
        rewrite elem_of_cons. tauto.
Qed.

Lemma transform_lead_custom_fields (lead : pydict) :
  dom (_transform_lead lead)
  = {[ "email"; "first_name"; "last_name"; "company_name"; "custom_fields" ]}
  ∧ ∃ d, _transform_lead lead !! "custom_fields" = Some (Fields d)
      ∧ ∀ k, d !! k = if bool_decide (k ∈ sequence_fields)
                         && truthy (get lead k)
                      then Some (get lead k) else None.
Proof.
  unfold _transform_lead.
  set (rec0 := <["email" := _]> _).
  assert (H0 : rec0 !! "custom_fields" = Some (Fields ∅)) by done.
  assert (D0 : dom rec0
    = {[ "email"; "first_name"; "last_name"; "company_name"; "custom_fields" ]}).
  { unfold rec0. rewrite !dom_insert_L, dom_empty_L. set_solver. }
  destruct (add_custom_fold lead sequence_fields rec0 ∅ H0)
    as (D & d & Hd & L).
  split; [by rewrite <- D0|]. exists d. split; [exact Hd|].
  intros k. by rewrite L, lookup_empty.
Qed.

(** C7. The campaign record has exactly the keys [email], [first_name],
    [last_name], [company_name] and [custom_fields]; [custom_fields] is a dict
    that holds, of the five sequence fields, exactly those whose value in the
    lead is truthy, each with that value. For a lead whose [email_2] is the
    empty string and whose other four sequence fields are populated,
    [custom_fields] has the other four keys and no key [email_2]. *)
Theorem transform_lead_payload (lead : pydict) :
  dom (_transform_lead lead)
  = {[ "email"; "first_name"; "last_name"; "company_name"; "custom_fields" ]}
  ∧ (∃ d, _transform_lead lead !! "custom_fields" = Some (Fields d))
  ∧ (∀ k, custom_fields (_transform_lead lead) !! k
          = if bool_decide (k ∈ sequence_fields) && truthy (get lead k)
            then Some (get lead k) else None)
  ∧ (get lead "email_2" = PStr "" →
     truthy (get lead "subject_line") = true →
     truthy (get lead "email_1") = true →
     truthy (get lead "email_1_ps") = true →
     truthy (get lead "email_3") = true →
     dom (custom_fields (_transform_lead lead))
     = {[ "subject_line"; "email_1"; "email_1_ps"; "email_3" ]}).
Proof.
  destruct (transform_lead_custom_fields lead) as (Hdom & d & Hd & Hk).
  assert (Hcf : custom_fields (_transform_lead lead) = d).
  { unfold custom_fields. by rewrite Hd. }
  split; [exact Hdom|]. split; [by exists d|]. rewrite Hcf.
  split; [exact Hk|].
  intros H2 Hs H1 Hps H3. apply set_eq. intros k.
  rewrite elem_of_dom, Hk. unfold sequence_fields.
  rewrite !elem_of_union, !elem_of_singleton.
  case_bool_decide as Hin; simpl.
  - rewrite !elem_of_cons, elem_of_nil in Hin.
    destruct Hin as [->|[->|[->|[->|[->|[]]]]]].
    + rewrite Hs. split; [tauto | by eauto].
    + rewrite H1. split; [tauto | by eauto].
    + rewrite Hps. split; [tauto | by eauto].
    + rewrite H2. simpl. split; [by intros [? ?] | by intros [[[?|?]|?]|?]].
    + rewrite H3. split; [tauto | by eauto].
  - rewrite !elem_of_cons, elem_of_nil in Hin.
    split; [by intros [? ?]|]. intros Hk'. exfalso. apply Hin. tauto.
Qed.

Lemma transform_lead_payload_witness :
  let lead : pydict :=
    {[ "email" := PStr "x@a.com"; "subject_line" := PStr "Hello";
       "email_1" := PStr "First"; "email_1_ps" := PStr "PS";
       "email_2" := PStr ""; "email_3" := PStr "Third" ]} in
  dom (custom_fields (_transform_lead lead))
  = {[ "subject_line"; "email_1"; "email_1_ps"; "email_3" ]}.
Proof.
  intros lead.
  apply (proj2 (proj2 (proj2 (transform_lead_payload lead))));
    vm_compute; reflexivity.
Defined.

End Payload.

(** ** B2C classifier *)

Section B2C.
Import Enricher.

(** C6, as stated, fails: the label is looked for in the upper-cased reply,
    so a reply in lower case, which does not hold the text "B2C", is still
    classified as B2C. *)
Lemma is_b2c_company_lower_case_reply :
  Str.contains "B2C" "b2c" = false
  ∧ ∃ prompts,
      is_b2c_company (λ _, ClaudeText "b2c") (PStr "Acme") (PStr "Retail") PNone
      = Ok ({| is_b2c := true; reason := "AI classification" |}, prompts).
Proof. split; [reflexivity|]. eexists. vm_compute. reflexivity. Qed.

(** C6, amended. With neither industry nor description, [is_b2c_company]
    answers not-B2C with reason "No data available" and sends nothing to the
    text generator. Otherwise it sends one prompt: when the generator fails,
    the answer is not-B2C and the reason records the failure; when it replies,
    the answer is B2C exactly when "B2C" occurs in the reply after stripping
    and upper-casing it. No failure gives the answer B2C. *)
Theorem is_b2c_company_fail_open (generate : string → claude_reply)
    (company_name industry description : pyval) :
  (truthy industry = false → truthy description = false →
   is_b2c_company generate company_name industry description
   = Ok ({| is_b2c := false; reason := "No data available" |}, []))
  ∧ (truthy industry = true ∨ truthy description = true →
     is_text description →
     ∃ prompt,
       match generate prompt with
       | ClaudeFailure msg =>
           is_b2c_company generate company_name industry description
           = Ok ({| is_b2c := false; reason := "Error: " +:+ msg |}, [prompt])
       | ClaudeText text =>
           is_b2c_company generate company_name industry description
           = Ok ({| is_b2c := Str.contains "B2C" (Str.upper (Str.strip text));
                    reason := "AI classification" |}, [prompt])
       end).
Proof.
  unfold is_b2c_company. split.
  - intros -> ->. done.
  - intros Hdata Htext.
    destruct (truthy description) eqn:Hd.
    + destruct description as [|s|z]; [done| |done]. simpl.
      rewrite andb_false_r.
      match goal with
      | |- context [generate (b2c_prompt ?c)] => exists (b2c_prompt c)
      end.
      destruct (generate _); reflexivity.
    + destruct Hdata as [Hi|?]; [|done]. rewrite Hi. simpl.
      match goal with
      | |- context [generate (b2c_prompt ?c)] => exists (b2c_prompt c)
      end.
      destruct (generate _); reflexivity.
Qed.

Lemma is_b2c_company_fail_open_witness :
  is_b2c_company (λ _, ClaudeText "B2B") (PStr "Acme") PNone (PStr "")
  = Ok ({| is_b2c := false; reason := "No data available" |}, [])
  ∧ ∃ prompt,
      is_b2c_company (λ _, ClaudeFailure "timeout") (PStr "Acme")
        (PStr "Retail") (PStr "Shops")
      = Ok ({| is_b2c := false; reason := "Error: " +:+ "timeout" |}, [prompt]).
Proof.
  split.
  - apply (proj1 (is_b2c_company_fail_open (λ _, ClaudeText "B2B")
                    (PStr "Acme") PNone (PStr ""))); reflexivity.
  - destruct (proj2 (is_b2c_company_fail_open (λ _, ClaudeFailure "timeout")
                       (PStr "Acme") (PStr "Retail") (PStr "Shops")))
      as [prompt Hp]; [left; reflexivity | exact I |].
    exists prompt. exact Hp.
Defined.

End B2C.

(** ** E-mail verification *)

Section Verification.
Import Enricher Main.

Lemma eq_str_spec v s : eq_str v s = true ↔ v = PStr s.
Proof.
  destruct v as [|s'|z]; simpl; [done| |done].
  rewrite String.eqb_eq. split; [by intros -> | by intros [= ->]].
Qed.






End Verification.

(** * Further properties of the filters *)

Section MoreDedup.

(** X1. Two passes with two sets of contacts are one pass with their union; in
    particular a second pass with the same set changes nothing. *)
Theorem filter_duplicates_union (profiles : list pydict)
    (S1 S2 : gset (pyval * pyval)) :
  filter_duplicates (filter_duplicates profiles S1) S2
  = filter_duplicates profiles (S1 ∪ S2)
  ∧ filter_duplicates (filter_duplicates profiles S1) S1
    = filter_duplicates profiles S1.
Proof.
  assert (H : ∀ T1 T2 : gset (pyval * pyval),
             filter_duplicates (filter_duplicates profiles T1) T2
             = filter_duplicates profiles (T1 ∪ T2)).
  { intros T1 T2. rewrite !filter_duplicates_filter, list_filter_filter.
    apply filter_agree. intros lead _. unfold known_contact.
    rewrite elem_of_union. tauto. }
  split; [apply H|]. rewrite H. by rewrite union_idemp_L.
Qed.

(** X2. A batch can be filtered in pieces: the filter goes through
    concatenation, and with no known contact the batch comes back whole. *)
Theorem filter_duplicates_app (a b : list pydict) (S : gset (pyval * pyval)) :
  filter_duplicates (a ++ b) S = filter_duplicates a S ++ filter_duplicates b S
  ∧ filter_duplicates a ∅ = a.
Proof.
  rewrite !filter_duplicates_filter, filter_app. split; [done|].
  induction a as [|x a IH]; [done|].
  rewrite filter_cons_True; [by rewrite IH|].
  intros [_ Hin]. by apply not_elem_of_empty in Hin.
Qed.

(** X3. Against the contacts read back from the stored rows, a lead of the batch
    is dropped exactly when it has both a domain and an e-mail and some stored
    row with both fields has the same pair. *)
Theorem filter_duplicates_stored (rows profiles : list pydict) (lead : pydict) :
  lead ∈ profiles →
  (lead ∈ filter_duplicates profiles (Supabase.get_existing_contacts (Ok rows))
   ↔ ¬ (has_identity lead
        ∧ ∃ row, row ∈ rows
                 ∧ get row "company_domain" = get lead "company_domain"
                 ∧ get row "email" = get lead "email")).
Proof.
  intros Hin. rewrite filter_duplicates_filter, list_elem_of_filter.
  unfold known_contact. rewrite get_existing_contacts_elem.
  split.
  - intros [Hn _] [Hid (row & Hrow & Hd & He)]. apply Hn. split; [done|].
    exists row. split; [done|]. split; [|done].
    destruct Hid as [H1 H2]. unfold has_identity. by rewrite Hd, He.
  - intros Hn. split; [|done]. intros [Hid (row & Hrow & _ & Hd & He)].
    apply Hn. split; [done|]. by exists row.
Qed.

Lemma filter_duplicates_stored_witness :
  let stored : pydict :=
    {[ "company_domain" := PStr "a.com"; "email" := PStr "x@a.com";
       "status" := PStr "sent" ]} in
  let fresh : pydict :=
    {[ "company_domain" := PStr "a.com"; "email" := PStr "x@a.com" ]} in
  fresh ∈ filter_duplicates [fresh]
            (Supabase.get_existing_contacts (Ok [stored]))
  ↔ ¬ (has_identity fresh
       ∧ ∃ row, row ∈ [stored]
                ∧ get row "company_domain" = get fresh "company_domain"
                ∧ get row "email" = get fresh "email").
Proof.
  intros stored fresh.
  apply (filter_duplicates_stored [stored] [fresh] fresh).
  apply list_elem_of_here.
Defined.

End MoreDedup.

Lemma filter_length_impl {A} (P Q : A → Prop) `{∀ x, Decision (P x)}
    `{∀ x, Decision (Q x)} (l : list A) :
  (∀ x, P x → Q x) → (length (filter P l) ≤ length (filter Q l))%nat.
Proof.
  intros Himp. induction l as [|a l IH]; [done|].
  destruct (decide (P a)) as [Hp|Hp].
  - rewrite (filter_cons_True P), (filter_cons_True Q) by auto. simpl. lia.
  - rewrite (filter_cons_False P) by done.
    destruct (decide (Q a)).
    + rewrite (filter_cons_True Q) by done. simpl. lia.
    + by rewrite (filter_cons_False Q).
Qed.

Section MoreCooldown.
Import Datetime.

Lemma filter_cooldown_loop_step (m : gmap string pyval) thr p rest filtered :
  filter_cooldown_loop (p :: rest) m thr filtered
  = match cooldown_keeps m thr p with
    | Ok true => filter_cooldown_loop rest m thr (filtered ++ [p])
    | Ok false => filter_cooldown_loop rest m thr filtered
    | Raise e => Raise e
    end.
Proof.
  simpl. unfold cooldown_keeps.
  destruct (negb (truthy (get p "company_domain"))); [done|].
  by destruct (contacted_recently _ _) as [[]|e].
Qed.

(** The loop returns exactly when every decision is made without an
    exception, and then returns the kept profiles behind what it had. *)
Lemma filter_cooldown_loop_filter (m : gmap string pyval) thr profiles :
  ∀ filtered out,
    filter_cooldown_loop profiles m thr filtered = Ok out ↔
    Forall (λ p, ∃ b, cooldown_keeps m thr p = Ok b) profiles
    ∧ out = filtered ++ filter (λ p, cooldown_keeps m thr p = Ok true) profiles.
Proof.
  induction profiles as [|p rest IH]; intros filtered out.
  - simpl. rewrite app_nil_r.
    split; [intros [= <-]; by split | by intros [_ ->]].
  - rewrite filter_cooldown_loop_step, Forall_cons.
    destruct (cooldown_keeps m thr p) as [[]|e] eqn:Hk.
    + rewrite IH, filter_cons_True, <- app_assoc by done. simpl.
      split; [intros [? ->]; eauto | intros [[_ ?] ->]; eauto].
    + rewrite IH, filter_cons_False by congruence.
      split; [intros [? ->]; eauto | intros [[_ ?] ->]; eauto].
    + split; [done | by intros [[[b ?] _] _]].
Qed.

Lemma filter_cooldown_filter now days (m : gmap string pyval) profiles out :
  filter_cooldown now profiles m days = Ok out ↔
  ∃ thr, sub_days now days = Ok thr
         ∧ Forall (λ p, ∃ b, cooldown_keeps m thr p = Ok b) profiles
         ∧ out = filter (λ p, cooldown_keeps m thr p = Ok true) profiles.
Proof.
  unfold filter_cooldown. destruct (sub_days now days) as [thr|e]; simpl.
  - rewrite filter_cooldown_loop_filter. simpl. split.
    + intros [? ->]. by exists thr.
    + by intros (? & [= <-] & ? & ->).
  - split; [done | by intros (? & ? & _)].
Qed.

(** A later threshold keeps whatever an earlier one keeps, and raises
    exactly when the earlier one does. *)
Lemma cooldown_keeps_mono (m : gmap string pyval) thr1 thr2 p :
  thr2 ≤ thr1 →
  (cooldown_keeps m thr2 p = Ok true → cooldown_keeps m thr1 p = Ok true)
  ∧ ((∃ b, cooldown_keeps m thr2 p = Ok b)
     ↔ ∃ b, cooldown_keeps m thr1 p = Ok b).
Proof.
  intros Hle. unfold cooldown_keeps.
  destruct (negb (truthy (get p "company_domain"))); [by eauto|].
  unfold contacted_recently.
  destruct (truthy (lookup_contact m (get p "company_domain")));
    [|by eauto].
  destruct (lookup_contact m (get p "company_domain")) as [|s|z]; simpl;
    [split; [done | split; intros [? ?]; done] | |
     split; [done | split; intros [? ?]; done]].
  destruct (fromisoformat _) as [dt|e]; simpl;
    [|split; [done | split; intros [? ?]; done]].
  unfold gt_aware. destruct (tzinfo dt) as [off|]; simpl;
    [|split; [done | split; intros [? ?]; done]].
  split; [|split; eauto].
  intros [= H]. f_equal. apply negb_true_iff, Z.ltb_ge in H.
  apply negb_true_iff, Z.ltb_ge. lia.
Qed.

(** X4. Cooldown monotonicity: with the same clock, batch and contact map, a
    longer cooldown returns whenever the shorter one does (the threshold
    staying in range), and every lead it keeps is kept by the shorter one. *)
Theorem filter_cooldown_monotone (now d1 d2 thr2 : Z) (profiles : list pydict)
    (m : gmap string pyval) (out1 : list pydict) :
  d1 ≤ d2 →
  sub_days now d2 = Ok thr2 →
  filter_cooldown now profiles m d1 = Ok out1 →
  ∃ out2, filter_cooldown now profiles m d2 = Ok out2
          ∧ (∀ lead, lead ∈ out2 → lead ∈ out1)
          ∧ (length out2 ≤ length out1)%nat.
Proof.
  intros Hd H2 H1.
  apply filter_cooldown_filter in H1 as (thr1 & Ht1 & Hall & ->).
  pose proof (sub_days_ok _ _ _ Ht1) as E1.
  pose proof (sub_days_ok _ _ _ H2) as E2.
  assert (Hle : thr2 ≤ thr1).
  { subst. unfold us_per_day, us_per_second. nia. }
  exists (filter (λ p, cooldown_keeps m thr2 p = Ok true) profiles).
  split; [|split].
  - apply filter_cooldown_filter. exists thr2. split; [done|]. split; [|done].
    eapply Forall_impl; [exact Hall|]. intros p Hp. simpl in *.
    by apply (cooldown_keeps_mono m thr1 thr2 p Hle).
  - intros lead. rewrite !list_elem_of_filter. intros [Hk Hin]. split; [|done].
    by apply (cooldown_keeps_mono m thr1 thr2 lead Hle).
  - apply filter_length_impl. intros p.
    by apply (cooldown_keeps_mono m thr1 thr2 p Hle).
Qed.

Lemma filter_cooldown_monotone_witness :
  ∃ out2,
    filter_cooldown (utc_midnight 2024 4 1)
      [ {[ "company_domain" := PStr "a.com" ]} ]
      {[ "a.com" := PStr "2024-02-01T00:00:00Z" ]} 90 = Ok out2
    ∧ (∀ lead, lead ∈ out2 → lead ∈ [ {[ "company_domain" := PStr "a.com" ]} ])
    ∧ (length out2 ≤ length [ ({[ "company_domain" := PStr "a.com" ]} : pydict) ])%nat.
Proof.
  refine (filter_cooldown_monotone (utc_midnight 2024 4 1) 30 90
            (utc_midnight 2024 4 1 - 90 * us_per_day)
            [ {[ "company_domain" := PStr "a.com" ]} ]
            {[ "a.com" := PStr "2024-02-01T00:00:00Z" ]}
            [ {[ "company_domain" := PStr "a.com" ]} ] _ _ _).
  - lia.
  - vm_compute. reflexivity.
  - vm_compute. reflexivity.
Defined.

(** X5. What [filter_cooldown] returns is the batch with some leads left out:
    the order is kept and no lead is altered or added. *)
Theorem filter_cooldown_sublist (now days : Z) (profiles : list pydict)
    (m : gmap string pyval) (out : list pydict) :
  filter_cooldown now profiles m days = Ok out →
  sublist out profiles ∧ (length out ≤ length profiles)%nat.
Proof.
  intros H. apply filter_cooldown_filter in H as (thr & _ & _ & ->).
  split; [apply sublist_filter | apply length_filter].
Qed.

Lemma filter_cooldown_sublist_witness :
  sublist [ ({[ "company_domain" := PStr "b.com" ]} : pydict) ]
    [ {[ "company_domain" := PStr "a.com" ]};
      {[ "company_domain" := PStr "b.com" ]} ]
  ∧ (1 ≤ 2)%nat.
Proof.
  apply (filter_cooldown_sublist (utc_midnight 2024 4 1) 90
           [ {[ "company_domain" := PStr "a.com" ]};
             {[ "company_domain" := PStr "b.com" ]} ]
           {[ "a.com" := PStr "2024-03-01T00:00:00Z" ]}
           [ {[ "company_domain" := PStr "b.com" ]} ]).
  vm_compute. reflexivity.
Defined.

(** X6. Leads without a domain, and leads whose domain has no recorded contact
    (or an empty one), always pass: a batch made of such leads comes back
    whole, whatever the cooldown, as long as the threshold is in range. *)
Theorem filter_cooldown_no_history (now days thr : Z) (profiles : list pydict)
    (m : gmap string pyval) :
  sub_days now days = Ok thr →
  Forall (λ p, truthy (get p "company_domain") = false
               ∨ truthy (lookup_contact m (get p "company_domain")) = false)
    profiles →
  filter_cooldown now profiles m days = Ok profiles.
Proof.
  intros Hthr Hall. apply filter_cooldown_filter. exists thr.
  split; [done|].
  assert (Hk : Forall (λ p, cooldown_keeps m thr p = Ok true) profiles).
  { eapply Forall_impl; [exact Hall|]. intros p Hp. simpl in Hp.
    unfold cooldown_keeps, contacted_recently.
    destruct (truthy (get p "company_domain")); simpl; [|done].
    destruct Hp as [Hp|Hp]; [done|]. by rewrite Hp. }
  split.
  - eapply Forall_impl; [exact Hk|]. intros p Hp. by exists true.
  - clear Hall. induction Hk as [|p rest Hp _ IH]; [done|].
    rewrite filter_cons_True by done. by f_equal.
Qed.

Lemma filter_cooldown_no_history_witness :
  filter_cooldown (utc_midnight 2024 4 1)
    [ {[ "email" := PStr "x@a.com" ]}; {[ "company_domain" := PStr "b.com" ]} ]
    {[ "a.com" := PStr "2024-03-01T00:00:00Z" ]} 90
  = Ok [ {[ "email" := PStr "x@a.com" ]};
         {[ "company_domain" := PStr "b.com" ]} ].
Proof.
  apply (filter_cooldown_no_history (utc_midnight 2024 4 1) 90
           (utc_midnight 2024 4 1 - 90 * us_per_day)).
  - vm_compute. reflexivity.
  - apply Forall_cons. split; [left; vm_compute; reflexivity|].
    apply Forall_cons. split; [right; vm_compute; reflexivity|].
    apply Forall_nil_2.
Defined.

(** X7. A cooldown so long that the threshold would fall before year 1 makes
    [filter_cooldown] raise an [OverflowError], even on an empty batch. *)
Theorem filter_cooldown_overflow (now days : Z) (profiles : list pydict)
    (m : gmap string pyval) :
  now / us_per_day ≤ days →
  filter_cooldown now profiles m days = Raise OverflowError.
Proof.
  intros Hd. unfold filter_cooldown, sub_days, timedelta_days, sub_timedelta.
  destruct ((-999999999 <=? days) && (days <=? 999999999)); simpl; [|done].
  replace ((now - days * us_per_day) / us_per_day)
    with (now / us_per_day - days).
  - destruct (0 <? now / us_per_day - days) eqn:E; [|done].
    apply Z.ltb_lt in E. lia.
  - replace (now - days * us_per_day) with (now + (- days) * us_per_day) by lia.
    rewrite Z.div_add by (unfold us_per_day, us_per_second; lia). lia.
Qed.

Lemma filter_cooldown_overflow_witness :
  filter_cooldown (utc_midnight 2024 4 1) [] ∅ 800000 = Raise OverflowError.
Proof.
  apply filter_cooldown_overflow. vm_compute. discriminate.
Defined.

Lemma parse_digits_replace (n : nat) :
  ∀ s acc,
    parse_digits n s acc = None →
    parse_digits n (Str.replace1 "Z" "+00:00" s) acc = None.
Proof.
  induction n as [|n IH]; intros s acc; [done|].
  destruct s as [|c r]; [done|]. cbn [parse_digits Str.replace1].
  destruct (Ascii.eqb c "Z"); [by simpl_app|].
  cbn [parse_digits]. destruct (Str.is_digit c); [apply IH | done].
Qed.

Lemma begins_with_year_digits (s : string) :
  begins_with_year s = false → parse_digits 4 s 0 = None.
Proof.
  destruct s as [|a [|b [|c [|d r]]]]; cbn [begins_with_year parse_digits];
    try done; repeat (destruct (Str.is_digit _); try done).
Qed.

Lemma fromisoformat_no_year (s : string) :
  begins_with_year s = false →
  fromisoformat (Str.replace1 "Z" "+00:00" s) = Raise ValueError.
Proof.
  intros H. unfold fromisoformat, parse_isoformat_date.
  by rewrite (parse_digits_replace _ _ _ (begins_with_year_digits _ H)).
Qed.

(** X8. One unreadable timestamp fails the whole batch: when some lead of the
    batch has a domain whose recorded contact is a non-empty text that does
    not begin with the four digits of a year, [fromisoformat] refuses it and
    [filter_cooldown] returns no list at all. *)
Theorem filter_cooldown_bad_timestamp (now days : Z) (profiles : list pydict)
    (m : gmap string pyval) (lead : pydict) (d s : string) :
  lead ∈ profiles →
  get lead "company_domain" = PStr d → d ≠ "" →
  m !! d = Some (PStr s) → s ≠ "" →
  begins_with_year s = false →
  ∀ out, filter_cooldown now profiles m days ≠ Ok out.
Proof.
  intros Hin Hd Hne Hm Hs Hyear out H.
  pose proof (fromisoformat_no_year s Hyear) as Hparse.
  apply filter_cooldown_filter in H as (thr & _ & Hall & _).
  rewrite Forall_forall in Hall. destruct (Hall lead Hin) as [b Hb].
  unfold cooldown_keeps in Hb. rewrite Hd in Hb. simpl in Hb.
  apply String.eqb_neq in Hne, Hs. rewrite Hne, Hm in Hb. simpl in Hb.
  unfold contacted_recently in Hb. simpl in Hb. rewrite Hs in Hb.
  simpl in Hb. rewrite Hparse in Hb. discriminate.
Qed.

Lemma filter_cooldown_bad_timestamp_witness :
  ¬ ∃ out,
    filter_cooldown (utc_midnight 2024 4 1)
      [ {[ "company_domain" := PStr "b.com" ]};
        {[ "company_domain" := PStr "a.com" ]} ]
      {[ "a.com" := PStr "01/03/2024" ]} 90 = Ok out.
Proof.
  intros [out H]. revert H.
  apply (filter_cooldown_bad_timestamp (utc_midnight 2024 4 1) 90 _ _
           {[ "company_domain" := PStr "a.com" ]} "a.com" "01/03/2024").
  - apply list_elem_of_further, list_elem_of_here.
  - reflexivity.
  - discriminate.
  - reflexivity.
  - discriminate.
  - reflexivity.
Defined.

(** X9. The two batch filters commute: when the cooldown filter returns on a
    batch, it also returns on the deduplicated batch, and gives the
    deduplication of its first result. *)
Theorem filter_cooldown_after_duplicates (now days : Z)
    (profiles : list pydict) (m : gmap string pyval)
    (S : gset (pyval * pyval)) (out : list pydict) :
  filter_cooldown now profiles m days = Ok out →
  filter_cooldown now (filter_duplicates profiles S) m days
  = Ok (filter_duplicates out S).
Proof.
  intros H. apply filter_cooldown_filter in H as (thr & Hthr & Hall & ->).
  apply filter_cooldown_filter. exists thr. split; [done|].
  rewrite !filter_duplicates_filter. split.
  - rewrite Forall_forall in *. intros p Hp. apply Hall.
    by apply list_elem_of_filter in Hp as [_ ?].
  - rewrite !list_filter_filter. apply filter_agree. intros ? _. tauto.
Qed.

Lemma filter_cooldown_after_duplicates_witness :
  let a : pydict := {[ "company_domain" := PStr "a.com"; "email" := PStr "x@a.com" ]} in
  let b : pydict := {[ "company_domain" := PStr "b.com"; "email" := PStr "y@b.com" ]} in
  let S : gset (pyval * pyval) := {[ (PStr "b.com", PStr "y@b.com") ]} in
  filter_cooldown (utc_midnight 2024 4 1) (filter_duplicates [a; b] S) ∅ 90
  = Ok (filter_duplicates [a; b] S).
Proof.
  intros a b S.
  apply (filter_cooldown_after_duplicates (utc_midnight 2024 4 1) 90 [a; b] ∅ S).
  vm_compute. reflexivity.
Defined.

End MoreCooldown.

(** * Scraping and extraction of leads *)

Section Companies.
Import JobScraper Main.

Lemma dedupe_loop_spec (all_jobs : list pydict) :
  ∀ (seen : gset pyval) (unique_jobs : list pydict),
  ∃ res,
    dedupe_loop all_jobs seen unique_jobs = unique_jobs ++ res
    ∧ sublist res all_jobs
    ∧ NoDup (company_of <$> res)
    ∧ (∀ j, j ∈ res → truthy (company_of j) = true ∧ company_of j ∉ seen)
    ∧ (∀ j, j ∈ all_jobs → truthy (company_of j) = true →
            company_of j ∈ seen ∨ company_of j ∈ company_of <$> res)
    ∧ (∀ pre j post, all_jobs = pre ++ j :: post →
            truthy (company_of j) = true → company_of j ∉ seen →
            company_of j ∉ company_of <$> pre → j ∈ res).
Proof.
  induction all_jobs as [|a rest IH]; intros seen acc; simpl.
  - exists []. rewrite app_nil_r. split; [done|]. split; [done|].
    split; [constructor|].
    split; [intros j Hj; by apply elem_of_nil in Hj|].
    split; [intros j Hj; by apply elem_of_nil in Hj|].
    intros pre j post E. by destruct pre.
  - fold (company_of a).
    destruct (truthy (company_of a)) eqn:Ht; simpl.
    + case_bool_decide as Hseen; simpl.
      * destruct (IH seen acc) as (res & E & Hsub & Hnd & Hres & Hcov & Hfst).
        exists res. split; [done|]. split; [by apply sublist_cons|].
        split; [done|]. split; [done|]. split.
        -- intros j Hj Htj. apply elem_of_cons in Hj as [->|Hj]; [by left|].
           by apply Hcov.
        -- intros pre j post E' Htj Hns Hnp. destruct pre as [|x pre].
           ++ simpl in E'. injection E' as -> ->. done.
           ++ simpl in E'. injection E' as -> ->.
              apply (Hfst pre j post eq_refl Htj Hns).
              intros Hin. apply Hnp. rewrite fmap_cons. by right.
      * destruct (IH ({[company_of a]} ∪ seen) (acc ++ [a]))
          as (res & E & Hsub & Hnd & Hres & Hcov & Hfst).
        exists (a :: res). rewrite E, <- app_assoc. split; [done|].
        split; [by apply sublist_skip|].
        split.
        { rewrite fmap_cons. apply NoDup_cons. split; [|done].
          intros Hin. apply list_elem_of_fmap in Hin as (j & Hj & Hjr).
          destruct (Hres j Hjr) as [_ Hns]. apply Hns. rewrite <- Hj.
          apply elem_of_union_l. by apply elem_of_singleton. }
        split.
        { intros j Hj. apply elem_of_cons in Hj as [->|Hj]; [done|].
          destruct (Hres j Hj) as [? Hns]. split; [done|].
          intros Hin. apply Hns. by apply elem_of_union_r. }
        split.
        { intros j Hj Htj. rewrite fmap_cons.
          apply elem_of_cons in Hj as [->|Hj]; [right; by left|].
          destruct (Hcov j Hj Htj) as [Hin|Hin].
          - apply elem_of_union in Hin as [Hin|Hin]; [|by left].
            apply elem_of_singleton in Hin. right. rewrite Hin. by left.
          - right. by right. }
        intros pre j post E' Htj Hns Hnp. destruct pre as [|x pre].
        -- simpl in E'. injection E' as -> ->. by left.
        -- simpl in E'. injection E' as -> ->. right.
           apply (Hfst pre j post eq_refl Htj).
           ++ intros Hin. apply elem_of_union in Hin as [Hin|Hin]; [|done].
              apply elem_of_singleton in Hin. apply Hnp. rewrite fmap_cons.
              rewrite Hin. by left.
           ++ intros Hin. apply Hnp. rewrite fmap_cons. by right.
    + destruct (IH seen acc) as (res & E & Hsub & Hnd & Hres & Hcov & Hfst).
      exists res. split; [done|]. split; [by apply sublist_cons|].
      split; [done|]. split; [done|]. split.
      * intros j Hj Htj. apply elem_of_cons in Hj as [->|Hj]; [congruence|].
        by apply Hcov.
      * intros pre j post E' Htj Hns Hnp. destruct pre as [|x pre].
        -- simpl in E'. injection E' as -> ->. congruence.
        -- simpl in E'. injection E' as -> ->.
           apply (Hfst pre j post eq_refl Htj Hns).
           intros Hin. apply Hnp. rewrite fmap_cons. by right.
Qed.

(** X10. The company deduplication keeps the jobs in their order, one per company
    name, none without a name; every named company of the input is kept, and
    the job kept for it is the first one that carries the name. *)
Theorem dedupe_by_company (all_jobs : list pydict) :
  let unique_jobs := dedupe_loop all_jobs ∅ [] in
  sublist unique_jobs all_jobs
  ∧ NoDup (company_of <$> unique_jobs)
  ∧ (∀ j, j ∈ unique_jobs → truthy (company_of j) = true)
  ∧ (∀ j, j ∈ all_jobs → truthy (company_of j) = true →
          company_of j ∈ company_of <$> unique_jobs)
  ∧ (∀ pre j post, all_jobs = pre ++ j :: post →
          truthy (company_of j) = true →
          company_of j ∉ company_of <$> pre → j ∈ unique_jobs).
Proof.
  destruct (dedupe_loop_spec all_jobs ∅ [])
    as (res & E & Hsub & Hnd & Hres & Hcov & Hfst).
  simpl in E. simpl. rewrite E.
  split; [done|]. split; [done|]. split; [intros j Hj; by apply Hres|].
  split.
  - intros j Hj Htj. destruct (Hcov j Hj Htj) as [Hin|Hin]; [|done].
    by apply not_elem_of_empty in Hin.
  - intros pre j post E' Htj Hnp. apply (Hfst pre j post E' Htj); [|done].
    apply not_elem_of_empty.
Qed.

Lemma dedupe_by_company_witness :
  let a1 : pydict := {[ "company_name" := PStr "Acme"; "job_title" := PStr "CRO" ]} in
  let a2 : pydict := {[ "company_name" := PStr "Acme"; "job_title" := PStr "CMO" ]} in
  a1 ∈ dedupe_loop [a1; a2] ∅ [].
Proof.
  intros a1 a2.
  apply (proj2 (proj2 (proj2 (proj2 (dedupe_by_company [a1; a2]))))
           [] a1 [a2]).
  - reflexivity.
  - reflexivity.
  - apply not_elem_of_nil.
Defined.

Lemma slice_to_sublist {A} (l : list A) (n : Z) : sublist (slice_to l n) l.
Proof. unfold slice_to. case_match; apply sublist_take. Qed.

Lemma slice_to_length {A} (l : list A) (n : Z) :
  0 ≤ n → (length (slice_to l n) ≤ Z.to_nat n)%nat.
Proof.
  intros Hn. unfold slice_to. apply Z.leb_le in Hn. rewrite Hn.
  rewrite length_take. lia.
Qed.

Lemma scrape_single_keyword_fail e : _scrape_single_keyword (Raise e) = [].
Proof. reflexivity. Qed.

(** Every job the search loop adds carries the keyword it was found with. *)
Lemma search_loop_tagged scrape url_of (keywords : list string) :
  ∀ all_jobs j,
    j ∈ search_loop scrape url_of keywords all_jobs →
    j ∈ all_jobs
    ∨ ∃ k, k ∈ keywords ∧ j !! "source_keyword" = Some (PStr k).
Proof.
  induction keywords as [|k rest IH]; intros all_jobs j; simpl; [by left|].
  intros Hj. apply IH in Hj as [Hj|(k' & Hk' & Hj)].
  - assert (Hin : j ∈ all_jobs
                  ∨ j ∈ tag_jobs k (_scrape_single_keyword (scrape (url_of k)))).
    { destruct (tag_jobs k _); [by left|].
      apply elem_of_app in Hj as [?|?]; [by left | by right]. }
    destruct Hin as [?|Hin]; [by left|]. right. exists k. split; [by left|].
    unfold tag_jobs in Hin. apply list_elem_of_fmap in Hin as (j0 & -> & _).
    apply lookup_insert_eq.
  - right. exists k'. split; [by right | done].
Qed.

(** X11. [scrape_jobs] returns at most [limit] jobs (for a limit that is not
    negative), no two of the same company, each with a company name and each
    tagged with one of the keywords that were searched. *)
Theorem scrape_jobs_result (scrape : string → result (list item)) (limit : Z)
    (keywords : option (list string)) (location geo_id : string) :
  let out := scrape_jobs scrape limit keywords location geo_id in
  NoDup (company_of <$> out)
  ∧ (∀ j, j ∈ out →
       truthy (company_of j) = true
       ∧ ∃ k, k ∈ default default_keywords keywords
              ∧ j !! "source_keyword" = Some (PStr k))
  ∧ (0 ≤ limit → (length out ≤ Z.to_nat limit)%nat).
Proof.
  intros out. unfold out, scrape_jobs.
  set (all_jobs := search_loop _ _ _ _).
  destruct (dedupe_loop_spec all_jobs ∅ [])
    as (res & E & Hsub & Hnd & Hres & _). simpl in E. rewrite E.
  split; [|split].
  - eapply sublist_NoDup; [exact Hnd|].
    apply fmap_sublist, slice_to_sublist.
  - intros j Hj. pose proof (elem_of_sublist _ _ _ Hj (slice_to_sublist _ _))
      as Hjr.
    split; [by apply Hres|].
    pose proof (elem_of_sublist _ _ _ Hjr Hsub) as Hja.
    apply search_loop_tagged in Hja as [Hja|?]; [|done].
    by apply elem_of_nil in Hja.
  - apply slice_to_length.
Qed.

Lemma scrape_jobs_result_witness :
  (length (scrape_jobs (λ _, Ok [ItemList [ {[ "company_name" := PStr "Acme" ]};
                                            {[ "company_name" := PStr "Bolt" ]} ]])
             1 (Some ["VP Sales"]) "France" "105015875")
   ≤ Z.to_nat 1)%nat.
Proof.
  apply (proj2 (proj2 (scrape_jobs_result _ 1 (Some ["VP Sales"]) "France"
                         "105015875"))).
  lia.
Defined.

Lemma job_to_lead_dom (job : pydict) :
  dom (job_to_lead job)
  = {[ "company_name"; "job_title"; "job_url"; "location"; "source_keyword";
       "posted_date" ]}.
Proof.
  unfold job_to_lead. rewrite !dom_insert_L, dom_empty_L. set_solver.
Qed.

Lemma job_to_lead_company (job : pydict) :
  truthy (company_of job) = true →
  get (job_to_lead job) "company_name" = company_of job.
Proof.
  intros Ht. unfold job_to_lead, get. rewrite lookup_insert_eq. simpl.
  unfold company_of, get_or, get in *.
  destruct (job !! "company_name"); [done | discriminate Ht].
Qed.

Lemma job_to_lead_keyword (job : pydict) :
  get (job_to_lead job) "source_keyword" = get job "source_keyword".
Proof.
  unfold job_to_lead, get at 1. rewrite !lookup_insert_ne by done.
  by rewrite lookup_insert_eq.
Qed.

(** X12. The leads that [main] extracts from the job listings have exactly six
    keys each, carry a company name and the keyword of their search, are at
    most [count * len(keywords)] (for a count that is not negative), and no two
    of them name the same company. *)
Theorem extract_leads_result (scrape : string → result (list item))
    (count : Z) (keywords : list string) (leads : list pydict) :
  extract_leads scrape count keywords = Some leads →
  NoDup ((λ lead, get lead "company_name") <$> leads)
  ∧ (∀ lead, lead ∈ leads →
       dom lead = {[ "company_name"; "job_title"; "job_url"; "location";
                     "source_keyword"; "posted_date" ]}
       ∧ truthy (get lead "company_name") = true
       ∧ ∃ k, k ∈ keywords ∧ get lead "source_keyword" = PStr k)
  ∧ (0 ≤ count →
     (length leads ≤ Z.to_nat (count * Z.of_nat (length keywords)))%nat).
Proof.
  unfold extract_leads. set (all_jobs := search_loop _ _ _ _).
  destruct (dedupe_loop_spec all_jobs ∅ [])
    as (res & E & Hsub & Hnd & Hres & _). simpl in E. rewrite E.
  set (n := count * Z.of_nat (length keywords)).
  intros Hsome.
  assert (Hleads : leads = job_to_lead <$> slice_to res n).
  { destruct res; [discriminate Hsome | by injection Hsome]. }
  clear Hsome. subst leads.
  pose proof (slice_to_sublist res n) as Hsl.
  split; [|split].
  - rewrite <- list_fmap_compose.
    assert (Heq : (λ lead, get lead "company_name") ∘ job_to_lead
                    <$> slice_to res n
                  = company_of <$> slice_to res n).
    { apply list_fmap_ext. intros i j Hj. simpl.
      apply job_to_lead_company, Hres.
      eapply elem_of_sublist; [|exact Hsl]. by eapply list_elem_of_lookup_2. }
    rewrite Heq. eapply sublist_NoDup; [exact Hnd|]. by apply fmap_sublist.
  - intros lead Hlead. apply list_elem_of_fmap in Hlead as (j & -> & Hj).
    pose proof (elem_of_sublist _ _ _ Hj Hsl) as Hjr.
    destruct (Hres j Hjr) as [Ht _].
    split; [apply job_to_lead_dom|]. split.
    + by rewrite job_to_lead_company.
    + pose proof (elem_of_sublist _ _ _ Hjr Hsub) as Hja.
      apply search_loop_tagged in Hja as [Hja|(k & Hk & Hjk)];
        [by apply elem_of_nil in Hja|].
      exists k. split; [done|]. rewrite job_to_lead_keyword.
      unfold get. by rewrite Hjk.
  - intros Hc. rewrite length_fmap. apply slice_to_length. unfold n. lia.
Qed.

Lemma extract_leads_result_witness :
  let leads := [ job_to_lead {[ "company_name" := PStr "Acme";
                                "source_keyword" := PStr "CRO" ]} ] in
  NoDup ((λ lead, get lead "company_name") <$> leads)
  ∧ (∀ lead, lead ∈ leads →
       dom lead = {[ "company_name"; "job_title"; "job_url"; "location";
                     "source_keyword"; "posted_date" ]}
       ∧ truthy (get lead "company_name") = true
       ∧ ∃ k, k ∈ ["CRO"] ∧ get lead "source_keyword" = PStr k)
  ∧ (0 ≤ 5 → (length leads ≤ Z.to_nat (5 * Z.of_nat (length ["CRO"])))%nat).
Proof.
  intros leads.
  apply (extract_leads_result
           (λ _, Ok [ItemDict {[ "company_name" := PStr "Acme" ]};
                     ItemDict {[ "company_name" := PStr "Acme" ]}])
           5 ["CRO"] leads).
  vm_compute. reflexivity.
Defined.

End Companies.

(** * Campaign upload *)

Section Upload.
Import Campaign.

Lemma chunks_concat {A} (n : nat) :
  ∀ l : list A,
    (length l ≤ n * batch_size)%nat →
    concat ((λ k, take batch_size (drop (k * batch_size) l)) <$> seq 0 n) = l.
Proof.
  induction n as [|n IH]; intros l Hl.
  - simpl in *. destruct l; [done | simpl in Hl; lia].
  - rewrite <- cons_seq, fmap_cons. simpl concat. rewrite <- fmap_S_seq.
    rewrite <- list_fmap_compose.
    assert (E : (λ k, take batch_size (drop (k * batch_size) l)) ∘ S
                  <$> seq 0 n
                = (λ k, take batch_size
                          (drop (k * batch_size) (drop batch_size l)))
                  <$> seq 0 n).
    { apply list_fmap_ext. intros i k _. unfold compose. rewrite drop_drop.
      do 2 f_equal; lia. }
    rewrite E, IH.
    + simpl. apply take_drop.
    + rewrite length_drop. unfold batch_size in *. lia.
Qed.

Lemma batch_count_bounds (n : nat) :
  (n ≤ (n + (batch_size - 1)) / batch_size * batch_size)%nat
  ∧ (∀ k, k < (n + (batch_size - 1)) / batch_size → k * batch_size < n)%nat.
Proof.
  unfold batch_size.
  pose proof (Nat.div_mod_eq (n + (100 - 1)) 100) as E.
  pose proof (Nat.mod_upper_bound (n + (100 - 1)) 100) as U.
  split; [lia|]. intros k Hk. nia.
Qed.

(** X13. Batching loses nothing and respects the size limit: the batches, in
    order, make up the list of leads again, and each batch holds between 1 and
    100 leads. *)
Theorem batches_partition {A} (smartlead_leads : list A) :
  concat (batches smartlead_leads) = smartlead_leads
  ∧ Forall (λ batch, (1 ≤ length batch ≤ 100)%nat) (batches smartlead_leads).
Proof.
  unfold batches, batch_starts. rewrite <- list_fmap_compose.
  destruct (batch_count_bounds (length smartlead_leads)) as [Hup Hlow].
  split.
  - by apply chunks_concat.
  - apply Forall_fmap, Forall_forall. intros k Hk. simpl.
    apply elem_of_seq in Hk as [_ Hk]. simpl in Hk.
    specialize (Hlow k Hk). rewrite length_take, length_drop.
    unfold batch_size in *. lia.
Qed.

Lemma record_batch_total post ign st (b : list (gmap string field)) :
  total (record_batch post ign st b) = total st + counted post ign b.
Proof.
  unfold record_batch, counted.
  destruct (post _) as [msg|result]; [lia|]. simpl.
  destruct (add_int _ _); simpl; [|done].
  destruct (add_int _ _); simpl; [|done].
  by destruct (add_int _ _).
Qed.

Lemma fold_record_batch_total post ign (bs : list (list (gmap string field))) :
  ∀ st,
    total (fold_left (record_batch post ign) bs st)
    = total st + foldr Z.add 0 (counted post ign <$> bs).
Proof.
  induction bs as [|b bs IH]; intros st; [simpl; lia|].
  rewrite fmap_cons. cbn [fold_left foldr].
  rewrite IH, record_batch_total. lia.
Qed.

Lemma counted_bounds post ign (bs : list (list (gmap string field))) :
  0 ≤ foldr Z.add 0 (counted post ign <$> bs)
    ≤ Z.of_nat (length (concat bs)).
Proof.
  induction bs as [|b bs IH]; [simpl; lia|].
  rewrite fmap_cons. cbn [foldr concat]. rewrite length_app.
  assert (0 ≤ counted post ign b ≤ Z.of_nat (length b)).
  { unfold counted. destruct (post _); lia. }
  lia.
Qed.

Lemma counted_all post ign (bs : list (list (gmap string field))) :
  (∀ r, ∃ result, post r = BatchResult result) →
  foldr Z.add 0 (counted post ign <$> bs) = Z.of_nat (length (concat bs)).
Proof.
  intros Hall. induction bs as [|b bs IH]; [done|].
  rewrite fmap_cons. cbn [foldr concat]. rewrite length_app, IH.
  unfold counted.
  destruct (Hall {| lead_list := b; ignore_global_block_list := false;
                    ignore_unsubscribe_list := false;
                    ignore_duplicate_leads_in_other_campaign := ign |})
    as [result ->]. lia.
Qed.

(** X14. The total that [add_leads_to_campaign] reports counts, batch by batch,
    the leads of the requests that were answered; it never exceeds the number
    of leads, it equals that number when every request is answered, and it is 0
    when every request fails. *)
Theorem add_leads_total (post : request → batch_reply) (leads : list pydict)
    (ignore_duplicates : bool) :
  let st := add_leads_to_campaign post leads ignore_duplicates in
  total st
  = foldr Z.add 0
      (counted post ignore_duplicates <$> batches (_transform_lead <$> leads))
  ∧ 0 ≤ total st ≤ Z.of_nat (length leads)
  ∧ ((∀ r, ∃ result, post r = BatchResult result) →
     total st = Z.of_nat (length leads))
  ∧ ((∀ r, ∃ msg, post r = BatchFailure msg) →
     st = {| total := 0; added := 0; duplicates := 0; invalid := 0 |}).
Proof.
  intros st.
  assert (Ht : total st
    = foldr Z.add 0
        (counted post ignore_duplicates <$> batches (_transform_lead <$> leads))).
  { unfold st, add_leads_to_campaign. destruct leads as [|l leads]; [done|].
    by rewrite fold_record_batch_total. }
  destruct (batches_partition (_transform_lead <$> leads)) as [Hcat _].
  split; [exact Ht|]. split; [|split].
  - rewrite Ht.
    pose proof (counted_bounds post ignore_duplicates
                  (batches (_transform_lead <$> leads))) as Hb.
    rewrite Hcat, length_fmap in Hb. exact Hb.
  - intros Hall. rewrite Ht, (counted_all post ignore_duplicates _ Hall).
    by rewrite Hcat, length_fmap.
  - intros Hall. unfold st, add_leads_to_campaign.
    destruct leads as [|l leads]; [done|].
    induction (batches (map _transform_lead (l :: leads))) as [|b bs IH];
      [done|].
    simpl. unfold record_batch at 2.
    by destruct (Hall {| lead_list := b; ignore_global_block_list := false;
                         ignore_unsubscribe_list := false;
                         ignore_duplicate_leads_in_other_campaign :=
                           ignore_duplicates |}) as [msg ->].
Qed.

Lemma add_leads_total_witness :
  total (add_leads_to_campaign (λ _, BatchResult ∅)
           [ {[ "email" := PStr "x@a.com" ]}; {[ "email" := PStr "y@b.com" ]} ]
           true)
  = Z.of_nat 2
  ∧ add_leads_to_campaign (λ _, BatchFailure "503")
      [ {[ "email" := PStr "x@a.com" ]} ] true
    = {| total := 0; added := 0; duplicates := 0; invalid := 0 |}.
Proof.
  split.
  - apply (proj1 (proj2 (proj2 (add_leads_total (λ _, BatchResult ∅)
             [ {[ "email" := PStr "x@a.com" ]}; {[ "email" := PStr "y@b.com" ]} ]
             true)))).
    intros r. by exists ∅.
  - apply (proj2 (proj2 (proj2 (add_leads_total (λ _, BatchFailure "503")
             [ {[ "email" := PStr "x@a.com" ]} ] true)))).
    intros r. by exists "503".
Defined.

End Upload.

(** * Enrichment *)

Section Enrichment.
Import Enricher Main.

(** X15. [get_company_size] flags a company as large only on an answered request:
    a domain, status 200, a company object with a [metrics] object, and an
    employee range that is one of the large tokens. *)
Theorem get_company_size_large (domain : pyval) (reply : http_reply company_data) :
  is_large_company (get_company_size domain reply) = true ↔
  truthy domain = true
  ∧ ∃ cd metrics,
      reply = HttpResponse 200 (Some (Some cd))
      ∧ cd_metrics cd = Some (Some metrics)
      ∧ classify_employee_range (get metrics "employees") = true.
Proof.
  unfold get_company_size.
  destruct (truthy domain); simpl; [|split; [done | by intros [? _]]].
  destruct reply as [msg|code data]; simpl.
  { split; [done | by intros [_ (? & ? & ? & _)]]. }
  destruct (code =? 200) eqn:Hc; simpl.
  2: { split; [done|]. intros [_ (cd & mt & [= -> _] & _)]. done. }
  apply Z.eqb_eq in Hc as ->.
  destruct data as [[cd|]|]; simpl.
  - destruct (cd_metrics cd) as [[mt|]|] eqn:Hm; simpl.
    + split.
      * intros H. split; [done|]. by exists cd, mt.
      * intros [_ (cd' & mt' & [= <-] & Hm' & H)]. rewrite Hm in Hm'.
        by injection Hm' as <-.
    + split; [done|]. intros [_ (cd' & mt' & [= <-] & Hm' & _)]. congruence.
    + split; [done|]. intros [_ (cd' & mt' & [= <-] & Hm' & _)]. congruence.
  - split; [done|]. intros [_ (cd' & mt' & [= ] & _)].
  - split; [done|]. intros [_ (cd' & mt' & [= ] & _)].
Qed.

(** X16. [find_company_domain] gives [None] or a non-empty domain, never an empty
    value; it gives a domain exactly when the name is not empty and the request
    is answered with status 200 and an object holding that domain. *)
Theorem find_company_domain_result (company_name : pyval)
    (reply : http_reply domain_data) :
  (find_company_domain company_name reply = PNone
   ∨ truthy (find_company_domain company_name reply) = true)
  ∧ (truthy (find_company_domain company_name reply) = true ↔
     truthy company_name = true
     ∧ ∃ d, reply = HttpResponse 200 (Some (Some d))
            ∧ truthy (get (dd_fields d) "domain") = true
            ∧ find_company_domain company_name reply
              = get (dd_fields d) "domain").
Proof.
  unfold find_company_domain.
  destruct (truthy company_name); simpl;
    [|split; [by left | split; [done | by intros [? _]]]].
  destruct reply as [msg|code data]; simpl.
  { split; [by left | split; [done | by intros [_ (? & ? & _)]]]. }
  destruct (code =? 200) eqn:Hc; simpl.
  2: { split; [by left|]. split; [done|].
       intros [_ (d & [= -> _] & _)]. done. }
  apply Z.eqb_eq in Hc as ->.
  destruct data as [[d|]|]; simpl.
  - destruct (truthy (get (dd_fields d) "domain")) eqn:Ht.
    + split; [by right|]. split; [|done]. intros _. split; [done|].
      exists d. by rewrite Ht.
    + split; [by left|]. split; [done|].
      intros [_ (d' & [= <-] & Ht' & _)]. congruence.
  - split; [by left|]. split; [done|]. intros [_ (d' & [= ] & _)].
  - split; [by left|]. split; [done|]. intros [_ (d' & [= ] & _)].
Qed.

(** X17. [find_decision_maker] finds a contact exactly when the domain is not
    empty and the request is answered with status 200 and at least one e-mail
    entry; the contact is read off the first entry alone, with the defaults
    for a missing name, position or confidence. *)
Theorem find_decision_maker_result (company_domain : pyval)
    (reply : http_reply domain_data) (c : contact) :
  find_decision_maker company_domain reply = Some c ↔
  truthy company_domain = true
  ∧ ∃ d first others,
      reply = HttpResponse 200 (Some (Some d))
      ∧ dd_emails d = Some (first :: others)
      ∧ c = {| c_first_name := get_or first "first_name" (PStr "");
               c_last_name := get_or first "last_name" (PStr "");
               c_email := get first "value";
               c_title := get_or first "position" (PStr "Decision Maker");
               c_confidence := get_or first "confidence" (PInt 0) |}.
Proof.
  unfold find_decision_maker.
  destruct (truthy company_domain); simpl;
    [|split; [done | by intros [? _]]].
  destruct reply as [msg|code data]; simpl.
  { split; [done | by intros [_ (? & ? & ? & ? & _)]]. }
  destruct (code =? 200) eqn:Hc; simpl.
  2: { split; [done|]. intros [_ (d & f & o & [= -> _] & _)]. done. }
  apply Z.eqb_eq in Hc as ->.
  destruct data as [[d|]|]; simpl.
  - destruct (dd_emails d) as [[|first others]|] eqn:He.
    + split; [done|]. intros [_ (d' & f & o & [= <-] & He' & _)]. congruence.
    + split.
      * intros [= <-]. split; [done|]. by exists d, first, others.
      * intros [_ (d' & f & o & [= <-] & He' & ->)]. rewrite He in He'.
        by injection He' as <- <-.
    + split; [done|]. intros [_ (d' & f & o & [= <-] & He' & _)]. congruence.
  - split; [done|]. intros [_ (d' & f & o & [= ] & _)].
  - split; [done|]. intros [_ (d' & f & o & [= ] & _)].
Qed.

Lemma take_chars_empty n (s : string) : Str.take_chars (S n) s = "" ↔ s = "".
Proof.
  destruct s as [|c s]; simpl; [done|].
  destruct (Str.is_continuation c); split; discriminate.
Qed.

(** X18. Only the first 500 characters of the description reach the text
    generator: two descriptions with the same first 500 characters get the same
    answer, with the same prompt. *)
Theorem is_b2c_company_description_prefix (generate : string → claude_reply)
    (company_name industry : pyval) (s1 s2 : string) :
  Str.take_chars 500 s1 = Str.take_chars 500 s2 →
  is_b2c_company generate company_name industry (PStr s1)
  = is_b2c_company generate company_name industry (PStr s2).
Proof.
  intros Hp. unfold is_b2c_company.
  assert (Ht : truthy (PStr s1) = truthy (PStr s2)).
  { simpl. f_equal.
    destruct (String.eqb_spec s1 "") as [E1|E1];
      destruct (String.eqb_spec s2 "") as [E2|E2]; try done.
    - subst s1. symmetry in Hp. apply take_chars_empty in Hp. done.
    - subst s2. apply take_chars_empty in Hp. done. }
  rewrite Ht. unfold slice500. by rewrite Hp.
Qed.

Lemma is_b2c_company_description_prefix_witness :
  let long := String.concat "" (repeat "ab" 250) in
  is_b2c_company (λ _, ClaudeText "B2B") (PStr "Acme") PNone
    (PStr (long +:+ " and more"))
  = is_b2c_company (λ _, ClaudeText "B2B") (PStr "Acme") PNone (PStr long).
Proof.
  intros long. apply is_b2c_company_description_prefix.
  vm_compute. reflexivity.
Defined.

(** A positive verification names its ground. *)
Lemma verify_email_verified_status email reply :
  verified (verify_email email reply) = true →
  truthy email = true
  ∧ (status (verify_email email reply) = PStr "valid"
     ∨ (status (verify_email email reply) = PStr "accept_all"
        ∧ ∃ z, score (verify_email email reply) = PInt z ∧ 80 ≤ z)).
Proof.
  unfold verify_email. destruct (truthy email); simpl; [|done].
  destruct reply as [msg|code data]; simpl; [done|].
  destruct (negb (code =? 200)); simpl; [done|].
  destruct data as [[result|]|]; simpl; try done.
  destruct (eq_str _ "valid") eqn:Hv; simpl.
  { intros _. split; [done|]. left. by apply eq_str_spec. }
  destruct (eq_str _ "accept_all") eqn:Ha; simpl; [|done].
  destruct (get_or result "score" (PInt 0)) as [|s|z] eqn:Hs; simpl;
    try done.
  intros Hz. split; [done|]. right. split; [by apply eq_str_spec|].
  exists z. split; [done|]. by apply Z.leb_le.
Qed.

Lemma not_enrichment_field (k : string) :
  k ∉ enrichment_fields →
  k ≠ "company_domain" ∧ k ≠ "company_type" ∧ k ≠ "email"
  ∧ k ≠ "first_name" ∧ k ≠ "last_name" ∧ k ≠ "title"
  ∧ k ≠ "verification_status" ∧ k ≠ "verification_score".
Proof.
  unfold enrichment_fields. rewrite !elem_of_cons, elem_of_nil.
  intros H. repeat split; intros ->; apply H; tauto.
Qed.

(** One turn of the enrichment loop either leaves [enriched_leads] as it is
    and counts at most one skip, or appends one enriched form of the lead and
    leaves the counters alone. *)
Lemma enrich_lead_step (w : world) (lead : pydict) (st st' : enrich_state) :
  enrich_lead w lead st = Ok st' →
  (enriched_leads st' = enriched_leads st
   ∧ b2c_skipped st ≤ b2c_skipped st'
   ∧ no_email_found st ≤ no_email_found st'
   ∧ b2c_skipped st' + no_email_found st'
     ≤ b2c_skipped st + no_email_found st + 1)
  ∨ (∃ lead', enriched_leads st' = enriched_leads st ++ [lead']
              ∧ enriched_from lead lead'
              ∧ b2c_skipped st' = b2c_skipped st
              ∧ no_email_found st' = no_email_found st).
Proof.
  unfold enrich_lead. intros Hstep.
  destruct (truthy (find_company_domain _ _)) eqn:Hdom; simpl in Hstep.
  2: { injection Hstep as <-. left. simpl. repeat split; lia. }
  destruct (is_b2c_company _ _ _ _) as [[check prompts]|e]; simpl in Hstep;
    [|discriminate].
  destruct (is_b2c check).
  { injection Hstep as <-. left. simpl. repeat split; lia. }
  destruct (find_decision_maker _ _) as [c|].
  2: { injection Hstep as <-. left. simpl. repeat split; lia. }
  destruct (verified (verify_email (c_email c) (email_verifier w (c_email c))))
    eqn:Hv; simpl in Hstep; injection Hstep as <-.
  2: { left. repeat split; lia. }
  right. eexists. split; [reflexivity|]. split; [|done].
  apply verify_email_verified_status in Hv as [Hemail Hstatus].
  unfold enriched_from, get.
  split. { rewrite !lookup_insert_ne by done. by rewrite lookup_insert_eq. }
  split. { rewrite !lookup_insert_ne by done. by rewrite lookup_insert_eq. }
  split. { rewrite !lookup_insert_ne by done. by rewrite lookup_insert_eq. }
  split.
  { rewrite lookup_insert_eq.
    rewrite (lookup_insert_ne _ "verification_score" "verification_status")
      by done.
    rewrite lookup_insert_eq. simpl. exact Hstatus. }
  intros k Hk. apply not_enrichment_field in Hk
    as (? & ? & ? & ? & ? & ? & ? & ?).
  by rewrite !lookup_insert_ne by done.
Qed.

Lemma enrich_loop_spec (w : world) (leads : list pydict) :
  ∀ st st',
    enrich_loop w leads st = Ok st' →
    ∃ sources new,
      enriched_leads st' = enriched_leads st ++ new
      ∧ sublist sources leads
      ∧ Forall2 enriched_from sources new
      ∧ b2c_skipped st ≤ b2c_skipped st'
      ∧ no_email_found st ≤ no_email_found st'
      ∧ b2c_skipped st' + no_email_found st' + Z.of_nat (length new)
        ≤ b2c_skipped st + no_email_found st + Z.of_nat (length leads).
Proof.
  induction leads as [|lead rest IH]; intros st st'; simpl.
  - intros [= <-]. exists [], []. rewrite app_nil_r.
    repeat split; try done; try lia; try constructor.
  - destruct (enrich_lead w lead st) as [st1|e] eqn:Hstep; simpl; [|done].
    intros Hloop.
    destruct (IH st1 st' Hloop) as (srcs & new & E & Hsub & Hf & Hb & Hn & Hc).
    apply enrich_lead_step in Hstep
      as [(E1 & Hb1 & Hn1 & Hc1)|(lead' & E1 & Hfrom & Hb1 & Hn1)].
    + exists srcs, new. rewrite E, E1.
      split; [done|]. split; [by apply sublist_cons|].
      split; [done|]. repeat split; lia.
    + exists (lead :: srcs), (lead' :: new). rewrite E, E1, <- app_assoc.
      split; [done|]. split; [by apply sublist_skip|].
      split; [by constructor|]. simpl length. repeat split; lia.
Qed.

(** X19. Every lead that leaves the enrichment stage is an enriched form of a lead
    that entered it, in the same order: it has a domain and an e-mail address,
    is marked B2B, records a positive verification, and keeps every other field
    of its source. *)
Theorem enrich_output (w : world) (leads : list pydict) (st : enrich_state) :
  enrich w leads = Ok st →
  ∃ sources, sublist sources leads
             ∧ Forall2 enriched_from sources (enriched_leads st).
Proof.
  intros H. apply enrich_loop_spec in H
    as (srcs & new & E & Hsub & Hf & _). simpl in E. rewrite E.
  by exists srcs.
Qed.

(** X20. The counters of the enrichment stage never count a lead twice: enriched
    leads, B2C skips and leads without an address together are at most the
    leads that entered. *)
Theorem enrich_counters (w : world) (leads : list pydict) (st : enrich_state) :
  enrich w leads = Ok st →
  0 ≤ b2c_skipped st ∧ 0 ≤ no_email_found st
  ∧ Z.of_nat (length (enriched_leads st)) + b2c_skipped st + no_email_found st
    ≤ Z.of_nat (length leads).
Proof.
  intros H. apply enrich_loop_spec in H
    as (srcs & new & E & _ & _ & Hb & Hn & Hc). simpl in *. rewrite E. lia.
Qed.

(** A world in which every request is answered: one company, one contact
    with a valid address. *)
Lemma enrich_example :
  let w := {| company_search := λ _, HttpResponse 200
                (Some (Some {| dd_fields := {[ "domain" := PStr "acme.io" ]};
                               dd_emails := None |}));
              company_find := λ _, HttpFailure "down";
              text_generator := λ _, ClaudeText "B2B";
              domain_search := λ _, HttpResponse 200
                (Some (Some {| dd_fields := ∅;
                               dd_emails := Some [ {[ "value" := PStr "ann@acme.io";
                                                      "first_name" := PStr "Ann" ]} ] |}));
              email_verifier := λ _, HttpResponse 200
                (Some (Some {[ "status" := PStr "valid"; "score" := PInt 95 ]})) |} in
  enrich w [ {[ "company_name" := PStr "Acme" ]}; ∅ ]
  = Ok {| enriched_leads :=
            [ {[ "company_name" := PStr "Acme";
                 "company_domain" := PStr "acme.io";
                 "company_type" := PStr "b2b";
                 "email" := PStr "ann@acme.io";
                 "first_name" := PStr "Ann";
                 "last_name" := PStr "";
                 "title" := PStr "Decision Maker";
                 "verification_status" := PStr "valid";
                 "verification_score" := PInt 95 ]} ];
          b2c_skipped := 0;
          no_email_found := 1 |}.
Proof. vm_compute. reflexivity. Qed.

Lemma enrich_output_witness :
  ∃ sources,
    sublist sources [ ({[ "company_name" := PStr "Acme" ]} : pydict); ∅ ]
    ∧ Forall2 enriched_from sources
        [ {[ "company_name" := PStr "Acme";
             "company_domain" := PStr "acme.io";
             "company_type" := PStr "b2b";
             "email" := PStr "ann@acme.io";
             "first_name" := PStr "Ann";
             "last_name" := PStr "";
             "title" := PStr "Decision Maker";
             "verification_status" := PStr "valid";
             "verification_score" := PInt 95 ]} ].
Proof.
  exact (enrich_output _ _ _ enrich_example).
Defined.

Lemma enrich_counters_witness :
  0 ≤ 0 ∧ 0 ≤ 1 ∧ Z.of_nat 1 + 0 + 1 ≤ Z.of_nat 2.
Proof.
  exact (enrich_counters _ _ _ enrich_example).
Defined.

End Enrichment.

(** * Data store *)

Section Store.
Import Supabase.

Lemma last_contacts_loop_spec (rows : list pydict) :
  Forall (λ row, is_Some (row !! "created_at")) rows →
  ∀ acc : gmap pyval pyval,
  ∃ m, last_contacts_loop rows acc = Ok m
       ∧ ∀ d, m !! d
              = match acc !! d with
                | Some v => Some v
                | None =>
                    if truthy d
                    then '(_, row) ← list_find
                                       (λ row, get row "company_domain" = d) rows;
                         row !! "created_at"
                    else None
                end.
Proof.
  induction 1 as [|row rest [v Hv] _ IH]; intros acc; simpl.
  - exists acc. split; [done|]. intros d. destruct (acc !! d); [done|].
    by destruct (truthy d).
  - destruct (truthy (get row "company_domain")) eqn:Ht; simpl.
    + case_bool_decide as Hin; simpl.
      * destruct (IH acc) as (m & -> & Hm). exists m. split; [done|].
        intros d. rewrite Hm. destruct (acc !! d) eqn:Hd; [done|].
        destruct (truthy d); [|done].
        case_decide as Hrow; [|by destruct (list_find _ rest) as [[? ?]|]].
        subst d. apply elem_of_dom in Hin as [? ?]. congruence.
      * rewrite Hv.
        destruct (IH (<[get row "company_domain" := v]> acc)) as (m & -> & Hm).
        exists m. split; [done|]. intros d. rewrite Hm.
        destruct (decide (get row "company_domain" = d)) as [<-|Hne].
        -- rewrite lookup_insert_eq. apply not_elem_of_dom in Hin.
           rewrite Hin, Ht. simpl. by rewrite Hv.
        -- rewrite lookup_insert_ne by done. destruct (acc !! d); [done|].
           destruct (truthy d); [|done].
           by destruct (list_find _ rest) as [[? ?]|].
    + destruct (IH acc) as (m & -> & Hm). exists m. split; [done|].
      intros d. rewrite Hm. destruct (acc !! d); [done|].
      destruct (truthy d) eqn:Htd; [|done].
      case_decide as Hrow; [congruence|].
      by destruct (list_find _ rest) as [[? ?]|].
Qed.

(** X21. The date [get_last_contact_dates] records for a domain is the one of the
    first row that carries the domain (the most recent, in the order the rows
    are asked for); a domain without a row, and an empty domain, get no entry. *)
Theorem get_last_contact_dates_first (rows : list pydict) (d : pyval) :
  Forall (λ row, is_Some (row !! "created_at")) rows →
  get_last_contact_dates (Ok rows) !! d
  = if truthy d
    then '(_, row) ← list_find (λ row, get row "company_domain" = d) rows;
         row !! "created_at"
    else None.
Proof.
  intros Hall. unfold get_last_contact_dates. simpl.
  destruct (last_contacts_loop_spec rows Hall ∅) as (m & -> & Hm). simpl.
  by rewrite Hm, lookup_empty.
Qed.

Lemma get_last_contact_dates_first_witness :
  get_last_contact_dates
    (Ok [ {[ "company_domain" := PStr "a.com"; "created_at" := PStr "2024-03-01" ]};
          {[ "company_domain" := PStr "a.com"; "created_at" := PStr "2024-01-01" ]} ])
    !! PStr "a.com"
  = Some (PStr "2024-03-01").
Proof.
  rewrite get_last_contact_dates_first.
  - vm_compute. reflexivity.
  - repeat constructor; eexists; vm_compute; reflexivity.
Defined.

Lemma stamp_spec (now_iso : string) (p : pydict) :
  (∀ k v, p !! k = Some v → stamp now_iso p !! k = Some v)
  ∧ dom (stamp now_iso p) = dom p ∪ {[ "created_at"; "status" ]}
  ∧ (p !! "created_at" = None →
     stamp now_iso p !! "created_at" = Some (PStr now_iso))
  ∧ (p !! "status" = None → stamp now_iso p !! "status" = Some (PStr "ready")).
Proof.
  unfold stamp.
  destruct (decide ("created_at" ∈ dom p)) as [Hc|Hc].
  - rewrite (bool_decide_eq_true_2 _ Hc).
    destruct (decide ("status" ∈ dom p)) as [Hs|Hs].
    + rewrite (bool_decide_eq_true_2 _ Hs). split; [done|].
      split; [set_solver|]. apply elem_of_dom in Hc as [? Hc], Hs as [? Hs].
      split; congruence.
    + rewrite (bool_decide_eq_false_2 _ Hs). split.
      { intros k v Hk. rewrite lookup_insert_ne; [done|].
        intros <-. apply Hs, elem_of_dom. by eexists. }
      split; [rewrite dom_insert_L; set_solver|].
      apply elem_of_dom in Hc as [? Hc].
      split; [congruence|]. intros _. apply lookup_insert_eq.
  - rewrite (bool_decide_eq_false_2 _ Hc).
    assert (Hs' : "status" ∈ dom (<["created_at" := PStr now_iso]> p)
                  ↔ "status" ∈ dom p).
    { rewrite dom_insert_L. set_solver. }
    destruct (decide ("status" ∈ dom p)) as [Hs|Hs].
    + rewrite bool_decide_eq_true_2 by by apply Hs'. split.
      { intros k v Hk. rewrite lookup_insert_ne; [done|].
        intros <-. apply Hc, elem_of_dom. by eexists. }
      split; [rewrite dom_insert_L; set_solver|].
      split; [intros _; apply lookup_insert_eq|].
      apply elem_of_dom in Hs as [? Hs]. congruence.
    + rewrite bool_decide_eq_false_2 by (intros ?; by apply Hs, Hs'). split.
      { intros k v Hk. rewrite !lookup_insert_ne; [done| |].
        - intros <-. apply Hc, elem_of_dom. by eexists.
        - intros <-. apply Hs, elem_of_dom. by eexists. }
      split; [rewrite !dom_insert_L; set_solver|].
      split.
      * intros _. rewrite lookup_insert_ne by done. apply lookup_insert_eq.
      * intros _. apply lookup_insert_eq.
Qed.

(** X22. [insert_prospects] never overwrites: each prospect keeps every field it
    had, [created_at] and [status] included, and gains exactly those two keys
    when they were missing (the status "ready"); the count it returns is the
    number of rows the store reports, and 0 when the insertion fails. *)
Theorem insert_prospects_stamps (clock : nat → string)
    (insert : list pydict → result (list pydict)) (prospects : list pydict) :
  let '(n, out) := insert_prospects clock insert prospects in
  length out = length prospects
  ∧ 0 ≤ n
  ∧ ((∀ l, ∃ e, insert l = Raise e) → n = 0)
  ∧ ∀ i p, prospects !! i = Some p →
      ∃ p', out !! i = Some p'
            ∧ (∀ k v, p !! k = Some v → p' !! k = Some v)
            ∧ dom p' = dom p ∪ {[ "created_at"; "status" ]}
            ∧ (p !! "status" = None → p' !! "status" = Some (PStr "ready")).
Proof.
  unfold insert_prospects. destruct prospects as [|p0 rest].
  { split; [done|]. split; [done|]. split; [done|]. intros i p Hp.
    by rewrite lookup_nil in Hp. }
  set (prospects := p0 :: rest).
  set (stamped := imap (λ i prospect, stamp (clock i) prospect) prospects).
  assert (Hlen : length stamped = length prospects) by apply length_imap.
  assert (Hrows : ∀ i p, prospects !! i = Some p →
            ∃ p', stamped !! i = Some p'
                  ∧ (∀ k v, p !! k = Some v → p' !! k = Some v)
                  ∧ dom p' = dom p ∪ {[ "created_at"; "status" ]}
                  ∧ (p !! "status" = None
                     → p' !! "status" = Some (PStr "ready"))).
  { intros i p Hp. exists (stamp (clock i) p). split.
    - unfold stamped. rewrite list_lookup_imap, Hp. done.
    - destruct (stamp_spec (clock i) p) as (H1 & H2 & _ & H4). done. }
  destruct (insert stamped) as [data|e] eqn:Hins.
  - split; [done|]. split; [lia|]. split; [|done].
    intros Hfail. destruct (Hfail stamped) as [e He]. congruence.
  - split; [done|]. split; [done|]. split; done.
Qed.

Lemma insert_prospects_stamps_witness :
  let '(n, out) :=
    insert_prospects (λ _, "2024-04-01T09:00:00") (λ _, Raise (OtherError "down"))
      [ {[ "email" := PStr "x@a.com"; "status" := PStr "sent" ]} ] in
  n = 0.
Proof.
  pose proof (insert_prospects_stamps (λ _, "2024-04-01T09:00:00")
                (λ _, Raise (OtherError "down"))
                [ {[ "email" := PStr "x@a.com"; "status" := PStr "sent" ]} ])
    as H.
  destruct (insert_prospects _ _ _) as [n out].
  destruct H as (_ & _ & H & _). apply H. intros l. by eexists.
Defined.

End Store.

(** * Profile scraper *)

Section Profiles.
Import Scraper.

Lemma filter_profile_step en p filtered stats filtered' stats' :
  filter_profile en p (filtered, stats) = Ok (filtered', stats') →
  big_corporate_list stats' + big_corporate_api stats' + no_company stats'
    + passed stats'
  = big_corporate_list stats + big_corporate_api stats + no_company stats
    + passed stats + 1
  ∧ big_corporate_list stats ≤ big_corporate_list stats'
  ∧ big_corporate_api stats ≤ big_corporate_api stats'
  ∧ no_company stats ≤ no_company stats'
  ∧ (en = None → big_corporate_api stats' = big_corporate_api stats)
  ∧ ((filtered' = filtered ∧ passed stats' = passed stats)
     ∨ (filtered' = filtered ++ [p] ∧ passed stats' = passed stats + 1
        ∧ passes_list p)).
Proof.
  unfold filter_profile. intros H.
  destruct (profile_company p) as [name|e] eqn:Hname; simpl in H;
    [|discriminate].
  destruct (truthy name) eqn:Ht; simpl in H.
  2: { injection H as <- <-. simpl. repeat split; try lia. by left. }
  destruct (is_big_corporate name) as [[]|e] eqn:Hbig; simpl in H;
    [| |discriminate].
  { injection H as <- <-. simpl. repeat split; try lia. by left. }
  destruct en as [en|].
  - match type of H with
    | (if ?c then _ else _) = _ => destruct c
    end; injection H as <- <-; simpl.
    + repeat split; try lia; try done. by left.
    + repeat split; try lia; try done. right. repeat split; try done.
      by exists name.
  - injection H as <- <-. simpl. repeat split; try lia.
    right. repeat split; try done. by exists name.
Qed.

Lemma filter_profiles_loop_spec en (profiles : list profile) :
  ∀ filtered stats filtered' stats',
    filter_profiles_loop en profiles (filtered, stats)
    = Ok (filtered', stats') →
    ∃ new,
      filtered' = filtered ++ new
      ∧ sublist new profiles
      ∧ Forall passes_list new
      ∧ passed stats' = passed stats + Z.of_nat (length new)
      ∧ big_corporate_list stats' + big_corporate_api stats'
          + no_company stats' + passed stats'
        = big_corporate_list stats + big_corporate_api stats
          + no_company stats + passed stats + Z.of_nat (length profiles)
      ∧ big_corporate_list stats ≤ big_corporate_list stats'
      ∧ big_corporate_api stats ≤ big_corporate_api stats'
      ∧ no_company stats ≤ no_company stats'
      ∧ (en = None → big_corporate_api stats' = big_corporate_api stats).
Proof.
  induction profiles as [|p rest IH]; intros filtered stats filtered' stats';
    cbn [filter_profiles_loop].
  - intros [= <- <-]. exists []. rewrite app_nil_r.
    repeat split; simpl; try done; try lia; try constructor.
  - destruct (filter_profile en p (filtered, stats)) as [[f1 s1]|e] eqn:Hstep;
      simpl; [|done].
    intros Hloop.
    destruct (IH f1 s1 filtered' stats' Hloop)
      as (new & -> & Hsub & Hall & Hp & Hsum & Hl & Ha & Hn & Hnone).
    apply filter_profile_step in Hstep
      as (Hsum1 & Hl1 & Ha1 & Hn1 & Hnone1 & [[-> Hp1]|(-> & Hp1 & Hgood)]).
    + exists new. split; [done|]. split; [by apply sublist_cons|].
      split; [done|]. repeat split; try lia.
      intros E. rewrite (Hnone E), (Hnone1 E). done.
    + exists (p :: new). rewrite <- app_assoc. split; [done|].
      split; [by apply sublist_skip|]. split; [by constructor|].
      simpl length. repeat split; try lia.
      intros E. rewrite (Hnone E), (Hnone1 E). done.
Qed.

(** X23. [filter_profiles] accounts for every profile exactly once: the four
    counters add up to the number of profiles, [passed] is the number of
    profiles kept, and without an enricher nothing is counted as large by the
    API. The kept profiles come in their order, and each has a company name
    that holds no entry of the list of known large brands. *)
Theorem filter_profiles_accounting (email_enricher : option enricher)
    (profiles filtered : list profile) (stats : filter_stats) :
  filter_profiles email_enricher profiles = Ok (filtered, stats) →
  big_corporate_list stats + big_corporate_api stats + no_company stats
    + passed stats = Z.of_nat (length profiles)
  ∧ passed stats = Z.of_nat (length filtered)
  ∧ 0 ≤ big_corporate_list stats ∧ 0 ≤ big_corporate_api stats
  ∧ 0 ≤ no_company stats
  ∧ (email_enricher = None → big_corporate_api stats = 0)
  ∧ sublist filtered profiles
  ∧ Forall passes_list filtered.
Proof.
  intros H. apply filter_profiles_loop_spec in H
    as (new & -> & Hsub & Hall & Hp & Hsum & Hl & Ha & Hn & Hnone).
  simpl in *. repeat split; try lia; try done;
    intros E; by rewrite (Hnone E).
Qed.

Lemma filter_profiles_accounting_witness :
  let acme := {| pf_fields := {[ "companyName" := PStr "Acme" ]};
                 pf_currentCompany := None |} in
  let big := {| pf_fields := {[ "companyName" := PStr "Google France" ]};
                pf_currentCompany := None |} in
  let audi := {| pf_fields := {[ "companyName" := PStr "AUDİ" ]};
                 pf_currentCompany := None |} in
  let anon := {| pf_fields := ∅; pf_currentCompany := None |} in
  2 + 0 + 1 + 1 = Z.of_nat (length [acme; big; audi; anon])
  ∧ 1 = Z.of_nat (length [acme])
  ∧ 0 ≤ 2 ∧ 0 ≤ 0 ∧ 0 ≤ 1
  ∧ ((None : option enricher) = None → 0 = 0)
  ∧ sublist [acme] [acme; big; audi; anon]
  ∧ Forall passes_list [acme].
Proof.
  intros acme big audi anon.
  apply (filter_profiles_accounting None [acme; big; audi; anon] [acme]
           {| big_corporate_list := 2; big_corporate_api := 0;
              no_company := 1; passed := 1 |}).
  vm_compute. reflexivity.
Defined.

Lemma profile_to_lead_spec (p : profile) (lead : pydict) :
  profile_to_lead p = Ok lead →
  dom lead = {[ "company_name"; "company_domain"; "job_title"; "job_url";
                "first_name"; "last_name"; "linkedin_url"; "location";
                "source"; "source_keyword" ]}
  ∧ lead !! "company_domain" = Some PNone
  ∧ get lead "source" = PStr "linkedin_profile_scraper"
  ∧ profile_company p = Ok (get lead "company_name").
Proof.
  unfold profile_to_lead.
  destruct (profile_company p) as [name|e]; simpl; [|done].
  intros [= <-]. split; [|split; [|split]].
  - rewrite !dom_insert_L, dom_empty_L.
    apply set_eq. intros k.
    rewrite !elem_of_union, !elem_of_singleton, elem_of_empty. tauto.
  - by rewrite lookup_insert_ne, lookup_insert_eq.
  - unfold get. rewrite !lookup_insert_ne by done. by rewrite lookup_insert_eq.
  - unfold get. by rewrite lookup_insert_eq.
Qed.

Lemma transform_for_pipeline_spec (profiles : list profile) :
  ∀ leads, transform_for_pipeline profiles = Ok leads →
           Forall2 (λ p lead, profile_to_lead p = Ok lead) profiles leads.
Proof.
  induction profiles as [|p rest IH]; intros leads; simpl.
  - intros [= <-]. constructor.
  - destruct (profile_to_lead p) as [lead|e] eqn:Hp; simpl; [|done].
    destruct (transform_for_pipeline rest) as [ls|e]; simpl; [|done].
    intros [= <-]. constructor; [done | by apply IH].
Qed.

(** X24. [transform_for_pipeline] returns whenever no profile has a [null]
    company object, one lead per profile and in the same order; each lead has
    exactly ten keys, its [company_domain] is [None] and its [source] is the
    scraper's name. *)
Theorem transform_for_pipeline_leads (profiles : list profile) :
  Forall (λ p, pf_currentCompany p ≠ Some None) profiles →
  ∃ leads,
    transform_for_pipeline profiles = Ok leads
    ∧ length leads = length profiles
    ∧ Forall (λ lead,
        dom lead = {[ "company_name"; "company_domain"; "job_title";
                      "job_url"; "first_name"; "last_name"; "linkedin_url";
                      "location"; "source"; "source_keyword" ]}
        ∧ lead !! "company_domain" = Some PNone
        ∧ get lead "source" = PStr "linkedin_profile_scraper") leads.
Proof.
  intros Hall.
  assert (Hok : ∃ leads, transform_for_pipeline profiles = Ok leads).
  { induction Hall as [|p rest Hp _ [ls IH]]; simpl; [by eexists|].
    unfold profile_to_lead, profile_company.
    destruct (truthy (get (pf_fields p) "companyName")); simpl.
    - rewrite IH. simpl. by eexists.
    - destruct (pf_currentCompany p) as [[cc|]|]; simpl; [|done|];
        rewrite IH; simpl; by eexists. }
  destruct Hok as [leads Hleads]. exists leads. split; [done|].
  apply transform_for_pipeline_spec in Hleads.
  split; [symmetry; by eapply Forall2_length|].
  clear Hall. induction Hleads as [|p lead ps ls Hp _ IH]; constructor; [|done].
  by destruct (profile_to_lead_spec p lead Hp) as (? & ? & ? & _).
Qed.

Lemma transform_for_pipeline_leads_witness :
  ∃ leads,
    transform_for_pipeline
      [ {| pf_fields := {[ "headline" := PStr "VP Sales" ]};
           pf_currentCompany := Some (Some {[ "name" := PStr "Acme" ]}) |} ]
    = Ok leads
    ∧ length leads = 1%nat
    ∧ Forall (λ lead,
        dom lead = {[ "company_name"; "company_domain"; "job_title";
                      "job_url"; "first_name"; "last_name"; "linkedin_url";
                      "location"; "source"; "source_keyword" ]}
        ∧ lead !! "company_domain" = Some PNone
        ∧ get lead "source" = PStr "linkedin_profile_scraper") leads.
Proof.
  apply (transform_for_pipeline_leads
           [ {| pf_fields := {[ "headline" := PStr "VP Sales" ]};
                pf_currentCompany := Some (Some {[ "name" := PStr "Acme" ]}) |} ]).
  repeat constructor. discriminate.
Defined.

(** X25. The leads [transform_for_pipeline] produces have no domain yet, so both
    batch filters let all of them through: no deduplication against any set
    of contacts and no cooldown against any contact map removes one. *)
Theorem transformed_leads_pass_filters (profiles : list profile)
    (leads : list pydict) (S : gset (pyval * pyval)) (now days thr : Z)
    (m : gmap string pyval) :
  transform_for_pipeline profiles = Ok leads →
  Datetime.sub_days now days = Ok thr →
  filter_duplicates leads S = leads
  ∧ filter_cooldown now leads m days = Ok leads.
Proof.
  intros Hleads Hthr. apply transform_for_pipeline_spec in Hleads.
  assert (Hnone : Forall (λ lead, get lead "company_domain" = PNone) leads).
  { induction Hleads as [|p lead ps ls Hp _ IH]; constructor; [|done].
    destruct (profile_to_lead_spec p lead Hp) as (_ & Hd & _).
    unfold get. by rewrite Hd. }
  split.
  - rewrite filter_duplicates_filter. clear Hleads.
    induction Hnone as [|lead ls Hl _ IH]; [done|].
    rewrite filter_cons_True; [by rewrite IH|].
    intros [[Hd _] _]. by rewrite Hl in Hd.
  - apply filter_cooldown_filter. exists thr. split; [done|].
    assert (Hk : Forall (λ p, cooldown_keeps m thr p = Ok true) leads).
    { eapply Forall_impl; [exact Hnone|]. intros lead Hl. simpl in Hl.
      unfold cooldown_keeps. by rewrite Hl. }
    split.
    + eapply Forall_impl; [exact Hk|]. intros lead Hl. by exists true.
    + clear Hleads Hnone. induction Hk as [|lead ls Hl _ IH]; [done|].
      rewrite filter_cons_True by done. by f_equal.
Qed.

Lemma transformed_leads_pass_filters_witness :
  let lead : pydict :=
    {[ "company_name" := PStr "Acme"; "company_domain" := PNone;
       "job_title" := PStr "VP Sales"; "job_url" := PStr "";
       "first_name" := PStr ""; "last_name" := PStr "";
       "linkedin_url" := PStr ""; "location" := PStr "";
       "source" := PStr "linkedin_profile_scraper";
       "source_keyword" := PStr "VP Sales" ]} in
  filter_duplicates [lead] {[ (PNone, PNone) ]} = [lead]
  ∧ filter_cooldown (utc_midnight 2024 4 1) [lead] ∅ 90 = Ok [lead].
Proof.
  intros lead.
  apply (transformed_leads_pass_filters
           [ {| pf_fields := {[ "headline" := PStr "VP Sales" ]};
                pf_currentCompany := Some (Some {[ "name" := PStr "Acme" ]}) |} ]
           [lead] _ (utc_midnight 2024 4 1) 90
           (utc_midnight 2024 4 1 - 90 * Datetime.us_per_day)).
  - vm_compute. reflexivity.
  - vm_compute. reflexivity.
Defined.

End Profiles.

(** * Sequences and the campaign payload *)

Section Sequences.
Import Campaign Personalizer Main.

Lemma custom_fields_dom (lead : pydict) (k : string) :
  k ∈ dom (custom_fields (_transform_lead lead))
  ↔ k ∈ sequence_fields ∧ truthy (get lead k) = true.
Proof.
  destruct (transform_lead_custom_fields lead) as (_ & d & Hd & Hk).
  unfold custom_fields. rewrite Hd, elem_of_dom, Hk.
  case_bool_decide as Hin; simpl.
  - destruct (truthy (get lead k)).
    + split; [done | by eauto].
    + split; [by intros [? ?] | by intros [_ ?]].
  - split; [by intros [? ?] | by intros [? _]].
Qed.

Lemma generate_millemail_sequence_fields (choice : version_key) (lead : pydict) :
  let sequence := generate_millemail_sequence choice lead in
  truthy (get sequence "subject_line") = true
  ∧ truthy (get sequence "email_1") = true
  ∧ get sequence "email_1_ps" = PStr ""
  ∧ truthy (get sequence "email_2") = true
  ∧ truthy (get sequence "email_3") = true.
Proof.
  unfold generate_millemail_sequence, get.
  rewrite lookup_insert_eq.
  rewrite (lookup_insert_ne _ "subject_line" "email_1") by done.
  rewrite lookup_insert_eq.
  rewrite !(lookup_insert_ne _ _ "email_1_ps") by done.
  rewrite lookup_insert_eq.
  rewrite !(lookup_insert_ne _ _ "email_2") by done.
  rewrite lookup_insert_eq.
  rewrite !(lookup_insert_ne _ _ "email_3") by done.
  rewrite lookup_insert_eq.
  cbn [default].
  destruct choice; cbn [SEQUENCES subject_line email_1 email_2 email_3];
    (split; [reflexivity|]); (split; [by apply truthy_append|]);
    (split; [reflexivity|]); split; reflexivity.
Qed.

(** X26. A lead that went through step 10 of [main] is sent without a P.S.: for
    every lead and every version of the prewritten sequences, the custom
    fields of its campaign record are exactly [subject_line], [email_1],
    [email_2] and [email_3]; the key [email_1_ps] is never there. *)
Theorem millemail_sequence_payload (choice : version_key) (lead : pydict) :
  let lead' :=
    attach_sequence (generate_millemail_sequence choice lead) lead in
  dom (custom_fields (_transform_lead lead'))
  = {[ "subject_line"; "email_1"; "email_2"; "email_3" ]}
  ∧ custom_fields (_transform_lead lead') !! "email_1_ps" = None.
Proof.
  intros lead'.
  destruct (generate_millemail_sequence_fields choice lead)
    as (Hs & H1 & Hps & H2 & H3).
  assert (Gs : get lead' "subject_line"
               = get (generate_millemail_sequence choice lead) "subject_line").
  { unfold lead', attach_sequence, get at 1.
    rewrite !lookup_insert_ne by done. by rewrite lookup_insert_eq. }
  assert (G1 : get lead' "email_1"
               = get (generate_millemail_sequence choice lead) "email_1").
  { unfold lead', attach_sequence, get at 1.
    rewrite !lookup_insert_ne by done. by rewrite lookup_insert_eq. }
  assert (Gps : get lead' "email_1_ps"
                = get (generate_millemail_sequence choice lead) "email_1_ps").
  { unfold lead', attach_sequence, get at 1.
    rewrite !lookup_insert_ne by done. by rewrite lookup_insert_eq. }
  assert (G2 : get lead' "email_2"
               = get (generate_millemail_sequence choice lead) "email_2").
  { unfold lead', attach_sequence, get at 1.
    rewrite !lookup_insert_ne by done. by rewrite lookup_insert_eq. }
  assert (G3 : get lead' "email_3"
               = get (generate_millemail_sequence choice lead) "email_3").
  { unfold lead', attach_sequence, get at 1. by rewrite lookup_insert_eq. }
  assert (Hdom : ∀ k, k ∈ dom (custom_fields (_transform_lead lead'))
                      ↔ k = "subject_line" ∨ k = "email_1" ∨ k = "email_2"
                        ∨ k = "email_3").
  { intros k. rewrite custom_fields_dom. unfold sequence_fields.
    rewrite !elem_of_cons, elem_of_nil. split.
    - intros [[-> | [-> | [-> | [-> | [-> | []]]]]] Ht]; try tauto.
      rewrite Gps, Hps in Ht. discriminate.
    - intros [-> | [-> | [-> | ->]]].
      + rewrite Gs. tauto.
      + rewrite G1. tauto.
      + rewrite G2. tauto.
      + rewrite G3. tauto. }
  split.
  - apply set_eq. intros k. rewrite Hdom, !elem_of_union, !elem_of_singleton.
    tauto.
  - apply not_elem_of_dom. rewrite Hdom.
    intros [?|[?|[?|?]]]; discriminate.
Qed.

End Sequences.

(** * More on the classifiers *)

Section MoreClassifiers.
Import Scraper Enricher.

(** The characters of a string, and a string made of characters. *)







(** Lower-casing: every character it writes is its own lower-case form. *)




Lemma decode_lead (x : string) (c : Z) :
  Str.decode x = Some c → Str.starts_continuation x = false.
Proof.
  unfold Str.decode, Str.starts_continuation, Str.is_continuation.
  destruct x as [|a [|b [|c' [|d [|]]]]]; try done; intros H;
    apply andb_false_iff.
  - destruct (Z.ltb_spec (Str.code a) 0x80); [|done]. left. lia.
  - destruct (Z.leb_spec 0xC2 (Str.code a)); [|done]. right. lia.
  - destruct (Z.leb_spec 0xE0 (Str.code a)); [|done]. right. lia.
  - destruct (Z.leb_spec 0xF0 (Str.code a)); [|done]. right. lia.
Qed.









(** X28. When the company lookup is not answered (the request fails, or the
    status is not 200), the B2C check on what [get_company_size] returns
    answers not-B2C with "No data available" and sends nothing to the text
    generator. *)
Theorem b2c_check_after_failed_lookup (generate : string → claude_reply)
    (company_name domain : pyval) (reply : http_reply company_data) :
  (∀ data, reply ≠ HttpResponse 200 data) →
  let size_info := get_company_size domain reply in
  is_b2c_company generate company_name (industry size_info)
    (default PNone (description size_info))
  = Ok ({| is_b2c := false; reason := "No data available" |}, []).
Proof.
  intros Hreply. unfold get_company_size.
  destruct (truthy domain); simpl; [|done].
  destruct reply as [msg|code data]; simpl; [done|].
  destruct (code =? 200) eqn:Hc; simpl; [|done].
  apply Z.eqb_eq in Hc as ->. by destruct (Hreply data).
Qed.

Lemma b2c_check_after_failed_lookup_witness :
  let size_info := get_company_size (PStr "acme.io") (HttpResponse 429 None) in
  is_b2c_company (λ _, ClaudeText "B2C") (PStr "Acme") (industry size_info)
    (default PNone (description size_info))
  = Ok ({| is_b2c := false; reason := "No data available" |}, []).
Proof.
  apply (b2c_check_after_failed_lookup (λ _, ClaudeText "B2C") (PStr "Acme")
           (PStr "acme.io") (HttpResponse 429 None)).
  intros data. discriminate.
Defined.

End MoreClassifiers.
